(** * mbutil: a shallow embedding of [mbutil/util.py]

    The development follows the module top to bottom: the row flip, the
    container with its tables, the deduplication pass ([compression_do]),
    the importer ([disk_to_mbtiles]) and the exporter ([mbtiles_to_disk]).

    Python integers are [Z]; [str] values are [string] (ASCII names, the
    only ones for which [\d] and code-point order coincide with the byte
    view); tile payloads are [list byte]; the floats of the WMS layout are
    the exact fractions they stand for.  Statements that touch the
    database or the file system are written in a small state-and-exception
    monad whose state survives a raise, so that what has been written at
    the moment of a failure can be inspected.

    Left out: the [info] and [debug] messages of the logger, which carry
    running times; the tables [grids] and [grid_data], which the module
    creates and never fills; failures of the operating system other than
    the ones named in [exn].  The rows of a [select] come in an order of
    the engine's choosing: where a theorem speaks of all the rows of the
    view it speaks of them up to a permutation. *)

From Stdlib Require Import ZArith List String Ascii Bool Lia.
From Stdlib Require Import Permutation Sorted DecimalString DecimalPos DecimalZ.
Import ListNotations.

Set Warnings "-register-all".

Local Open Scope string_scope.
Local Open Scope list_scope.
Local Open Scope Z_scope.

(** ** Exceptions and the state monad *)

Inductive exn : Type :=
| ValueError
| IndexError
| ZeroDivisionError
| OverflowError
| IntegrityError
| FileExistsError
| IsADirectoryError.

Inductive result (A : Type) : Type :=
| Ok (a : A)
| Raise (e : exn).

Arguments Ok {A} a.
Arguments Raise {A} e.

Definition M (S A : Type) : Type := S -> result A * S.

Definition ret {S A} (a : A) : M S A := fun s => (Ok a, s).

Definition raise {S A} (e : exn) : M S A := fun s => (Raise e, s).

Definition bind {S A B} (m : M S A) (k : A -> M S B) : M S B :=
  fun s =>
    match m s with
    | (Ok a, s') => k a s'
    | (Raise e, s') => (Raise e, s')
    end.

Definition gets {S A} (f : S -> A) : M S A := fun s => (Ok (f s), s).

Definition modify {S} (f : S -> S) : M S unit := fun s => (Ok tt, f s).

Definition lift_option {S A} (e : exn) (o : option A) : M S A :=
  match o with
  | Some a => ret a
  | None => raise e
  end.

Declare Scope py_scope.
Delimit Scope py_scope with py.

Notation "x <- m ;; k" := (bind m (fun x => k))
  (at level 61, m at next level, right associativity) : py_scope.
Notation "m ;;; k" := (bind m (fun _ => k))
  (at level 61, right associativity) : py_scope.

Local Open Scope py_scope.

(** [for a in l: body(a)]: the loop stops at the first exception. *)
Fixpoint for_each {S A} (l : list A) (body : A -> M S unit) : M S unit :=
  match l with
  | [] => ret tt
  | a :: l' => body a ;;; for_each l' body
  end.

(** [when c: m] *)
Definition when {S} (c : bool) (m : M S unit) : M S unit :=
  if c then m else ret tt.

(** ** Python built-ins used by the module *)

Definition bytes : Type := list Byte.byte.

Definition bytes_eqb (a b : bytes) : bool :=
  if list_eq_dec Byte.byte_eq_dec a b then true else false.

(** [d in files] *)
Definition py_in (d : bytes) (files : list bytes) : bool :=
  existsb (bytes_eqb d) files.

(** [files.index(d)]: position of the first equal element. *)
Fixpoint py_index (d : bytes) (files : list bytes) : option nat :=
  match files with
  | [] => None
  | f :: files' =>
      if bytes_eqb f d then Some 0%nat
      else option_map S (py_index d files')
  end.

(** [range(n)] *)
Definition py_range (n : Z) : list Z :=
  List.map Z.of_nat (seq 0 (Z.to_nat n)).

(** [str(n)] for an integer.  Python refuses to print more than 4300
    digits; the integers printed below are row numbers, and the theorems
    about an export that completes ask for row numbers of at most a
    hundred digits ([export_ready]). *)
Definition py_str (n : Z) : string := NilZero.string_of_int (Z.to_int n).

(** The digits of [\d] and of [int()] among the ASCII characters.  Outside
    ASCII Python knows further decimal digits and blanks: what is proved
    below of names read as numbers is proved of ASCII names. *)
Definition is_digit (c : ascii) : bool :=
  ((48 <=? nat_of_ascii c) && (nat_of_ascii c <=? 57))%nat.

Definition digit_val (c : ascii) : Z := Z.of_nat (nat_of_ascii c) - 48.

(** The ASCII characters that [int()] strips as blanks: tab to carriage
    return, and the space. *)
Definition is_space (c : ascii) : bool :=
  let n := nat_of_ascii c in
  (((9 <=? n) && (n <=? 13)) || (n =? 32))%nat.

(** [re.sub(r"[^\d]", "", s)] *)
Fixpoint strip_non_digits (s : string) : string :=
  match s with
  | EmptyString => EmptyString
  | String c s' =>
      if is_digit c then String c (strip_non_digits s')
      else strip_non_digits s'
  end.

Fixpoint drop_spaces (l : list ascii) : list ascii :=
  match l with
  | c :: l' => if is_space c then drop_spaces l' else l
  | [] => []
  end.

Definition strip_spaces (l : list ascii) : list ascii :=
  rev (drop_spaces (rev (drop_spaces l))).

(** Digits of an integer literal after the first one: a digit extends the
    number, one underscore is allowed between two digits. *)
Fixpoint int_digits (acc : Z) (l : list ascii) : option Z :=
  match l with
  | [] => Some acc
  | c :: l' =>
      if is_digit c then int_digits (10 * acc + digit_val c) l'
      else if Ascii.eqb c "_" then
        match l' with
        | d :: l'' =>
            if is_digit d then int_digits (10 * acc + digit_val d) l''
            else None
        | [] => None
        end
      else None
  end.

Definition int_unsigned (l : list ascii) : option Z :=
  match l with
  | c :: l' => if is_digit c then int_digits (digit_val c) l' else None
  | [] => None
  end.

(** [int(s)] in base 10; [None] stands for [ValueError]. *)
Definition py_int (s : string) : option Z :=
  match strip_spaces (list_ascii_of_string s) with
  | c :: l' =>
      if Ascii.eqb c "-" then option_map Z.opp (int_unsigned l')
      else if Ascii.eqb c "+" then int_unsigned l'
      else int_unsigned (c :: l')
  | [] => None
  end.

(** [s.startswith(".")] *)
Definition startswith_dot (s : string) : bool :=
  match s with
  | String c _ => Ascii.eqb c "."
  | EmptyString => false
  end.

(** [s.lstrip('.')] *)
Fixpoint lstrip_dots (s : string) : string :=
  match s with
  | String c s' => if Ascii.eqb c "." then lstrip_dots s' else s
  | EmptyString => EmptyString
  end.

(** Split at the last dot: [(p[:dotIndex], p[dotIndex:])]. *)
Fixpoint rsplit_dot (s : string) : option (string * string) :=
  match s with
  | EmptyString => None
  | String c s' =>
      match rsplit_dot s' with
      | Some (stem, ext) => Some (String c stem, ext)
      | None => if Ascii.eqb c "." then Some (EmptyString, s) else None
      end
  end.

Fixpoint all_dots (s : string) : bool :=
  match s with
  | EmptyString => true
  | String c s' => Ascii.eqb c "." && all_dots s'
  end.

(** [os.path.splitext(name)] for a name without a separator: the extension
    starts at the last dot, unless only dots precede it. *)
Definition splitext (name : string) : string * string :=
  match rsplit_dot name with
  | Some (stem, ext) =>
      if all_dots stem then (name, EmptyString) else (stem, ext)
  | None => (name, EmptyString)
  end.

(** [sorted(l, key=key)] with a comparison [leb] on keys: a stable
    insertion sort, which returns the same list as any stable sort. *)
Fixpoint insert_by {A K} (leb : K -> K -> bool) (key : A -> K)
    (a : A) (l : list A) : list A :=
  match l with
  | [] => [a]
  | b :: l' =>
      if leb (key a) (key b) then a :: l
      else b :: insert_by leb key a l'
  end.

Fixpoint sorted_by {A K} (leb : K -> K -> bool) (key : A -> K)
    (l : list A) : list A :=
  match l with
  | [] => []
  | a :: l' => insert_by leb key a (sorted_by leb key l')
  end.

(** [sorted(names)] on strings. *)
Definition sorted (l : list string) : list string :=
  sorted_by String.leb (fun s => s) l.

(** ** Coordinate transform *)

(** [flip_y(zoom, y)]; [2**zoom] is an integer for [zoom >= 0]. *)
Definition flip_y (zoom y : Z) : Z := (2 ^ zoom - 1) - y.

(** ** The container *)

(** A row of [tiles]; [rowid] is the key SQLite assigns on insertion. *)
Record tile : Type := mk_tile {
  rowid : Z;
  zoom_level : Z;
  tile_column : Z;
  tile_row : Z;
  tile_data : bytes
}.

(** A row of [images (tile_data, tile_id)]. *)
Record image : Type := mk_image {
  image_data : bytes;
  image_id : Z
}.

(** A row of [map (zoom_level, tile_column, tile_row, tile_id)]. *)
Record mapping : Type := mk_mapping {
  map_zoom_level : Z;
  map_tile_column : Z;
  map_tile_row : Z;
  map_tile_id : Z
}.

Inductive table : Type := Tiles | Metadata | Images | Map.

(** What the connection is asked to do, in program order. *)
Inductive event : Type :=
| Insert (t : table)
| Commit.

(** The tables of one container file, each in insertion order.  [grids] and
    [grid_data] are created empty by [mbtiles_setup] and no statement of the
    module inserts into them, so they carry no state.  [is_view] records
    that [compression_finalize] has replaced the table [tiles] by the view
    over [map] and [images]. *)
Record conn : Type := mk_conn {
  tiles : list tile;
  metadata : list (string * string);
  images : list image;
  map : list mapping;
  is_view : bool;
  journal : list event
}.

(** The container right after [mbtiles_setup] on a new file. *)
Definition mbtiles_setup : conn := mk_conn [] [] [] [] false [].

Definition log_event (e : event) (c : conn) : conn :=
  mk_conn (tiles c) (metadata c) (images c) (map c) (is_view c)
          (journal c ++ [e]).

(** The range of SQLite's INTEGER; binding a larger Python [int] fails. *)
Definition sqlite_int (v : Z) : bool :=
  (- 2 ^ 63 <=? v) && (v <? 2 ^ 63).

Definition same_coords (z x y : Z) (t : tile) : bool :=
  (zoom_level t =? z) && (tile_column t =? x) && (tile_row t =? y).

(** [INSERT INTO tiles (zoom_level, tile_column, tile_row, tile_data)]
    under the unique index [tile_index].  Rows are never deleted, so the
    next [rowid] is the number of rows plus one. *)
Definition insert_tiles (z x y : Z) (d : bytes) : M conn unit :=
  fun c =>
    if negb (sqlite_int z && sqlite_int x && sqlite_int y)
    then (Raise OverflowError, c)
    else if existsb (same_coords z x y) (tiles c)
    then (Raise IntegrityError, c)
    else
      (Ok tt,
       mk_conn (tiles c
                ++ [mk_tile (Z.of_nat (List.length (tiles c)) + 1) z x y d])
               (metadata c) (images c) (map c) (is_view c)
               (journal c ++ [Insert Tiles])).

(** [INSERT INTO metadata (name, value)] under the unique index [name]. *)
Definition insert_metadata (name value : string) : M conn unit :=
  fun c =>
    if existsb (fun nv => String.eqb (fst nv) name) (metadata c)
    then (Raise IntegrityError, c)
    else
      (Ok tt,
       mk_conn (tiles c) (metadata c ++ [(name, value)]) (images c) (map c)
               (is_view c) (journal c ++ [Insert Metadata])).

(** [insert into images (tile_id, tile_data)]; no index exists yet.  The
    identifier is the counter of the pass, bound as [str(last_id)] here and
    as an integer in the next statement; it counts rows of [tiles], and the
    coordinates of the next statement come out of [tiles], so the range
    check of [insert_tiles] is not repeated. *)
Definition insert_images (id : Z) (d : bytes) : M conn unit :=
  modify (fun c =>
            mk_conn (tiles c) (metadata c) (images c ++ [mk_image d id])
                    (map c) (is_view c) (journal c ++ [Insert Images])).

(** [insert into map (zoom_level, tile_column, tile_row, tile_id)] *)
Definition insert_map (z x y id : Z) : M conn unit :=
  modify (fun c =>
            mk_conn (tiles c) (metadata c) (images c)
                    (map c ++ [mk_mapping z x y id])
                    (is_view c) (journal c ++ [Insert Map])).

(** [con.commit()] *)
Definition commit : M conn unit := modify (log_event Commit).

(** [select ... from tiles where rowid > lo and rowid <= hi] *)
Definition select_rowid_range (lo hi : Z) (c : conn) : list tile :=
  filter (fun t => (lo <? rowid t) && (rowid t <=? hi)) (tiles c).

(** [map JOIN images on images.tile_id = map.tile_id], one output row
    [(zoom, column, row, data)] per matching pair.  SQL leaves the order of
    the rows to the engine; they are listed here in the order of [map], and
    what is proved of a [select] from the view is proved up to a
    permutation of the rows. *)
Definition join_map_images (c : conn) : list (Z * Z * Z * bytes) :=
  flat_map
    (fun m =>
       List.map
         (fun i => (map_zoom_level m, map_tile_column m, map_tile_row m,
                    image_data i))
         (filter (fun i => image_id i =? map_tile_id m) (images c)))
    (map c).

Definition tile_fields (t : tile) : Z * Z * Z * bytes :=
  (zoom_level t, tile_column t, tile_row t, tile_data t).

(** [select zoom_level, tile_column, tile_row, tile_data from tiles] *)
Definition select_tiles (c : conn) : list (Z * Z * Z * bytes) :=
  if is_view c then join_map_images c else List.map tile_fields (tiles c).

(** ** The deduplication pass *)

(** The local variables of [compression_do] next to the connection. *)
Record locals : Type := mk_locals {
  overlapping : Z;
  unique : Z;
  total : Z;
  last_id : Z;
  ids : list Z;
  files : list bytes;
  con : conn
}.

(** Run a statement of the connection on the connection of the frame. *)
Definition on_con {A} (m : M conn A) : M locals A :=
  fun l =>
    let (r, c) := m (con l) in
    (r, mk_locals (overlapping l) (unique l) (total l) (last_id l)
                  (ids l) (files l) c).

(** The body of [for r in rows] (lines 115 to 146). *)
Definition compression_row (r : tile) : M locals unit :=
  modify (fun l => mk_locals (overlapping l) (unique l) (total l + 1)
                             (last_id l) (ids l) (files l) (con l)) ;;;
  seen <- gets files ;;
  if py_in (tile_data r) seen then
    modify (fun l => mk_locals (overlapping l + 1) (unique l) (total l)
                               (last_id l) (ids l) (files l) (con l)) ;;;
    i <- lift_option ValueError (py_index (tile_data r) seen) ;;
    known <- gets ids ;;
    id <- lift_option IndexError (nth_error known i) ;;
    on_con (insert_map (zoom_level r) (tile_column r) (tile_row r) id)
  else
    modify (fun l => mk_locals (overlapping l) (unique l + 1) (total l)
                               (last_id l + 1) (ids l) (files l) (con l)) ;;;
    modify (fun l => mk_locals (overlapping l) (unique l) (total l)
                               (last_id l) (ids l ++ [last_id l])
                               (files l ++ [tile_data r]) (con l)) ;;;
    id <- gets last_id ;;
    on_con (insert_images id (tile_data r)) ;;;
    on_con (insert_map (zoom_level r) (tile_column r) (tile_row r) id).

(** The body of [for i in range(total_tiles // chunk + 1)]: [ids] and
    [files] start empty in every round. *)
Definition compression_round (chunk i : Z) : M locals unit :=
  modify (fun l => mk_locals (overlapping l) (unique l) (total l)
                             (last_id l) [] [] (con l)) ;;;
  rows <- gets (fun l => select_rowid_range (i * chunk) ((i + 1) * chunk)
                                            (con l)) ;;
  for_each rows compression_row ;;;
  on_con commit.

(** [compression_do(cur, con, chunk, silent)]: the frame at the end of the
    call is kept as the state, so the counters can be read off it. *)
Definition compression_do (chunk : Z) : M locals unit :=
  total_tiles <- gets (fun l => Z.of_nat (List.length (tiles (con l)))) ;;
  if chunk =? 0 then raise ZeroDivisionError
  else for_each (py_range (total_tiles / chunk + 1)) (compression_round chunk).

(** The frame on entry: all counters at zero. *)
Definition enter_compression (c : conn) : locals :=
  mk_locals 0 0 0 0 [] [] c.

(** No two elements of [l] have the same key. *)
Fixpoint distinct_keys {A K} (eqb : K -> K -> bool) (key : A -> K)
    (l : list A) : bool :=
  match l with
  | [] => true
  | a :: l' =>
      negb (existsb (fun b => eqb (key a) (key b)) l')
      && distinct_keys eqb key l'
  end.

Definition coords_eqb (a b : Z * Z * Z) : bool :=
  let '(z, x, y) := a in
  let '(z', x', y') := b in
  (z =? z') && (x =? x') && (y =? y').

(** [compression_finalize]: [tiles] becomes the view; the two unique
    indexes are refused when the rows already hold a duplicate. *)
Definition compression_finalize : M conn unit :=
  fun c =>
    let c' := mk_conn [] (metadata c) (images c) (map c) true (journal c) in
    if negb (distinct_keys coords_eqb
               (fun m => (map_zoom_level m, map_tile_column m, map_tile_row m))
               (map c))
    then (Raise IntegrityError, c')
    else if negb (distinct_keys Z.eqb image_id (images c))
    then (Raise IntegrityError, c')
    else (Ok tt, c').

(** ** Python dictionaries with string keys

    Items in insertion order; a key occurs once. *)

Definition dict : Type := list (string * string).

(** [d[k] = v]: an existing key keeps its position. *)
Fixpoint dict_set (k v : string) (d : dict) : dict :=
  match d with
  | [] => [(k, v)]
  | (k', v') :: d' =>
      if String.eqb k' k then (k', v) :: d'
      else (k', v') :: dict_set k v d'
  end.

(** [dict(pairs)], also what [json.load] builds from the members of a JSON
    object: a later pair overrides an earlier one with the same key. *)
Definition py_dict (pairs : list (string * string)) : dict :=
  fold_left (fun d kv => dict_set (fst kv) (snd kv) d) pairs [].

(** [d.get(k)] *)
Fixpoint dict_get (k : string) (d : dict) : option string :=
  match d with
  | [] => None
  | (k', v) :: d' => if String.eqb k' k then Some v else dict_get k d'
  end.

(** [d.get(k, default)] *)
Definition dict_get_default (k : string) (d : dict) (default : string)
  : string :=
  match dict_get k d with
  | Some v => v
  | None => default
  end.

(** ** The tile tree read by the importer *)

Inductive entry : Type :=
| File (name : string) (content : bytes)
| Directory (name : string) (children : list entry).

Definition entry_name (e : entry) : string :=
  match e with
  | File n _ => n
  | Directory n _ => n
  end.

(** The directory given to the importer: [metadata_json] holds the members
    of the JSON object in [metadata.json] when that file exists, [listing]
    is [os.listdir] of the root with the content of each entry. *)
Record tree : Type := mk_tree {
  metadata_json : option (list (string * string));
  listing : list entry
}.

(** [get_dirs(path)], each name with the listing of that directory. *)
Fixpoint get_dirs (l : list entry) : list (string * list entry) :=
  match l with
  | [] => []
  | Directory n ch :: l' => (n, ch) :: get_dirs l'
  | File _ _ :: l' => get_dirs l'
  end.

(** The keyword arguments the two entry points read; [None] is an absent
    key. *)
Record kwargs : Type := mk_kwargs {
  silent : bool;
  format : option string;
  scheme : option string;
  compression : bool
}.

(** [kwargs.get(key, default)] *)
Definition kwargs_get (o : option string) (default : string) : string :=
  match o with
  | Some v => v
  | None => default
  end.

(** ** The importer *)

(** The records handed to [logger.warning]. *)
Inductive warning : Type :=
| MetadataNotFound
| Skipping (current_file image_format : string).

(** The connection, the warnings handed to the logger so far, and the local
    counter [count] of [disk_to_mbtiles]. *)
Record session : Type := mk_session {
  db : conn;
  warnings : list warning;
  count : Z
}.

Definition on_db {A} (m : M conn A) : M session A :=
  fun s =>
    let (r, c) := m (db s) in
    (r, mk_session c (warnings s) (count s)).

(** [if not silent: logger.warning(w)] *)
Definition logger_warning (quiet : bool) (w : warning) : M session unit :=
  when (negb quiet)
       (modify (fun s => mk_session (db s) (warnings s ++ [w]) (count s))).

(** [open(tile_path, 'rb').read()] *)
Definition read_rb {S} (e : entry) : M S bytes :=
  match e with
  | File _ content => ret content
  | Directory _ _ => raise IsADirectoryError
  end.

(** The body of [for current_file in sorted(os.listdir(row_path))]
    (lines 226 to 257). *)
Definition import_file (quiet : bool) (image_format scheme : string)
    (z x : Z) (e : entry) : M session unit :=
  let current_file := entry_name e in
  if startswith_dot current_file then ret tt
  else
    let (file_name, ext) := splitext current_file in
    let ext := lstrip_dots ext in
    if negb (String.eqb ext image_format)
    then logger_warning quiet (Skipping current_file image_format)
    else
      y <- lift_option ValueError (py_int file_name) ;;
      tile_data <- read_rb e ;;
      let y := if String.eqb scheme "tms" then flip_y z y else y in
      on_db (insert_tiles z x y tile_data) ;;;
      modify (fun s => mk_session (db s) (warnings s) (count s + 1)).

(** The body of [for row_dir in sorted(get_dirs(zoom_path))]. *)
Definition import_column (quiet : bool) (image_format scheme : string)
    (z : Z) (row_dir : string * list entry) : M session unit :=
  x <- lift_option ValueError (py_int (strip_non_digits (fst row_dir))) ;;
  for_each (sorted_by String.leb entry_name (snd row_dir))
           (import_file quiet image_format scheme z x).

(** The body of [for zoom_dir in zoom_levels]. *)
Definition import_zoom (quiet : bool) (image_format scheme : string)
    (zoom_dir : string * list entry) : M session unit :=
  z <- lift_option ValueError (py_int (strip_non_digits (fst zoom_dir))) ;;
  for_each (sorted_by String.leb fst (get_dirs (snd zoom_dir)))
           (import_column quiet image_format scheme z).

(** The keys of [sorted(..., key=...)] are all computed before sorting. *)
Fixpoint sort_keys {S A} (key : A -> option Z) (l : list A)
  : M S (list (Z * A)) :=
  match l with
  | [] => ret []
  | a :: l' =>
      k <- lift_option ValueError (key a) ;;
      rest <- sort_keys key l' ;;
      ret ((k, a) :: rest)
  end.

(** [sorted(get_dirs(directory_path),
            key=lambda z: int(re.sub(r"[^\d]", "", z)))] *)
Definition zoom_levels (t : tree) : M session (list (string * list entry)) :=
  keyed <- sort_keys (fun d => py_int (strip_non_digits (fst d)))
                     (get_dirs (listing t)) ;;
  ret (List.map snd (sorted_by Z.leb fst keyed)).

(** The [try] block of lines 195 to 208: returns the effective image
    format.  Only [FileNotFoundError] is caught. *)
Definition load_metadata (quiet : bool) (t : tree) (image_format : string)
  : M session string :=
  match metadata_json t with
  | Some members =>
      let metadata := py_dict members in
      for_each metadata
               (fun nv => on_db (insert_metadata (fst nv) (snd nv))) ;;;
      ret (dict_get_default "format" metadata image_format)
  | None =>
      logger_warning quiet MetadataNotFound ;;;
      ret image_format
  end.

(** [compression_prepare]: [CREATE TABLE if not exists] for [images] and
    [map], which a new container holds as empty tables from the start. *)
Definition compression_prepare : M conn unit := ret tt.

(** Lines 263 to 266: the three compression steps on the connection. *)
Definition run_compression : M session unit :=
  on_db compression_prepare ;;;
  on_db (fun c =>
           let (r, l) := compression_do 256 (enter_compression c) in
           (r, con l)) ;;;
  on_db compression_finalize.

(** [optimize_database] runs ANALYZE and VACUUM, which leave every row as
    it is.  Setting [isolation_level] to [None] commits the open
    transaction; the journal records that commit once, as the event of
    line 270, which follows without another statement on a table. *)
Definition optimize_database : M session unit := ret tt.

(** Lines 210 to 271: the walk over the tree and what follows it, with the
    effective image format in hand. *)
Definition import_tiles (quiet : bool) (scheme : string) (compress : bool)
    (t : tree) (image_format : string) : M session unit :=
  levels <- zoom_levels t ;;
  for_each levels (import_zoom quiet image_format scheme) ;;;
  when compress run_compression ;;;
  optimize_database ;;;
  on_db commit.

(** [disk_to_mbtiles(directory_path, mbtiles_file, **kwargs)] *)
Definition disk_to_mbtiles_from (t : tree) (kw : kwargs) : M session unit :=
  let image_format := kwargs_get (format kw) "pbf" in
  let scheme := kwargs_get (scheme kw) "xyz" in
  image_format <- load_metadata (silent kw) t image_format ;;
  import_tiles (silent kw) scheme (compression kw) t image_format.

(** The call on a new container file: [mbtiles_setup] has just created the
    tables. *)
Definition disk_to_mbtiles (t : tree) (kw : kwargs) : result unit * session :=
  disk_to_mbtiles_from t kw (mk_session mbtiles_setup [] 0).

(** ** The tree written by the exporter *)

Inductive content : Type :=
| Blob (b : bytes)
| Json (d : dict).

(** A path below [directory_path], one component per [os.path.join]. *)
Definition path : Type := list string.

Definition path_eqb (p q : path) : bool :=
  if list_eq_dec string_dec p q then true else false.

(** What exists at and below [directory_path]: the directories, and the
    files with the most recent write first. *)
Record disk : Type := mk_disk {
  disk_dirs : list path;
  disk_files : list (path * content)
}.

(** [None]: nothing exists at [directory_path]. *)
Definition fs : Type := option disk.

(** [os.mkdir(directory_path)] *)
Definition os_mkdir : M fs unit :=
  fun s =>
    match s with
    | Some d => (Raise FileExistsError, Some d)
    | None => (Ok tt, Some (mk_disk [[]] []))
    end.

(** [os.path.isdir(p)] *)
Definition os_path_isdir (p : path) (s : fs) : bool :=
  match s with
  | Some d => existsb (path_eqb p) (disk_dirs d)
  | None => false
  end.

(** Every prefix of [p], the shortest first, [p] itself last. *)
Fixpoint prefixes (p : path) : list path :=
  match p with
  | [] => [[]]
  | a :: p' => [] :: List.map (cons a) (prefixes p')
  end.

(** [os.makedirs(p)]: the missing ancestors are created on the way. *)
Definition os_makedirs (p : path) : M fs unit :=
  modify (fun s =>
            let d := match s with
                     | Some d => d
                     | None => mk_disk [] []
                     end in
            Some (mk_disk
                    (disk_dirs d
                     ++ filter (fun q => negb (existsb (path_eqb q)
                                                       (disk_dirs d)))
                               (prefixes p))
                    (disk_files d))).

(** [open(p, 'w').write(c)] and [open(p, 'wb').write(c)].  The call fails
    when the directory of [p] is missing or when a component of [p] is
    not a plain name (a name with a slash in it is a path of its own).
    The exporter creates the directory before it writes; the theorems
    about an export that completes ask for a plain extension
    ([export_ready]). *)
Definition write_file (p : path) (c : content) : M fs unit :=
  modify (fun s =>
            let d := match s with
                     | Some d => d
                     | None => mk_disk [] []
                     end in
            Some (mk_disk (disk_dirs d) ((p, c) :: disk_files d))).

(** The content of the file at [p], if one was written. *)
Definition read_file (p : path) (s : fs) : option content :=
  match s with
  | Some d =>
      option_map snd (find (fun e => path_eqb (fst e) p) (disk_files d))
  | None => None
  end.

(** ** The exporter *)

(** ["%0<w>d" % v] for an integer [v]: zeros between the sign and the
    digits up to width [w]. *)
Definition pad0 (w : nat) (v : Z) : string :=
  let digits := py_str (Z.abs v) in
  let sign := if v <? 0 then "-" else "" in
  String.append sign
    (String.append
       (string_of_list_ascii
          (repeat "0"%char
                  (w - String.length sign - String.length digits)))
       digits).

(** [json.dumps({"formatter": formatter})] *)
Definition formatter_json (formatter : string) : content :=
  Json [("formatter", formatter)].

(** *** True division

    [a / b] on two integers is a float: the double nearest to the quotient,
    ties to even.  A finite double is written as the exact fraction
    [(n, d)], [d > 0], it stands for. *)

(** [a / d * 2^(-e)] as a fraction. *)
Definition scale2 (a d e : Z) : Z * Z :=
  if 0 <=? e then (a, d * 2 ^ e) else (a * 2 ^ (- e), d).

(** The double nearest to [n / d], for [d > 0] and a quotient in the range
    of the normal doubles: 53 bits, the last one rounded to even on a
    tie. *)
Definition round_double (n d : Z) : Z * Z :=
  if n =? 0 then (0, 1)
  else
    let a := Z.abs n in
    let k := Z.log2 a - Z.log2 d in
    let (p, q) := scale2 a d k in
    let e := (if p <? q then k - 1 else k) - 52 in
    let (p, q) := scale2 a d e in
    let m := p / q in
    let r := p mod q in
    let m := if (q <? 2 * r) || ((q =? 2 * r) && Z.odd m) then m + 1 else m in
    if 0 <=? e then (Z.sgn n * m * 2 ^ e, 1) else (Z.sgn n * m, 2 ^ (- e)).

(** [a / b] for integers, [b > 0]. *)
Definition py_truediv (a b : Z) : Z * Z := round_double a b.

(** [v % w] for a float [v] and a positive integer [w]: the remainder of
    [fmod], which is exact, moved to the sign of [w] by an addition,
    which rounds. *)
Definition float_mod (v : Z * Z) (w : Z) : Z * Z :=
  let (n, d) := v in
  let r := Z.rem n (w * d) in
  if r =? 0 then (0, 1)
  else if r <? 0 then round_double (r + w * d) d
  else (r, d).

(** [int(v)] of a float, which is what [%d] prints of it: the fraction
    is cut off. *)
Definition float_trunc (v : Z * Z) : Z := Z.quot (fst v) (snd v).

(** [kwargs.get('scheme') == name] *)
Definition scheme_is (kw : kwargs) (name : string) : bool :=
  match scheme kw with
  | Some s => String.eqb s name
  | None => false
  end.

(** The row after lines 323 and 324. *)
Definition export_row (kw : kwargs) (z y : Z) : Z :=
  if scheme_is kw "xyz" then flip_y z y else y.

(** [tile_dir] (lines 327 to 337).  The WMS branch divides with [/],
    which gives floats, and [%d] cuts their fraction off. *)
Definition export_dir (kw : kwargs) (z x y : Z) : path :=
  if scheme_is kw "xyz" then [py_str z; py_str x]
  else if scheme_is kw "wms" then
    [pad0 2 z;
     pad0 3 (float_trunc (py_truediv x 1000000));
     pad0 3 (float_trunc (float_mod (py_truediv x 1000) 1000));
     pad0 3 (x mod 1000);
     pad0 3 (float_trunc (py_truediv y 1000000));
     pad0 3 (float_trunc (float_mod (py_truediv y 1000) 1000))]
  else [py_str z; py_str x].

(** [tile] (lines 340 to 343). *)
Definition export_file (kw : kwargs) (image_format : string)
    (tile_dir : path) (y : Z) : path :=
  if scheme_is kw "wms" then
    tile_dir ++ [String.append (pad0 3 (y mod 1000))
                   (String.append "." (kwargs_get (format kw) "png"))]
  else
    tile_dir ++ [String.append (py_str y) (String.append "." image_format)].

(** The body of [while t] (lines 320 to 347) for one fetched row. *)
Definition export_tile (kw : kwargs) (image_format : string)
    (t : Z * Z * Z * bytes) : M fs unit :=
  let '(z, x, y, data) := t in
  let y := export_row kw z y in
  let tile_dir := export_dir kw z x y in
  isdir <- gets (os_path_isdir tile_dir) ;;
  when (negb isdir) (os_makedirs tile_dir) ;;;
  write_file (export_file kw image_format tile_dir y) (Blob data).

(** [select ... from tiles ORDER BY zoom_level ASC], fetched row by row.
    Within a zoom level the order is the engine's; here it is the order of
    [select_tiles].  It decides which payload stays when two rows are
    written to one path, and nothing else. *)
Definition tiles_by_zoom (c : conn) : list (Z * Z * Z * bytes) :=
  sorted_by Z.leb (fun t => fst (fst (fst t))) (select_tiles c).

(** The exporter holds the connection, on which it only runs [select], and
    writes below [directory_path]. *)
Record export : Type := mk_export {
  source : conn;
  target : fs
}.

Definition on_fs {A} (m : M fs A) : M export A :=
  fun s =>
    let (r, f) := m (target s) in
    (r, mk_export (source s) f).

(** [mbtiles_to_disk(mbtiles_file, directory_path, **kwargs)], on a
    container whose table [grids] is empty, as it is in every container
    this module writes: the grid loop of lines 352 to 393 then runs zero
    times, and the [callback] argument it would pass on plays no part. *)
Definition mbtiles_to_disk (kw : kwargs) : M export unit :=
  on_fs os_mkdir ;;;
  rows <- gets (fun s => metadata (source s)) ;;
  let metadata := py_dict rows in
  on_fs (write_file ["metadata.json"] (Json metadata)) ;;;
  let image_format := dict_get_default "format" metadata "pbf" in
  isdir <- gets (fun s => os_path_isdir [] (target s)) ;;
  when (negb isdir) (on_fs (os_makedirs [])) ;;;
  match dict_get "formatter" metadata with
  | Some formatter =>
      when (negb (String.eqb formatter ""))
           (on_fs (write_file ["layer.json"] (formatter_json formatter)))
  | None => ret tt
  end ;;;
  tiles <- gets (fun s => tiles_by_zoom (source s)) ;;
  for_each tiles (fun t => on_fs (export_tile kw image_format t)).

(** ** Reference functions and invariants for the proofs *)

(** The payloads of [ps] that are not in [seen], each once, in the order
    of their first occurrence, after [seen]. *)
Fixpoint distinct_from (seen ps : list bytes) : list bytes :=
  match ps with
  | [] => seen
  | d :: ps' =>
      if py_in d seen then distinct_from seen ps'
      else distinct_from (seen ++ [d]) ps'
  end.

(** The number of payloads of [ps] that are distinct by byte content. *)
Definition distinct_count (ps : list bytes) : nat :=
  List.length (nodup (list_eq_dec Byte.byte_eq_dec) ps).

(** The rows of a table carry the row identifiers [n], [n + 1], ... *)
Fixpoint rowids_from (n : Z) (ts : list tile) : Prop :=
  match ts with
  | [] => True
  | t :: ts' => rowid t = n /\ rowids_from (n + 1) ts'
  end.

(** The rounds of [compression_do]: what each [select] of the pass
    fetches. *)
Definition rounds (chunk : Z) (c : conn) : list (list tile) :=
  List.map (fun i => select_rowid_range (i * chunk) ((i + 1) * chunk) c)
           (py_range (Z.of_nat (List.length (tiles c)) / chunk + 1)).

(** The images row joined to a map row. *)
Definition lookup_image (id : Z) (c : conn) : list image :=
  filter (fun i => image_id i =? id) (images c).

(** A container as the importer leaves it before compression. *)
Definition raw_container (c : conn) : Prop :=
  rowids_from 1 (tiles c) /\ images c = [] /\ map c = [].

(** A map row stands for a tile: same coordinates, and its identifier
    selects exactly one images row, which holds the tile's payload. *)
Definition stands_for (c : conn) (m : mapping) (t : tile) : Prop :=
  map_zoom_level m = zoom_level t
  /\ map_tile_column m = tile_column t
  /\ map_tile_row m = tile_row t
  /\ lookup_image (map_tile_id m) c = [mk_image (tile_data t) (map_tile_id m)].

(** The loop invariant of [for r in rows]: [pre] are the tiles of the
    earlier rounds, [stored] the payloads in [images] when the round began,
    [cur] the rows of this round processed so far. *)
Definition dedup_inv (c0 : conn) (pre : list tile) (stored : list bytes)
    (cur : list tile) (l : locals) : Prop :=
  tiles (con l) = tiles c0
  /\ Forall2 (stands_for (con l)) (map (con l)) (pre ++ cur)
  /\ Forall2 (fun d id => lookup_image id (con l) = [mk_image d id])
             (files l) (ids l)
  /\ Forall (fun i => 1 <= image_id i <= last_id l) (images (con l))
  /\ List.map image_data (images (con l)) = stored ++ files l
  /\ files l = distinct_from [] (List.map tile_data cur)
  /\ total l = Z.of_nat (List.length (pre ++ cur))
  /\ unique l = Z.of_nat (List.length (images (con l)))
  /\ last_id l = unique l
  /\ overlapping l + unique l = total l
  /\ 0 <= overlapping l
  /\ NoDup (List.map image_id (images (con l))).

(** What holds between two rounds: [pre] are the tiles processed so far,
    [stored] the payloads of [images] in order. *)
Definition round_inv (c0 : conn) (pre : list tile) (stored : list bytes)
    (l : locals) : Prop :=
  tiles (con l) = tiles c0
  /\ Forall2 (stands_for (con l)) (map (con l)) pre
  /\ Forall (fun i => 1 <= image_id i <= last_id l) (images (con l))
  /\ List.map image_data (images (con l)) = stored
  /\ total l = Z.of_nat (List.length pre)
  /\ unique l = Z.of_nat (List.length (images (con l)))
  /\ last_id l = unique l
  /\ overlapping l + unique l = total l
  /\ 0 <= overlapping l
  /\ NoDup (List.map image_id (images (con l))).

(** The payloads a round stores: those of its rows, each once. *)
Definition round_payloads (rows : list tile) : list bytes :=
  distinct_from [] (List.map tile_data rows).

(** A list in ascending order of its keys. *)
Definition ascending {A K} (leb : K -> K -> bool) (key : A -> K)
    (l : list A) : Prop :=
  StronglySorted (fun a b => leb (key a) (key b) = true) l.

Definition is_tile_insert (e : event) : bool :=
  match e with
  | Insert Tiles => true
  | _ => false
  end.

Definition coords (t : tile) : Z * Z * Z :=
  (zoom_level t, tile_column t, tile_row t).

(** What the walk over the tree keeps true of the session: [metadata] is
    as loaded, the container is raw, [tiles] respects its unique index,
    nothing has been committed, and [count] is the number of tile rows
    inserted. *)
Definition walk_inv (loaded : dict) (s : session) : Prop :=
  metadata (db s) = loaded
  /\ raw_container (db s)
  /\ is_view (db s) = false
  /\ NoDup (List.map coords (tiles (db s)))
  /\ ~ In Commit (journal (db s))
  /\ List.length (filter is_tile_insert (journal (db s)))
     = List.length (tiles (db s))
  /\ count s = Z.of_nat (List.length (tiles (db s))).

(** The row under which the importer stores a file of row [y]. *)
Definition stored_row (scheme : string) (z y : Z) : Z :=
  if String.eqb scheme "tms" then flip_y z y else y.

(** A file name the walk takes for a tile of the given format. *)
Definition accepted (image_format name : string) : bool :=
  negb (startswith_dot name)
  && String.eqb (lstrip_dots (snd (splitext name))) image_format.

(** [int(re.sub(r"[^\d]", "", name))] of a directory name. *)
Definition dir_number (name : string) : option Z :=
  py_int (strip_non_digits name).

(** The row number read off a file name: [int] of its stem. *)
Definition file_row (name : string) : option Z :=
  py_int (fst (splitext name)).

(** The file [export_tile] writes for a row. *)
Definition tile_path (kw : kwargs) (image_format : string)
    (t : Z * Z * Z * bytes) : path :=
  let '(z, x, y, _) := t in
  export_file kw image_format
              (export_dir kw z x (export_row kw z y)) (export_row kw z y).

Definition tile_entry (kw : kwargs) (image_format : string)
    (t : Z * Z * Z * bytes) : path * content :=
  (tile_path kw image_format t, Blob (snd t)).

(** The format the exporter reads off the container. *)
Definition export_format (c : conn) : string :=
  dict_get_default "format" (py_dict (metadata c)) "pbf".

(** Events that insert no tile row. *)
Definition no_tile_inserts (ev : list event) : Prop :=
  Forall (fun e => is_tile_insert e = false) ev.

(** From [c0] to [c] the metadata stayed and the journal grew by events
    that insert no tile row. *)
Definition journal_extends (c0 c : conn) : Prop :=
  metadata c = metadata c0
  /\ exists ev, journal c = journal c0 ++ ev /\ no_tile_inserts ev.

(** The dictionary [json.load] returns for the tree's metadata document;
    empty when there is none. *)
Definition loaded_metadata (t : tree) : dict :=
  match metadata_json t with
  | Some members => py_dict members
  | None => []
  end.

(** The effective image format of an import. *)
Definition import_format (t : tree) (kw : kwargs) : string :=
  dict_get_default "format" (loaded_metadata t) (kwargs_get (format kw) "pbf").

(** The session when the walk begins. *)
Definition after_metadata (quiet : bool) (t : tree) : session :=
  mk_session
    (mk_conn [] (loaded_metadata t) [] [] false
             (repeat (Insert Metadata) (List.length (loaded_metadata t))))
    (match metadata_json t with
     | Some _ => []
     | None => if quiet then [] else [MetadataNotFound]
     end)
    0.

(** An entry whose name does not begin with a dot. *)
Definition not_dot (e : entry) : bool := negb (startswith_dot (entry_name e)).

(** Apply [f] to the listing of every directory of a listing. *)
Definition in_directories (f : list entry -> list entry) (l : list entry)
  : list entry :=
  List.map (fun e => match e with
                     | Directory n ch => Directory n (f ch)
                     | File _ _ => e
                     end) l.

(** The tree with the dot-named entries of every column directory
    removed. *)
Definition without_dot_files (t : tree) : tree :=
  mk_tree (metadata_json t)
          (in_directories (in_directories (filter not_dot)) (listing t)).

(** The row at which a tile of row [y] comes out when a tree is imported
    and the container exported with the same keyword arguments. *)
Definition round_trip_row (kw : kwargs) (z y : Z) : Z :=
  if scheme_is kw "xyz" || scheme_is kw "tms" then flip_y z y else y.

(** The file of a tile in the XYZ-style layout:
    [<zoom>/<column>/<row>.<format>]. *)
Definition xyz_file (image_format : string) (z x y : Z) : path :=
  [py_str z; py_str x;
   String.append (py_str y) (String.append "." image_format)].

(** ** Further reference functions *)

(** Lines 264 to 266 on a connection, for a chunk size:
    [compression_prepare], [compression_do], [compression_finalize]. *)
Definition compress (chunk : Z) : M conn unit :=
  compression_prepare ;;;
  (fun c =>
     let (r, l) := compression_do chunk (enter_compression c) in
     (r, con l)) ;;;
  compression_finalize.

(** The identifiers [1], [2], ..., [n]. *)
Definition ids_upto (n : Z) : list Z :=
  List.map (fun k => Z.of_nat k + 1) (seq 0 (Z.to_nat n)).

(** A container as the walk of an import leaves it: the table [tiles]
    with its row identifiers and its unique index, nothing in [images] and
    [map]. *)
Definition flat_container (c : conn) : Prop :=
  raw_container c /\ is_view c = false
  /\ NoDup (List.map coords (tiles c)).

(** The keyword arguments with [compression] set. *)
Definition with_compression (b : bool) (kw : kwargs) : kwargs :=
  mk_kwargs (silent kw) (format kw) (scheme kw) b.

(** The exporter as a program on the file system alone, given the two
    things it reads from the connection: the rows of [metadata] and the
    rows of [tiles] in the order fetched. *)
Definition export_program (kw : kwargs) (rows : list (string * string))
    (fetched : list (Z * Z * Z * bytes)) : M fs unit :=
  os_mkdir ;;;
  let metadata := py_dict rows in
  write_file ["metadata.json"] (Json metadata) ;;;
  let image_format := dict_get_default "format" metadata "pbf" in
  isdir <- gets (os_path_isdir []) ;;
  when (negb isdir) (os_makedirs []) ;;;
  match dict_get "formatter" metadata with
  | Some formatter =>
      when (negb (String.eqb formatter ""))
           (write_file ["layer.json"] (formatter_json formatter))
  | None => ret tt
  end ;;;
  for_each fetched (export_tile kw image_format).

(** The files the exporter writes before the tiles, the last written
    first. *)
Definition document_files (md : dict) : list (path * content) :=
  match dict_get "formatter" md with
  | Some formatter =>
      if String.eqb formatter "" then [(["metadata.json"], Json md)]
      else [(["layer.json"], formatter_json formatter);
            (["metadata.json"], Json md)]
  | None => [(["metadata.json"], Json md)]
  end.

(** [mbtiles_metadata_to_disk]: the dictionary it builds from the rows of
    [metadata] (line 282), which is all it does apart from logging it. *)
Definition mbtiles_metadata_to_disk (c : conn) : dict :=
  py_dict (metadata c).

(** The directories of a tree are closed under parents. *)
Definition dirs_closed (dirs : list path) : Prop :=
  forall q r, In q dirs -> In r (prefixes q) -> In r dirs.

(** The walk of lines 214 to 257 by itself. *)
Definition walk (quiet : bool) (scheme : string) (t : tree)
    (image_format : string) : M session unit :=
  levels <- zoom_levels t ;;
  for_each levels (import_zoom quiet image_format scheme).

(** What follows the walk (lines 259 to 271). *)
Definition after_walk (compress : bool) : M session unit :=
  when compress run_compression ;;;
  optimize_database ;;;
  on_db commit.

(** The entries of a column directory in the order of their names, each
    with the zoom and the column under which the walk visits it. *)
Definition column_entries (z : Z) (row_dir : string * list entry)
  : list (Z * Z * entry) :=
  match dir_number (fst row_dir) with
  | Some x =>
      List.map (fun e => (z, x, e))
               (sorted_by String.leb entry_name (snd row_dir))
  | None => []
  end.

(** The same for a zoom directory, column by column in the order of the
    column names. *)
Definition zoom_entries (zoom_dir : string * list entry)
  : list (Z * Z * entry) :=
  match dir_number (fst zoom_dir) with
  | Some z =>
      flat_map (column_entries z)
               (sorted_by String.leb fst (get_dirs (snd zoom_dir)))
  | None => []
  end.

Definition zoom_key (d : string * list entry) : Z :=
  match dir_number (fst d) with
  | Some z => z
  | None => 0
  end.

(** Everything the walk visits, zoom levels in ascending order. *)
Definition visited (t : tree) : list (Z * Z * entry) :=
  flat_map zoom_entries (sorted_by Z.leb zoom_key (get_dirs (listing t))).

(** The row a visited entry contributes to [tiles]: one for a file the
    walk accepts, none otherwise. *)
Definition file_rows (image_format scheme : string) (v : Z * Z * entry)
  : list (Z * Z * Z * bytes) :=
  let '(z, x, e) := v in
  if accepted image_format (entry_name e) then
    match e, file_row (entry_name e) with
    | File _ d, Some y => [(z, x, stored_row scheme z y, d)]
    | _, _ => []
    end
  else [].

Definition tree_rows (image_format scheme : string) (t : tree)
  : list (Z * Z * Z * bytes) :=
  flat_map (file_rows image_format scheme) (visited t).



(** [s] has a decimal digit. *)
Definition has_digit (s : string) : bool :=
  existsb is_digit (list_ascii_of_string s).

Definition is_directory (e : entry) : bool :=
  match e with
  | Directory _ _ => true
  | File _ _ => false
  end.

(** The tree without the files that lie beside the zoom directories and
    beside the column directories. *)
Definition without_stray_files (t : tree) : tree :=
  mk_tree (metadata_json t)
          (in_directories (filter is_directory)
                          (filter is_directory (listing t))).

Definition with_silent (b : bool) (kw : kwargs) : kwargs :=
  mk_kwargs b (format kw) (scheme kw) (compression kw).

(** Two sessions that differ in their warnings only, the first having
    none. *)
Definition silenced (s1 s2 : session) : Prop :=
  db s1 = db s2 /\ count s1 = count s2 /\ warnings s1 = [].

(** The rows of the table [tiles] of a session. *)
Definition stored_rows (s : session) : list (Z * Z * Z * bytes) :=
  List.map tile_fields (tiles (db s)).

Definition with_scheme (o : option string) (kw : kwargs) : kwargs :=
  mk_kwargs (silent kw) (format kw) o (compression kw).

(** ** The inputs of the theorems on names and on exports *)

(** Every character of [s] is an ASCII character. *)
Definition is_ascii (s : string) : bool :=
  forallb (fun c => (nat_of_ascii c <? 128)%nat) (list_ascii_of_string s).

(** The names the importer reads as numbers are ASCII names: those of the
    directories at the top of the tree, of the directories inside them,
    and of the entries of these. *)
Definition ascii_names (t : tree) : bool :=
  forallb
    (fun zoom_dir =>
       is_ascii (fst zoom_dir)
       && forallb
            (fun row_dir =>
               is_ascii (fst row_dir)
               && forallb (fun e => is_ascii (entry_name e)) (snd row_dir))
            (get_dirs (snd zoom_dir)))
    (get_dirs (listing t)).

(** An extension that can end a file name: at most a hundred printable
    ASCII characters, none of them a slash. *)
Definition plain_extension (s : string) : bool :=
  (String.length s <=? 100)%nat
  && forallb (fun c => let n := nat_of_ascii c in
                       ((32 <=? n) && (n <? 127) && negb (n =? 47))%nat)
             (list_ascii_of_string s).

(** An integer of at most a hundred digits. *)
Definition small (n : Z) : bool := Z.abs n <? 10 ^ 100.

(** The extension of the tile files of an export (lines 340 to 343). *)
Definition export_extension (kw : kwargs) (c : conn) : string :=
  if scheme_is kw "wms" then kwargs_get (format kw) "png"
  else export_format c.

(** The export of [c] under [kw] stays where [py_str], [flip_y] and
    [write_file] describe the program: the extension is a plain one, no
    zoom level is negative where rows are flipped, and the row numbers
    written have at most a hundred digits. *)
Definition export_ready (kw : kwargs) (c : conn) : bool :=
  plain_extension (export_extension kw c)
  && forallb (fun t => let '(z, x, y, _) := t in
                       (negb (scheme_is kw "xyz") || (0 <=? z))
                       && small (export_row kw z y))
             (select_tiles c).

(** The file of a tile in the WMS layout (lines 328 to 341). *)
Definition wms_file (extension : string) (z x y : Z) : path :=
  [pad0 2 z;
   pad0 3 (float_trunc (py_truediv x 1000000));
   pad0 3 (float_trunc (float_mod (py_truediv x 1000) 1000));
   pad0 3 (x mod 1000);
   pad0 3 (float_trunc (py_truediv y 1000000));
   pad0 3 (float_trunc (float_mod (py_truediv y 1000) 1000));
   String.append (pad0 3 (y mod 1000)) (String.append "." extension)].

(** ** Concrete inputs *)

Definition payload_A : bytes := [Byte.x41].

Definition payload_B : bytes := [Byte.x42].

Definition kwargs_of (scheme : option string) : kwargs :=
  mk_kwargs false None scheme false.

(** [z1/0/0.pbf] *)
Definition tree_z1 : tree :=
  mk_tree None [Directory "z1" [Directory "0" [File "0.pbf" payload_A]]].

(** [0/0/-5.pbf] and [0/0/999995.pbf] *)
Definition tree_minus5 : tree :=
  mk_tree None [Directory "0" [Directory "0" [File "-5.pbf" payload_A;
                                               File "999995.pbf" payload_B]]].

(** [0/0/r5.pbf] *)
Definition tree_r5 : tree :=
  mk_tree None [Directory "0" [Directory "0" [File "r5.pbf" payload_A]]].

(** [0/0/5.pbf] *)
Definition tree_5 : tree :=
  mk_tree None [Directory "0" [Directory "0" [File "5.pbf" payload_A]]].

(** [9/0/0.pbf] to [9/0/256.pbf] *)
Definition tree_257 : tree :=
  mk_tree None
    [Directory "9"
       [Directory "0"
          (List.map (fun k => File (String.append (py_str (Z.of_nat k)) ".pbf")
                                   payload_A)
                    (seq 0 257))]].

(** A tree with a metadata document and a stray dot file. *)
Definition tree_png : tree :=
  mk_tree (Some [("name", "demo"); ("format", "png")])
          [Directory "3" [Directory "1" [File "2.png" payload_A;
                                         File ".DS_Store" payload_A;
                                         File "2.pbf" payload_A]]].

(** One tile stored at (zoom 2, column 1, row 1). *)
Definition container_211 : conn :=
  mk_conn [mk_tile 1 2 1 1 payload_A] [] [] [] false [].

(** Three tiles with pairwise distinct payloads. *)
Definition container_abc : conn :=
  mk_conn [mk_tile 1 0 0 0 [Byte.x41];
           mk_tile 2 1 0 0 [Byte.x42];
           mk_tile 3 1 0 1 [Byte.x43]] [] [] [] false [].

(** [n] tiles with one and the same payload at zoom [9], column [0]. *)
Definition same_payload_tiles (n : nat) (d : bytes) : list tile :=
  List.map (fun k => mk_tile (Z.of_nat k + 1) 9 0 (Z.of_nat k) d) (seq 0 n).

Definition container_257 : conn :=
  mk_conn (same_payload_tiles 257 [Byte.x41]) [] [] [] false [].


(** * Lemmas *)


(** ** Flip *)

Lemma flip_y_involutive (zoom y : Z) : flip_y zoom (flip_y zoom y) = y.
Proof. unfold flip_y. lia. Qed.

Lemma flip_y_range (zoom y : Z) :
  0 <= y < 2 ^ zoom -> 0 <= flip_y zoom y < 2 ^ zoom.
Proof. unfold flip_y. lia. Qed.

Lemma flip_y_injective (zoom y y' : Z) :
  flip_y zoom y = flip_y zoom y' -> y = y'.
Proof. unfold flip_y. lia. Qed.

(** ** The monad and its loops *)

Lemma bind_ok {S A B} (m : M S A) (k : A -> M S B) (s s' : S) (a : A) :
  m s = (Ok a, s') -> bind m k s = k a s'.
Proof. unfold bind. intros ->. reflexivity. Qed.

Lemma bind_raise {S A B} (m : M S A) (k : A -> M S B) (s s' : S) (e : exn) :
  m s = (Raise e, s') -> bind m k s = (Raise e, s').
Proof. unfold bind. intros ->. reflexivity. Qed.

Lemma for_each_app {S A} (l1 l2 : list A) (body : A -> M S unit) (s : S) :
  for_each (l1 ++ l2) body s
  = (for_each l1 body ;;; for_each l2 body) s.
Proof.
  revert s. induction l1 as [|a l1 IH]; intros s; simpl.
  - reflexivity.
  - unfold bind in *. destruct (body a s) as [[u|e] s1]; [|reflexivity].
    apply IH.
Qed.

(** A loop invariant indexed by the elements already processed. *)
Lemma for_each_invariant {S A} (Inv : list A -> S -> Prop)
    (body : A -> M S unit) (l : list A) :
  (forall done a s, In a l -> Inv done s ->
     exists s', body a s = (Ok tt, s') /\ Inv (done ++ [a]) s') ->
  forall done s, Inv done s ->
    exists s', for_each l body s = (Ok tt, s') /\ Inv (done ++ l) s'.
Proof.
  induction l as [|a l IH]; intros Hstep done s Hinv; simpl.
  - exists s. rewrite app_nil_r. split; [reflexivity | assumption].
  - destruct (Hstep done a s (or_introl eq_refl) Hinv) as [s1 [E1 I1]].
    destruct (IH (fun d b t Hb => Hstep d b t (or_intror Hb)) _ _ I1)
      as [s2 [E2 I2]].
    exists s2. rewrite (bind_ok _ _ _ _ _ E1).
    rewrite <- app_assoc in I2. split; assumption.
Qed.

(** A property of the state that every iteration keeps, whatever the
    outcome of the loop. *)
Lemma for_each_preserves {S A} (P : S -> Prop) (body : A -> M S unit)
    (l : list A) :
  (forall a s, In a l -> P s -> P (snd (body a s))) ->
  forall s, P s -> P (snd (for_each l body s)).
Proof.
  induction l as [|a l IH]; intros Hstep s Hs; simpl.
  - assumption.
  - unfold bind. specialize (Hstep a s (or_introl eq_refl) Hs) as H1.
    destruct (body a s) as [[u|e] s1]; simpl in *.
    + apply IH; [|assumption]. intros b t Hb. apply Hstep. now right.
    + assumption.
Qed.


(** ** Payload comparison *)

Lemma bytes_eqb_eq (a b : bytes) : bytes_eqb a b = true <-> a = b.
Proof.
  unfold bytes_eqb. destruct (list_eq_dec Byte.byte_eq_dec a b); split;
    intros; try assumption; try reflexivity; try discriminate.
  contradiction.
Qed.

Lemma bytes_eqb_refl (a : bytes) : bytes_eqb a a = true.
Proof. now apply bytes_eqb_eq. Qed.

Lemma py_in_In (d : bytes) (seen : list bytes) :
  py_in d seen = true <-> In d seen.
Proof.
  unfold py_in. rewrite existsb_exists. split.
  - intros [x [Hx E]]. apply bytes_eqb_eq in E. now subst.
  - intros H. exists d. split; [assumption | apply bytes_eqb_refl].
Qed.

Lemma py_in_app (d : bytes) (l1 l2 : list bytes) :
  py_in d (l1 ++ l2) = py_in d l1 || py_in d l2.
Proof. unfold py_in. apply existsb_app. Qed.

Lemma py_index_found (d : bytes) (seen : list bytes) :
  py_in d seen = true ->
  exists k, py_index d seen = Some k /\ nth_error seen k = Some d.
Proof.
  induction seen as [|f seen IH]; simpl; [discriminate|].
  intros H. destruct (bytes_eqb f d) eqn:E.
  - apply bytes_eqb_eq in E. subst. exists 0%nat. now split.
  - destruct (bytes_eqb d f) eqn:E'.
    + apply bytes_eqb_eq in E'. subst. rewrite bytes_eqb_refl in E.
      discriminate.
    + simpl in H. destruct (IH H) as [k [Hk Hn]]. exists (S k).
      rewrite Hk. now split.
Qed.

(** ** The reference list of distinct payloads *)

Lemma distinct_from_snoc (seen ps : list bytes) (d : bytes) :
  distinct_from seen (ps ++ [d])
  = if py_in d (distinct_from seen ps) then distinct_from seen ps
    else distinct_from seen ps ++ [d].
Proof.
  revert seen. induction ps as [|p ps IH]; intros seen; simpl.
  - destruct (py_in d seen); reflexivity.
  - destruct (py_in p seen); apply IH.
Qed.

Lemma distinct_from_NoDup (seen ps : list bytes) :
  NoDup seen -> NoDup (distinct_from seen ps).
Proof.
  revert seen. induction ps as [|p ps IH]; intros seen H; simpl.
  - assumption.
  - destruct (py_in p seen) eqn:E; apply IH; [assumption|].
    apply NoDup_app; [assumption | constructor; [intros []|constructor] |].
    intros x Hx [<-|[]]. apply py_in_In in Hx. congruence.
Qed.

Lemma distinct_from_In (seen ps : list bytes) (d : bytes) :
  In d (distinct_from seen ps) <-> In d seen \/ In d ps.
Proof.
  revert seen. induction ps as [|p ps IH]; intros seen; simpl.
  - tauto.
  - destruct (py_in p seen) eqn:E; rewrite IH.
    + apply py_in_In in E. split; [tauto|].
      intros [H|[<-|H]]; tauto.
    + rewrite in_app_iff. simpl. tauto.
Qed.

Lemma distinct_from_count (ps : list bytes) :
  List.length (distinct_from [] ps) = distinct_count ps.
Proof.
  unfold distinct_count. apply Permutation_length, NoDup_Permutation.
  - apply distinct_from_NoDup. constructor.
  - apply NoDup_nodup.
  - intros d. rewrite distinct_from_In, nodup_In. simpl. tauto.
Qed.

Lemma distinct_from_NoDup_id (ps : list bytes) :
  NoDup ps -> forall seen, (forall d, In d seen -> ~ In d ps) ->
  distinct_from seen ps = seen ++ ps.
Proof.
  induction 1 as [|p ps Hp Hnd IH]; intros seen Hs; simpl.
  - now rewrite app_nil_r.
  - destruct (py_in p seen) eqn:E.
    + apply py_in_In in E. exfalso. apply (Hs p E). now left.
    + rewrite IH.
      * now rewrite <- app_assoc.
      * intros d Hd Hin. apply in_app_iff in Hd. destruct Hd as [Hd|[<-|[]]].
        -- apply (Hs d Hd). now right.
        -- contradiction.
Qed.


(** ** The deduplication pass *)

Lemma Forall2_nth_error {A B} (R : A -> B -> Prop) (l1 : list A)
    (l2 : list B) (k : nat) (a : A) :
  Forall2 R l1 l2 -> nth_error l1 k = Some a ->
  exists b, nth_error l2 k = Some b /\ R a b.
Proof.
  intros H. revert k. induction H as [|x y l1 l2 Hxy H IH]; intros k Hk.
  - destruct k; discriminate.
  - destruct k as [|k]; simpl in *.
    + injection Hk as <-. now exists y.
    + now apply IH.
Qed.

Lemma Forall2_snoc {A B} (R : A -> B -> Prop) (l1 : list A) (l2 : list B)
    (a : A) (b : B) :
  Forall2 R l1 l2 -> R a b -> Forall2 R (l1 ++ [a]) (l2 ++ [b]).
Proof. intros H Hab. apply Forall2_app; [assumption | now constructor]. Qed.

Lemma filter_none {A} (f : A -> bool) (l : list A) :
  (forall a, In a l -> f a = false) -> filter f l = [].
Proof.
  induction l as [|a l IH]; intros H; simpl; [reflexivity|].
  rewrite (H a (or_introl eq_refl)). apply IH. intros b Hb. apply H.
  now right.
Qed.

Lemma filter_all {A} (f : A -> bool) (l : list A) :
  (forall a, In a l -> f a = true) -> filter f l = l.
Proof.
  induction l as [|a l IH]; intros H; simpl; [reflexivity|].
  rewrite (H a (or_introl eq_refl)). f_equal. apply IH. intros b Hb.
  apply H. now right.
Qed.

(** Appending an images row with a new identifier leaves the rows selected
    by the identifiers in use as they are. *)
Lemma lookup_image_fresh (c c' : conn) (d : bytes) (id new : Z) :
  images c' = images c ++ [mk_image d new] ->
  id <> new ->
  lookup_image id c' = lookup_image id c.
Proof.
  intros E Hne. unfold lookup_image. rewrite E, filter_app. simpl.
  destruct (Z.eqb_spec new id); [congruence|]. apply app_nil_r.
Qed.

Lemma lookup_image_new (c c' : conn) (d : bytes) (new : Z) :
  images c' = images c ++ [mk_image d new] ->
  Forall (fun i => image_id i <> new) (images c) ->
  lookup_image new c' = [mk_image d new].
Proof.
  intros E Hall. unfold lookup_image. rewrite E, filter_app. simpl.
  rewrite Z.eqb_refl.
  rewrite (filter_none _ (images c)); [reflexivity|].
  intros i Hi. rewrite Forall_forall in Hall. apply Z.eqb_neq. now apply Hall.
Qed.

Lemma lookup_image_bound (c : conn) (id hi : Z) (i : image) :
  Forall (fun i => 1 <= image_id i <= hi) (images c) ->
  lookup_image id c = [i] -> 1 <= id <= hi.
Proof.
  intros Hall E.
  assert (Hin : In i (lookup_image id c)) by (rewrite E; now left).
  apply filter_In in Hin. destruct Hin as [Hin Hid].
  apply Z.eqb_eq in Hid. rewrite Forall_forall in Hall.
  specialize (Hall i Hin). lia.
Qed.

Lemma compression_row_step (c0 : conn) (pre : list tile)
    (stored : list bytes) (cur : list tile) (r : tile) (l : locals) :
  dedup_inv c0 pre stored cur l ->
  exists l', compression_row r l = (Ok tt, l')
             /\ dedup_inv c0 pre stored (cur ++ [r]) l'.
Proof.
  intros (Ht & Hmap & Hfiles & Hids & Hdata & Hdist & Htot & Huni & Hlast & Hsum
          & Hov & Hnd).
  unfold compression_row, bind, modify, gets. cbn [files].
  destruct (py_in (tile_data r) (files l)) eqn:Hin.
  - (* the payload was seen in this round *)
    destruct (py_index_found _ _ Hin) as [k [Hk Hnth]].
    destruct (Forall2_nth_error _ _ _ _ _ Hfiles Hnth) as [id [Hid Hlook]].
    cbn. rewrite Hk. cbn. rewrite Hid. cbn.
    eexists. split; [reflexivity|].
    unfold dedup_inv; cbn. repeat split; try assumption.
    + rewrite app_assoc. apply Forall2_snoc; [exact Hmap|].
      unfold stands_for; cbn. auto.
    + rewrite Hdist, map_app. cbn [List.map].
      rewrite distinct_from_snoc, <- Hdist, Hin. reflexivity.
    + rewrite app_assoc, length_app, Htot. cbn. lia.
    + lia.
    + lia.
  - (* a payload not seen in this round *)
    cbn.
    set (c' := mk_conn _ _ _ (map (con l) ++ _) _ _).
    assert (Eimg : forall c1, images c1 = images (con l) -> 
              images c' = images c1 ++ [mk_image (tile_data r) (last_id l + 1)])
      by (intros c1 ->; reflexivity).
    assert (Hfresh : Forall (fun i => image_id i <> last_id l + 1)
                            (images (con l))).
    { eapply Forall_impl; [|exact Hids]. cbn. intros i Hi. lia. }
    eexists. split; [reflexivity|].
    unfold dedup_inv; cbn -[c']. repeat split.
    + exact Ht.
    + rewrite app_assoc. apply Forall2_snoc.
      * eapply Forall2_impl; [|exact Hmap]. intros m t (Hz & Hx & Hy & Hl).
        unfold stands_for. repeat split; try assumption.
        rewrite (lookup_image_fresh (con l) c' _ _ _ (Eimg _ eq_refl));
          [assumption|].
        pose proof (lookup_image_bound _ _ _ _ Hids Hl). lia.
      * unfold stands_for; cbn. repeat split.
        exact (lookup_image_new (con l) c' _ _ eq_refl Hfresh).
    + apply Forall2_snoc.
      * eapply Forall2_impl; [|exact Hfiles]. intros d id Hl.
        rewrite (lookup_image_fresh (con l) c' _ _ _ (Eimg _ eq_refl));
          [assumption|].
        pose proof (lookup_image_bound _ _ _ _ Hids Hl). lia.
      * exact (lookup_image_new (con l) c' _ _ eq_refl Hfresh).
    + subst c'. cbn. apply Forall_app. split.
      * eapply Forall_impl; [|exact Hids]. cbn. intros i Hi. lia.
      * constructor; [cbn; lia | constructor].
    + subst c'. cbn. rewrite map_app, Hdata, <- app_assoc. reflexivity.
    + rewrite Hdist, map_app. cbn [List.map].
      rewrite distinct_from_snoc, <- Hdist, Hin. reflexivity.
    + rewrite app_assoc, length_app, Htot. cbn. lia.
    + subst c'. cbn. rewrite length_app. cbn. lia.
    + lia.
    + lia.
    + lia.
    + subst c'. cbn. rewrite map_app. cbn.
      apply NoDup_app; [assumption | constructor; [intros []|constructor] |].
      intros id Hid [<-|[]]. apply in_map_iff in Hid.
      destruct Hid as [i [Ei Hi]]. rewrite Forall_forall in Hfresh.
      now apply (Hfresh i Hi).
Qed.


Lemma compression_round_step (c0 : conn) (chunk i : Z) (pre : list tile)
    (stored : list bytes) (l : locals) :
  round_inv c0 pre stored l ->
  let rows := select_rowid_range (i * chunk) ((i + 1) * chunk) c0 in
  exists l', compression_round chunk i l = (Ok tt, l')
             /\ round_inv c0 (pre ++ rows) (stored ++ round_payloads rows) l'.
Proof.
  intros (Ht & Hmap & Hids & Hdata & Htot & Huni & Hlast & Hsum & Hov & Hnd)
         rows.
  unfold compression_round.
  set (l0 := mk_locals (overlapping l) (unique l) (total l) (last_id l)
                       [] [] (con l)).
  assert (H0 : dedup_inv c0 pre stored [] l0).
  { unfold dedup_inv, l0; cbn. rewrite !app_nil_r.
    repeat split; try assumption. constructor. }
  destruct (for_each_invariant (dedup_inv c0 pre stored) compression_row rows
              (fun done r s _ H => compression_row_step c0 pre stored done r s H)
              [] l0 H0) as [l1 [E1 I1]].
  cbn [app] in I1.
  assert (Erows : select_rowid_range (i * chunk) ((i + 1) * chunk) (con l0)
                  = rows).
  { unfold rows, select_rowid_range, l0; cbn. now rewrite Ht. }
  unfold bind at 1, modify at 1. fold l0.
  unfold bind at 1, gets at 1. rewrite Erows.
  unfold bind at 1. rewrite E1.
  destruct I1 as (Ht1 & Hmap1 & _ & Hids1 & Hdata1 & Hdist1 & Htot1 & Huni1
                  & Hlast1 & Hsum1 & Hov1 & Hnd1).
  eexists. split; [reflexivity|].
  unfold round_inv, round_payloads; cbn. rewrite <- Hdist1.
  repeat split; assumption.
Qed.

Lemma rowids_from_bounds (ts : list tile) :
  forall k t, rowids_from k ts -> In t ts ->
              k <= rowid t < k + Z.of_nat (List.length ts).
Proof.
  induction ts as [|t0 ts IH]; intros k t H Hin; [destruct Hin|].
  destruct H as [H0 H]. cbn [List.length]. destruct Hin as [<-|Hin].
  - lia.
  - specialize (IH _ _ H Hin). lia.
Qed.

(** On a table in row-identifier order the rows up to [b] are those up to
    [a] followed by those between [a] and [b]. *)
Lemma select_split (a b : Z) (ts : list tile) :
  forall k, rowids_from k ts -> a <= b ->
  filter (fun t => rowid t <=? b) ts
  = filter (fun t => rowid t <=? a) ts
    ++ filter (fun t => (a <? rowid t) && (rowid t <=? b)) ts.
Proof.
  induction ts as [|t ts IH]; intros k H Hab; [reflexivity|].
  destruct H as [Hk H]. cbn [filter].
  pose proof (fun u => rowids_from_bounds ts (k + 1) u H) as Hb.
  destruct (Z.leb_spec (rowid t) a) as [Ha|Ha].
  - destruct (Z.leb_spec (rowid t) b); [|lia].
    destruct (Z.ltb_spec a (rowid t)); [lia|]. cbn.
    f_equal. now apply (IH (k + 1)).
  - rewrite (filter_none (fun t => rowid t <=? a) ts).
    2:{ intros u Hu. specialize (Hb u Hu). apply Z.leb_gt. lia. }
    destruct (Z.ltb_spec a (rowid t)); [|lia]. cbn.
    destruct (Z.leb_spec (rowid t) b) as [Hle|Hgt].
    + f_equal. apply filter_ext_in. intros u Hu. specialize (Hb u Hu).
      destruct (Z.ltb_spec a (rowid u)); [reflexivity | lia].
    + rewrite !filter_none; [reflexivity | |]; intros u Hu;
        specialize (Hb u Hu).
      * destruct (Z.leb_spec (rowid u) b); [lia|]. apply andb_false_r.
      * apply Z.leb_gt. lia.
Qed.

Lemma rounds_prefix (chunk : Z) (c : conn) (n : nat) :
  0 < chunk -> rowids_from 1 (tiles c) ->
  List.concat (List.map
            (fun i => select_rowid_range (i * chunk) ((i + 1) * chunk) c)
            (List.map Z.of_nat (seq 0 n)))
  = filter (fun t => rowid t <=? Z.of_nat n * chunk) (tiles c).
Proof.
  intros Hc Hr. induction n as [|n IH].
  - cbn. symmetry. apply filter_none. intros t Ht.
    pose proof (rowids_from_bounds _ _ _ Hr Ht). apply Z.leb_gt. lia.
  - rewrite seq_S, !map_app, concat_app, IH. cbn [List.map List.concat].
    rewrite app_nil_r. unfold select_rowid_range.
    rewrite (select_split (Z.of_nat n * chunk) (Z.of_nat (S n) * chunk)
               (tiles c) 1 Hr) by nia.
    f_equal. apply filter_ext. intros t. cbn [plus].
    replace ((Z.of_nat n + 1) * chunk) with (Z.of_nat (S n) * chunk) by lia.
    reflexivity.
Qed.

(** The rounds fetch every row of the table once, in table order. *)
Lemma rounds_cover (chunk : Z) (c : conn) :
  0 < chunk -> rowids_from 1 (tiles c) ->
  List.concat (rounds chunk c) = tiles c.
Proof.
  intros Hc Hr. unfold rounds, py_range.
  rewrite (rounds_prefix chunk c _ Hc Hr).
  apply filter_all. intros t Ht.
  pose proof (rowids_from_bounds _ _ _ Hr Ht) as Hb.
  set (N := Z.of_nat (List.length (tiles c))) in *.
  assert (0 <= N / chunk) by (apply Z.div_pos; lia).
  rewrite Z2Nat.id by lia.
  pose proof (Z.mul_succ_div_gt N chunk Hc).
  apply Z.leb_le. lia.
Qed.

Lemma join_stands_for (c : conn) (ms : list mapping) (ts : list tile) :
  Forall2 (stands_for c) ms ts ->
  flat_map
    (fun m =>
       List.map
         (fun i => (map_zoom_level m, map_tile_column m, map_tile_row m,
                    image_data i))
         (filter (fun i => image_id i =? map_tile_id m) (images c)))
    ms
  = List.map tile_fields ts.
Proof.
  induction 1 as [|m t ms ts (Hz & Hx & Hy & Hl) H IH]; cbn [flat_map List.map].
  - reflexivity.
  - rewrite IH. unfold lookup_image in Hl. rewrite Hl. cbn.
    unfold tile_fields. now rewrite Hz, Hx, Hy.
Qed.

(** The pass on a raw container: it completes, and the state between
    rounds holds at the end for the whole table. *)
Lemma compression_do_spec (chunk : Z) (c : conn) :
  0 < chunk -> raw_container c ->
  exists l,
    compression_do chunk (enter_compression c) = (Ok tt, l)
    /\ round_inv c (tiles c)
                 (List.concat (List.map round_payloads (rounds chunk c))) l.
Proof.
  intros Hc (Hr & Hi & Hm).
  unfold compression_do, bind at 1, gets at 1. cbn [enter_compression con].
  destruct (Z.eqb_spec chunk 0) as [->|_]; [lia|].
  set (batch := fun i => select_rowid_range (i * chunk) ((i + 1) * chunk) c).
  destruct (for_each_invariant
              (fun done l =>
                 round_inv c (List.concat (List.map batch done))
                           (List.concat (List.map round_payloads
                                             (List.map batch done))) l)
              (compression_round chunk)
              (py_range (Z.of_nat (List.length (tiles c)) / chunk + 1)))
    with (done := @nil Z) (s := enter_compression c) as [l [E I]].
  - intros done i s _ H.
    destruct (compression_round_step c chunk i _ _ s H) as [s' [E' I']].
    exists s'. split; [assumption|].
    rewrite !map_app, !concat_app. cbn [List.map List.concat].
    rewrite !app_nil_r. exact I'.
  - unfold round_inv, enter_compression; cbn. rewrite Hi, Hm. cbn.
    repeat split; try constructor; lia.
  - exists l. split; [assumption|]. cbn [app] in I.
    change (List.map batch _) with (rounds chunk c) in I.
    now rewrite (rounds_cover chunk c Hc Hr) in I.
Qed.


Lemma NoDup_map_filter {A B} (f : A -> B) (p : A -> bool) (l : list A) :
  NoDup (List.map f l) -> NoDup (List.map f (filter p l)).
Proof.
  induction l as [|a l IH]; cbn; intros H; [constructor|].
  inversion H as [|? ? Hn Hd]; subst. destruct (p a); cbn.
  - constructor; [|now apply IH]. intros Hin. apply Hn.
    apply in_map_iff in Hin. destruct Hin as [b [E Hb]].
    apply filter_In in Hb. apply in_map_iff. exists b. tauto.
  - now apply IH.
Qed.

Lemma round_payloads_NoDup (rows : list tile) :
  NoDup (List.map tile_data rows) ->
  round_payloads rows = List.map tile_data rows.
Proof.
  intros H. unfold round_payloads.
  now rewrite (distinct_from_NoDup_id _ H []) by (intros d []).
Qed.

(** With pairwise distinct payloads every round stores all its rows. *)
Lemma rounds_payloads_NoDup (chunk : Z) (c : conn) :
  NoDup (List.map tile_data (tiles c)) ->
  List.concat (List.map round_payloads (rounds chunk c))
  = List.map tile_data (List.concat (rounds chunk c)).
Proof.
  intros H. unfold rounds. induction (py_range _) as [|i l IH]; cbn.
  - reflexivity.
  - rewrite map_app, IH. f_equal. apply round_payloads_NoDup.
    unfold select_rowid_range. now apply NoDup_map_filter.
Qed.

(** A table of at most [chunk] rows is fetched whole by the first round. *)
Lemma rounds_single (chunk : Z) (c : conn) :
  0 < chunk -> rowids_from 1 (tiles c) ->
  Z.of_nat (List.length (tiles c)) <= chunk ->
  List.concat (List.map round_payloads (rounds chunk c))
  = round_payloads (tiles c).
Proof.
  intros Hc Hr Hn. unfold rounds, py_range.
  set (N := Z.of_nat (List.length (tiles c))) in *.
  assert (0 <= N / chunk) by (apply Z.div_pos; lia).
  destruct (Z.to_nat (N / chunk + 1)) as [|n] eqn:En; [lia|].
  cbn [seq List.map List.concat].
  assert (E0 : select_rowid_range (0 * chunk) ((0 + 1) * chunk) c = tiles c).
  { apply filter_all. intros t Ht.
    pose proof (rowids_from_bounds _ _ _ Hr Ht).
    apply andb_true_iff. split; [apply Z.ltb_lt | apply Z.leb_le]; lia. }
  cbn [Z.of_nat]. rewrite E0.
  rewrite (proj2 (concat_nil_Forall _)); [apply app_nil_r|].
  apply Forall_forall. intros ps Hps.
  apply in_map_iff in Hps. destruct Hps as [rows [<- Hrows]].
  apply in_map_iff in Hrows. destruct Hrows as [i [<- Hi]].
  apply in_map_iff in Hi. destruct Hi as [k [<- Hk]].
  apply in_seq in Hk. unfold select_rowid_range.
  rewrite (filter_none _ (tiles c)); [reflexivity|].
  intros t Ht. pose proof (rowids_from_bounds _ _ _ Hr Ht).
  apply andb_false_iff. left. apply Z.ltb_ge. nia.
Qed.


(** ** Sorting *)

Lemma ascii_compare_trans (a b c : ascii) :
  Ascii.compare a b <> Gt -> Ascii.compare b c <> Gt ->
  Ascii.compare a c <> Gt.
Proof.
  unfold Ascii.compare. rewrite !N.compare_gt_iff. lia.
Qed.

Lemma string_compare_trans (s1 : string) :
  forall s2 s3, String.compare s1 s2 <> Gt -> String.compare s2 s3 <> Gt ->
                String.compare s1 s3 <> Gt.
Proof.
  induction s1 as [|a s1 IH]; intros [|b s2] [|c s3]; cbn; try congruence.
  destruct (Ascii.compare a b) eqn:Eab; try congruence;
    destruct (Ascii.compare b c) eqn:Ebc; try congruence.
  - apply Ascii.compare_eq_iff in Eab, Ebc. subst.
    assert (E : Ascii.compare c c = Eq)
      by (unfold Ascii.compare; apply N.compare_refl).
    rewrite E. apply IH.
  - apply Ascii.compare_eq_iff in Eab. subst. now rewrite Ebc.
  - apply Ascii.compare_eq_iff in Ebc. subst. now rewrite Eab.
  - intros _ _.
    assert (E : Ascii.compare a c = Lt).
    { unfold Ascii.compare in *. rewrite N.compare_lt_iff in *. lia. }
    now rewrite E.
Qed.

Lemma string_leb_trans (s1 s2 s3 : string) :
  String.leb s1 s2 = true -> String.leb s2 s3 = true ->
  String.leb s1 s3 = true.
Proof.
  unfold String.leb. intros H12 H23.
  pose proof (string_compare_trans s1 s2 s3) as H.
  destruct (String.compare s1 s2); try discriminate;
    destruct (String.compare s2 s3); try discriminate;
    destruct (String.compare s1 s3); try reflexivity;
    exfalso; apply H; congruence.
Qed.

Section Sorting.

Context {A K : Type}.
Variable leb : K -> K -> bool.
Variable key : A -> K.

Lemma insert_by_perm (a : A) (l : list A) :
  Permutation (insert_by leb key a l) (a :: l).
Proof.
  induction l as [|b l IH]; cbn.
  - reflexivity.
  - destruct (leb (key a) (key b)).
    + reflexivity.
    + rewrite IH. apply perm_swap.
Qed.

Lemma sorted_by_perm (l : list A) : Permutation (sorted_by leb key l) l.
Proof.
  induction l as [|a l IH]; cbn.
  - constructor.
  - rewrite insert_by_perm. now constructor.
Qed.

Lemma sorted_by_In (a : A) (l : list A) :
  In a (sorted_by leb key l) <-> In a l.
Proof.
  split; apply Permutation_in;
    [apply sorted_by_perm | apply Permutation_sym, sorted_by_perm].
Qed.

(** The first element of a list that is not below [a] stays first. *)
Lemma insert_by_head (a : A) (l : list A) :
  Forall (fun b => leb (key a) (key b) = true) l ->
  insert_by leb key a l = a :: l.
Proof.
  intros H. destruct H as [|b l Hb H]; cbn; [reflexivity|].
  now rewrite Hb.
Qed.

Hypothesis leb_total : forall x y, leb x y = true \/ leb y x = true.
Hypothesis leb_trans :
  forall x y z, leb x y = true -> leb y z = true -> leb x z = true.

Lemma insert_by_ascending (a : A) (l : list A) :
  ascending leb key l -> ascending leb key (insert_by leb key a l).
Proof.
  unfold ascending. induction 1 as [|b l Hl IH Hb]; cbn.
  - constructor; constructor.
  - destruct (leb (key a) (key b)) eqn:E.
    + constructor; [now constructor|]. constructor; [assumption|].
      eapply Forall_impl; [|exact Hb]. cbn. intros c Hc.
      now apply (leb_trans _ (key b)).
    + constructor; [assumption|].
      assert (Hba : leb (key b) (key a) = true)
        by (destruct (leb_total (key a) (key b)); congruence).
      eapply Permutation_Forall;
        [apply Permutation_sym, insert_by_perm|].
      now constructor.
Qed.

Lemma sorted_by_ascending (l : list A) :
  ascending leb key (sorted_by leb key l).
Proof.
  induction l as [|a l IH]; cbn.
  - constructor.
  - now apply insert_by_ascending.
Qed.

Lemma filter_insert_by (p : A -> bool) (a : A) (l : list A) :
  ascending leb key l ->
  filter p (insert_by leb key a l)
  = if p a then insert_by leb key a (filter p l) else filter p l.
Proof.
  unfold ascending. induction 1 as [|b l Hl IH Hb]; cbn.
  - destruct (p a); reflexivity.
  - destruct (leb (key a) (key b)) eqn:E; cbn.
    + destruct (p a); [|reflexivity].
      symmetry. apply insert_by_head.
      destruct (p b).
      * constructor; [assumption|].
        apply Forall_forall. intros c Hc. apply filter_In in Hc.
        rewrite Forall_forall in Hb.
        apply (leb_trans _ (key b)); [assumption | apply Hb; tauto].
      * apply Forall_forall. intros c Hc. apply filter_In in Hc.
        rewrite Forall_forall in Hb.
        apply (leb_trans _ (key b)); [assumption | apply Hb; tauto].
    + destruct (p b); cbn; rewrite IH; destruct (p a); cbn;
        try rewrite E; reflexivity.
Qed.

(** Sorting and then dropping elements is dropping them and then
    sorting. *)
Lemma filter_sorted_by (p : A -> bool) (l : list A) :
  filter p (sorted_by leb key l) = sorted_by leb key (filter p l).
Proof.
  induction l as [|a l IH]; cbn.
  - reflexivity.
  - rewrite filter_insert_by by apply sorted_by_ascending.
    destruct (p a); cbn; now rewrite IH.
Qed.

End Sorting.

Lemma sorted_by_map {A B K} (leb : K -> K -> bool) (key : B -> K)
    (g : A -> B) (l : list A) :
  sorted_by leb key (List.map g l)
  = List.map g (sorted_by leb (fun a => key (g a)) l).
Proof.
  induction l as [|a l IH]; cbn; [reflexivity|].
  rewrite IH. generalize (sorted_by leb (fun a => key (g a)) l).
  intros s. induction s as [|b s IHs]; cbn; [reflexivity|].
  destruct (leb (key (g a)) (key (g b))); cbn; [reflexivity|].
  now rewrite IHs.
Qed.


(** ** Dictionaries *)

Lemma dict_set_keys (k v : string) (d : dict) :
  List.map fst (dict_set k v d)
  = if existsb (String.eqb k) (List.map fst d) then List.map fst d
    else List.map fst d ++ [k].
Proof.
  induction d as [|[k' v'] d IH]; cbn; [reflexivity|].
  rewrite (String.eqb_sym k k').
  destruct (String.eqb k' k) eqn:E; cbn; [reflexivity|].
  rewrite IH. now destruct (existsb _ _).
Qed.

Lemma existsb_eqb_In (k : string) (ks : list string) :
  existsb (String.eqb k) ks = true <-> In k ks.
Proof.
  rewrite existsb_exists. split.
  - intros [x [Hx E]]. apply String.eqb_eq in E. now subst.
  - intros H. exists k. split; [assumption | apply String.eqb_refl].
Qed.

Lemma dict_set_NoDup (k v : string) (d : dict) :
  NoDup (List.map fst d) -> NoDup (List.map fst (dict_set k v d)).
Proof.
  intros H. rewrite dict_set_keys.
  destruct (existsb _ _) eqn:E; [assumption|].
  apply NoDup_app; [assumption | constructor; [intros []|constructor] |].
  intros x Hx [<-|[]]. apply existsb_eqb_In in Hx. congruence.
Qed.

Lemma dict_set_In_key (k v : string) (d : dict) (x : string) :
  In x (List.map fst (dict_set k v d)) <-> x = k \/ In x (List.map fst d).
Proof.
  rewrite dict_set_keys. destruct (existsb _ _) eqn:E.
  - apply existsb_eqb_In in E. split; [tauto|]. intros [->|H]; assumption.
  - rewrite in_app_iff. cbn. intuition congruence.
Qed.

Lemma py_dict_fold (pairs : list (string * string)) (d : dict) :
  NoDup (List.map fst d) ->
  let d' := fold_left (fun d kv => dict_set (fst kv) (snd kv) d) pairs d in
  NoDup (List.map fst d')
  /\ forall x, In x (List.map fst d')
               <-> In x (List.map fst d) \/ In x (List.map fst pairs).
Proof.
  revert d. induction pairs as [|[k v] pairs IH]; intros d Hd; cbn.
  - split; [assumption | tauto].
  - destruct (IH (dict_set k v d) (dict_set_NoDup k v d Hd)) as [Hn Hin].
    split; [exact Hn|]. intros x. rewrite Hin, dict_set_In_key.
    intuition congruence.
Qed.

Lemma py_dict_NoDup (pairs : list (string * string)) :
  NoDup (List.map fst (py_dict pairs)).
Proof. apply (py_dict_fold pairs []). constructor. Qed.

Lemma py_dict_keys (pairs : list (string * string)) (k : string) :
  In k (List.map fst (py_dict pairs)) <-> In k (List.map fst pairs).
Proof.
  destruct (py_dict_fold pairs [] (NoDup_nil _)) as [_ H].
  unfold py_dict. rewrite H. cbn. tauto.
Qed.

Lemma py_dict_fold_distinct (pairs : list (string * string)) (d : dict) :
  NoDup (List.map fst (d ++ pairs)) ->
  fold_left (fun d kv => dict_set (fst kv) (snd kv) d) pairs d = d ++ pairs.
Proof.
  revert d. induction pairs as [|[k v] pairs IH]; intros d H; cbn.
  - now rewrite app_nil_r.
  - assert (Hset : dict_set k v d = d ++ [(k, v)]).
    { rewrite map_app in H. cbn in H. apply NoDup_remove_2 in H.
      assert (Hk : ~ In k (List.map fst d))
        by (intros Hin; apply H, in_app_iff; now left).
      clear - Hk. induction d as [|[k' v'] d IHd]; cbn; [reflexivity|].
      destruct (String.eqb_spec k' k) as [->|Hne].
      - exfalso. apply Hk. now left.
      - rewrite IHd; [reflexivity|]. intros Hin. apply Hk. now right. }
    rewrite Hset, IH; rewrite <- app_assoc; [reflexivity | exact H].
Qed.

Lemma distinct_keys_sound (l : list (string * string)) :
  distinct_keys String.eqb fst l = true -> NoDup (List.map fst l).
Proof.
  induction l as [|a l IH]; cbn; intros H; [constructor|].
  apply andb_true_iff in H. destruct H as [Ha Hl].
  constructor; [|now apply IH]. intros Hin. apply in_map_iff in Hin.
  destruct Hin as [b [E Hb]]. apply negb_true_iff in Ha.
  assert (existsb (fun b => String.eqb (fst a) (fst b)) l = true).
  { apply existsb_exists. exists b. split; [assumption|].
    rewrite E. apply String.eqb_refl. }
  congruence.
Qed.

(** A document whose keys are distinct is loaded as it is written. *)
Lemma py_dict_distinct (pairs : list (string * string)) :
  distinct_keys String.eqb fst pairs = true -> py_dict pairs = pairs.
Proof.
  intros H. unfold py_dict.
  now rewrite py_dict_fold_distinct by (now apply distinct_keys_sound).
Qed.

(** ** Metadata on import *)

(** Inserting the items of a dictionary into [metadata] never meets the
    unique index when the names are new. *)
Lemma insert_metadata_all (d : dict) :
  forall s,
    NoDup (List.map fst (metadata (db s) ++ d)) ->
    for_each d (fun nv => on_db (insert_metadata (fst nv) (snd nv))) s
    = (Ok tt,
       mk_session
         (mk_conn (tiles (db s)) (metadata (db s) ++ d) (images (db s))
                  (map (db s)) (is_view (db s))
                  (journal (db s) ++ repeat (Insert Metadata) (List.length d)))
         (warnings s) (count s)).
Proof.
  induction d as [|[k v] d IH]; intros [c w n] H; cbn [for_each].
  - cbn. rewrite !app_nil_r. now destruct c.
  - cbn [db] in H.
    assert (Hk : existsb (fun nv => String.eqb (fst nv) k) (metadata c)
                 = false).
    { apply not_true_is_false. intros E. apply existsb_exists in E.
      destruct E as [[k' v'] [Hin E]]. cbn in E. apply String.eqb_eq in E.
      subst k'. rewrite map_app in H. cbn in H.
      apply (NoDup_remove_2 _ _ _ H). apply in_app_iff. left.
      apply in_map_iff. now exists (k, v'). }
    unfold bind, on_db, insert_metadata. cbn. rewrite Hk.
    rewrite IH.
    + cbn. rewrite <- !app_assoc. reflexivity.
    + cbn. now rewrite <- app_assoc.
Qed.

Lemma load_metadata_present (quiet : bool) (t : tree)
    (members : list (string * string)) (image_format : string) :
  metadata_json t = Some members ->
  load_metadata quiet t image_format (mk_session mbtiles_setup [] 0)
  = (Ok (dict_get_default "format" (py_dict members) image_format),
     mk_session
       (mk_conn [] (py_dict members) [] [] false
                (repeat (Insert Metadata) (List.length (py_dict members))))
       [] 0).
Proof.
  intros E. unfold load_metadata. rewrite E. unfold bind.
  rewrite insert_metadata_all; [reflexivity|]. cbn. apply py_dict_NoDup.
Qed.


(** ** Statements on the connection *)

Lemma insert_tiles_ok (z x y : Z) (d : bytes) (c c' : conn) :
  insert_tiles z x y d c = (Ok tt, c') ->
  c' = mk_conn (tiles c ++ [mk_tile (Z.of_nat (List.length (tiles c)) + 1)
                                    z x y d])
               (metadata c) (images c) (map c) (is_view c)
               (journal c ++ [Insert Tiles])
  /\ existsb (same_coords z x y) (tiles c) = false.
Proof.
  unfold insert_tiles.
  destruct (negb _); [discriminate|].
  destruct (existsb _ _); [discriminate|].
  intros E. injection E as <-. now split.
Qed.

Lemma insert_tiles_raise (z x y : Z) (d : bytes) (c c' : conn) (e : exn) :
  insert_tiles z x y d c = (Raise e, c') -> c' = c.
Proof.
  unfold insert_tiles.
  destruct (negb _); [intros E; now injection E|].
  destruct (existsb _ _); [intros E; now injection E|]. discriminate.
Qed.

Lemma rowids_from_snoc (ts : list tile) :
  forall k t, rowids_from k ts ->
              rowid t = k + Z.of_nat (List.length ts) ->
              rowids_from k (ts ++ [t]).
Proof.
  induction ts as [|t0 ts IH]; intros k t H Ht; cbn in *.
  - split; [lia | exact I].
  - destruct H as [H0 H]. split; [assumption|]. apply IH; [assumption|]. lia.
Qed.

Lemma same_coords_none (z x y : Z) (ts : list tile) :
  existsb (same_coords z x y) ts = false ->
  ~ In (z, x, y) (List.map coords ts).
Proof.
  intros E Hin. apply in_map_iff in Hin. destruct Hin as [t [Et Hin]].
  assert (H : existsb (same_coords z x y) ts = true).
  { apply existsb_exists. exists t. split; [assumption|].
    unfold coords in Et. injection Et as <- <- <-.
    unfold same_coords. now rewrite !Z.eqb_refl. }
  congruence.
Qed.

(** ** One file of the walk *)

(** The three ways [import_file] ends: the session is left as it was but
    for a warning; or a row, and nothing else, was inserted; or the
    statement raised, having changed nothing. *)
Lemma import_file_cases (quiet : bool) (image_format scheme : string)
    (z x : Z) (e : entry) (s : session) :
  let (r, s') := import_file quiet image_format scheme z x e s in
  (r = Ok tt /\ db s' = db s /\ count s' = count s
   /\ (startswith_dot (entry_name e) = true
       \/ String.eqb (lstrip_dots (snd (splitext (entry_name e))))
                     image_format = false))
  \/ (exists y d,
         r = Ok tt
         /\ startswith_dot (entry_name e) = false
         /\ String.eqb (lstrip_dots (snd (splitext (entry_name e))))
                       image_format = true
         /\ py_int (fst (splitext (entry_name e))) = Some y
         /\ e = File (entry_name e) d
         /\ insert_tiles z x (stored_row scheme z y) d (db s)
            = (Ok tt, db s')
         /\ warnings s' = warnings s
         /\ count s' = count s + 1)
  \/ (exists err, r = Raise err /\ s' = s).
Proof.
  unfold import_file.
  destruct (startswith_dot (entry_name e)) eqn:Hdot.
  { cbn. left. tauto. }
  destruct (splitext (entry_name e)) as [file_name ext] eqn:Hsplit.
  cbn [fst snd].
  destruct (String.eqb (lstrip_dots ext) image_format) eqn:Hext; cbn [negb].
  2:{ unfold logger_warning, when, modify, ret.
      destruct quiet; cbn; left; tauto. }
  destruct (py_int file_name) as [y|] eqn:Hy; cbn [lift_option].
  2:{ unfold bind, raise. right. right. now exists ValueError. }
  unfold bind at 1, ret at 1.
  destruct e as [name d|name ch]; cbn [read_rb].
  2:{ unfold bind, raise. right. right. now exists IsADirectoryError. }
  unfold bind, ret, on_db, modify. cbn [entry_name].
  fold (stored_row scheme z y).
  destruct (insert_tiles z x (stored_row scheme z y) d (db s))
    as [[[]|err] c'] eqn:Hins; cbn.
  - right. left. exists y, d. tauto.
  - right. right. exists err. split; [reflexivity|].
    apply insert_tiles_raise in Hins. subst c'. now destruct s.
Qed.

Lemma import_file_inv (quiet : bool) (image_format scheme : string)
    (z x : Z) (e : entry) (s : session) :
  forall loaded,
  walk_inv loaded s ->
  walk_inv loaded (snd (import_file quiet image_format scheme z x e s)).
Proof.
  intros loaded Hinv.
  pose proof (import_file_cases quiet image_format scheme z x e s) as H.
  destruct (import_file quiet image_format scheme z x e s) as [r s'].
  cbn [snd].
  destruct H as [(_ & Hdb & Hc & _)
                | [(y & d & _ & _ & _ & _ & _ & Hins & _ & Hc)
                  | (err & _ & ->)]].
  - unfold walk_inv in *. now rewrite Hdb, Hc.
  - apply insert_tiles_ok in Hins. destruct Hins as [Hdb Hnew].
    destruct Hinv as (Hmd & (Hr & Hi & Hm) & Hv & Hnd & Hco & Hj & Hcnt).
    unfold walk_inv, raw_container. rewrite Hdb, Hc. cbn.
    repeat split; try assumption.
    + apply rowids_from_snoc; [assumption | cbn [rowid]; lia].
    + rewrite map_app. cbn. apply NoDup_app; [assumption | | ].
      * constructor; [intros []|constructor].
      * intros c Hin [<-|[]]. revert Hin.
        now apply same_coords_none.
    + rewrite in_app_iff. intros [H|[H|[]]]; [contradiction | discriminate].
    + rewrite filter_app, !length_app. cbn. lia.
    + rewrite length_app. cbn. lia.
  - assumption.
Qed.


(** ** The loops of the walk *)

Lemma bind_snd {S A B} (P : S -> Prop) (m : M S A) (k : A -> M S B) (s : S) :
  P (snd (m s)) -> (forall a s1, P s1 -> P (snd (k a s1))) ->
  P (snd (bind m k s)).
Proof.
  intros Hm Hk. unfold bind. destruct (m s) as [[a|e] s1]; cbn in *.
  - now apply Hk.
  - assumption.
Qed.

Lemma lift_option_state {S A} (e : exn) (o : option A) (s : S) :
  snd (lift_option e o s) = s.
Proof. now destruct o. Qed.

Lemma import_column_inv (quiet : bool) (image_format scheme : string)
    (z : Z) (row_dir : string * list entry) (s : session) :
  forall loaded,
  walk_inv loaded s ->
  walk_inv loaded (snd (import_column quiet image_format scheme z row_dir s)).
Proof.
  intros loaded H. unfold import_column. apply bind_snd.
  - now rewrite lift_option_state.
  - intros x s1 H1. apply for_each_preserves; [|assumption].
    intros e s2 _. apply import_file_inv.
Qed.

Lemma import_zoom_inv (quiet : bool) (image_format scheme : string)
    (zoom_dir : string * list entry) (s : session) :
  forall loaded,
  walk_inv loaded s ->
  walk_inv loaded (snd (import_zoom quiet image_format scheme zoom_dir s)).
Proof.
  intros loaded H. unfold import_zoom. apply bind_snd.
  - now rewrite lift_option_state.
  - intros z s1 H1. apply for_each_preserves; [|assumption].
    intros d s2 _. apply import_column_inv.
Qed.

Lemma sort_keys_state {S A} (key : A -> option Z) (l : list A) (s : S) :
  snd (sort_keys key l s) = s.
Proof.
  revert s. induction l as [|a l IH]; intros s; cbn; [reflexivity|].
  unfold bind. destruct (key a); cbn; [|reflexivity].
  specialize (IH s). destruct (sort_keys key l s) as [[r|e] s1]; cbn in *;
    assumption.
Qed.

Lemma sort_keys_ok {S A} (key : A -> option Z) (l : list A) (s s' : S)
    (keyed : list (Z * A)) :
  sort_keys key l s = (Ok keyed, s') ->
  List.map snd keyed = l
  /\ Forall (fun ka => key (snd ka) = Some (fst ka)) keyed.
Proof.
  revert keyed s'. induction l as [|a l IH]; intros keyed s'; cbn.
  - intros E. injection E as <- <-. split; constructor.
  - unfold bind. destruct (key a) as [k|] eqn:Ek; cbn; [|discriminate].
    destruct (sort_keys key l s) as [[rest|e] s1]; [|discriminate].
    intros E. injection E as <- <-.
    destruct (IH rest s1 eq_refl) as [Hm Hf]. cbn. split.
    + now rewrite Hm.
    + constructor; assumption.
Qed.

Lemma zoom_levels_state (t : tree) (s : session) :
  snd (zoom_levels t s) = s.
Proof.
  unfold zoom_levels, bind.
  pose proof (sort_keys_state (fun d => py_int (strip_non_digits (fst d)))
                (get_dirs (listing t)) s) as H.
  destruct (sort_keys _ _ s) as [[keyed|e] s1]; cbn in *; assumption.
Qed.

Lemma zoom_levels_ok (t : tree) (s s' : session)
    (levels : list (string * list entry)) :
  zoom_levels t s = (Ok levels, s') ->
  Permutation levels (get_dirs (listing t)).
Proof.
  unfold zoom_levels, bind.
  destruct (sort_keys _ _ s) as [[keyed|e] s1] eqn:E; [|discriminate].
  intros H. injection H as <- <-.
  apply sort_keys_ok in E. destruct E as [<- _].
  apply Permutation_map, sorted_by_perm.
Qed.

Lemma get_dirs_In (n : string) (ch : list entry) (l : list entry) :
  In (n, ch) (get_dirs l) <-> In (Directory n ch) l.
Proof.
  induction l as [|[n' d|n' ch'] l IH]; cbn.
  - tauto.
  - rewrite IH. split; [tauto|]. intros [H|H]; [discriminate | assumption].
  - rewrite IH. split; intros [H|H]; try tauto; left; congruence.
Qed.

(** In a loop that completes, every iteration completed, between states
    related by an order that the iterations respect. *)
Lemma for_each_ok_each {S A} (R : S -> S -> Prop) (body : A -> M S unit) :
  (forall s, R s s) ->
  (forall s1 s2 s3, R s1 s2 -> R s2 s3 -> R s1 s3) ->
  (forall a s s', body a s = (Ok tt, s') -> R s s') ->
  forall l s s',
    for_each l body s = (Ok tt, s') ->
    R s s'
    /\ forall a, In a l ->
         exists s1 s2, body a s1 = (Ok tt, s2) /\ R s s1 /\ R s2 s'.
Proof.
  intros Hrefl Htrans Hbody.
  induction l as [|a l IH]; intros s s' E; cbn in E.
  - injection E as <-. split; [apply Hrefl | intros a []].
  - unfold bind in E.
    destruct (body a s) as [[[]|e] s1] eqn:Ea; [|discriminate].
    destruct (IH s1 s' E) as [HR Hin]. pose proof (Hbody _ _ _ Ea) as H1.
    split; [now apply (Htrans _ s1)|].
    intros b [<-|Hb].
    + exists s, s1. auto.
    + destruct (Hin b Hb) as [s2 [s3 (E2 & R2 & R3)]].
      exists s2, s3. split; [assumption|]. split; [|assumption].
      now apply (Htrans _ s1).
Qed.


(** ** What a completed walk has stored *)

Lemma import_file_extends (quiet : bool) (image_format scheme : string)
    (z x : Z) (e : entry) (s s' : session) :
  import_file quiet image_format scheme z x e s = (Ok tt, s') ->
  incl (tiles (db s)) (tiles (db s')).
Proof.
  intros E.
  pose proof (import_file_cases quiet image_format scheme z x e s) as H.
  rewrite E in H.
  destruct H as [(_ & Hdb & _) | [(y & d & _ & _ & _ & _ & _ & Hins & _)
                                 | (err & Herr & _)]].
  - rewrite Hdb. apply incl_refl.
  - apply insert_tiles_ok in Hins. destruct Hins as [-> _]. cbn.
    apply incl_appl, incl_refl.
  - discriminate.
Qed.

Lemma import_file_stores (quiet : bool) (image_format scheme : string)
    (z x : Z) (name : string) (d : bytes) (s s' : session) :
  import_file quiet image_format scheme z x (File name d) s = (Ok tt, s') ->
  accepted image_format name = true ->
  exists y, file_row name = Some y
            /\ In (z, x, stored_row scheme z y, d)
                  (List.map tile_fields (tiles (db s'))).
Proof.
  intros E Hacc. unfold accepted in Hacc. apply andb_true_iff in Hacc.
  destruct Hacc as [Hdot Hext]. apply negb_true_iff in Hdot.
  pose proof (import_file_cases quiet image_format scheme z x (File name d) s)
    as H.
  rewrite E in H. cbn [entry_name] in H.
  destruct H as [(_ & _ & _ & [H|H])
                | [(y & d' & _ & _ & _ & Hy & Hd & Hins & _)
                  | (err & Herr & _)]];
    try congruence.
  injection Hd as <-. exists y. split; [exact Hy|].
  apply insert_tiles_ok in Hins. destruct Hins as [-> _]. cbn.
  rewrite map_app. apply in_app_iff. right. now left.
Qed.

Lemma incl_tiles_trans (s1 s2 s3 : session) :
  incl (tiles (db s1)) (tiles (db s2)) ->
  incl (tiles (db s2)) (tiles (db s3)) ->
  incl (tiles (db s1)) (tiles (db s3)).
Proof. apply incl_tran. Qed.

Lemma import_column_ok (quiet : bool) (image_format scheme : string)
    (z : Z) (row_dir : string * list entry) (s s' : session) :
  import_column quiet image_format scheme z row_dir s = (Ok tt, s') ->
  incl (tiles (db s)) (tiles (db s'))
  /\ exists x,
       dir_number (fst row_dir) = Some x
       /\ forall name d,
            In (File name d) (snd row_dir) ->
            accepted image_format name = true ->
            exists y, file_row name = Some y
                      /\ In (z, x, stored_row scheme z y, d)
                            (List.map tile_fields (tiles (db s'))).
Proof.
  unfold import_column, bind, dir_number.
  destruct (py_int (strip_non_digits (fst row_dir))) as [x|]; cbn;
    [|discriminate].
  intros E.
  destruct (for_each_ok_each
              (fun s1 s2 => incl (tiles (db s1)) (tiles (db s2)))
              (import_file quiet image_format scheme z x)
              (fun s0 => incl_refl _) incl_tiles_trans
              (import_file_extends quiet image_format scheme z x)
              _ _ _ E) as [Hincl Heach].
  split; [exact Hincl|]. exists x. split; [reflexivity|].
  intros name d Hin Hacc.
  destruct (Heach (File name d)) as [s1 [s2 (E1 & _ & H2)]].
  { now apply sorted_by_In. }
  destruct (import_file_stores _ _ _ _ _ _ _ _ _ E1 Hacc) as [y [Hy Hrow]].
  exists y. split; [exact Hy|].
  apply in_map_iff in Hrow. destruct Hrow as [t [Et Ht]].
  apply in_map_iff. exists t. split; [exact Et | now apply H2].
Qed.

Lemma import_zoom_ok (quiet : bool) (image_format scheme : string)
    (zoom_dir : string * list entry) (s s' : session) :
  import_zoom quiet image_format scheme zoom_dir s = (Ok tt, s') ->
  incl (tiles (db s)) (tiles (db s'))
  /\ exists z,
       dir_number (fst zoom_dir) = Some z
       /\ forall col_dir cs name d,
            In (Directory col_dir cs) (snd zoom_dir) ->
            In (File name d) cs ->
            accepted image_format name = true ->
            exists x y,
              dir_number col_dir = Some x /\ file_row name = Some y
              /\ In (z, x, stored_row scheme z y, d)
                    (List.map tile_fields (tiles (db s'))).
Proof.
  unfold import_zoom, bind, dir_number.
  destruct (py_int (strip_non_digits (fst zoom_dir))) as [z|]; cbn;
    [|discriminate].
  intros E.
  destruct (for_each_ok_each
              (fun s1 s2 => incl (tiles (db s1)) (tiles (db s2)))
              (import_column quiet image_format scheme z)
              (fun s0 => incl_refl _) incl_tiles_trans
              (fun a s1 s2 H =>
                 proj1 (import_column_ok quiet image_format scheme z
                                         a s1 s2 H))
              _ _ _ E) as [Hincl Heach].
  split; [exact Hincl|]. exists z. split; [reflexivity|].
  intros col_dir cs name d Hcol Hin Hacc.
  destruct (Heach (col_dir, cs)) as [s1 [s2 (E1 & _ & H2)]].
  { apply sorted_by_In. now apply get_dirs_In. }
  destruct (import_column_ok _ _ _ _ _ _ _ E1) as [_ [x [Hx Hfiles]]].
  destruct (Hfiles name d Hin Hacc) as [y [Hy Hrow]].
  exists x, y. split; [exact Hx|]. split; [exact Hy|].
  apply in_map_iff in Hrow. destruct Hrow as [t [Et Ht]].
  apply in_map_iff. exists t. split; [exact Et | now apply H2].
Qed.

Lemma walk_ok (quiet : bool) (image_format scheme : string)
    (levels : list (string * list entry)) (s s' : session) :
  for_each levels (import_zoom quiet image_format scheme) s = (Ok tt, s') ->
  forall zoom_dir zs col_dir cs name d,
    In (zoom_dir, zs) levels ->
    In (Directory col_dir cs) zs -> In (File name d) cs ->
    accepted image_format name = true ->
    exists z x y,
      dir_number zoom_dir = Some z /\ dir_number col_dir = Some x
      /\ file_row name = Some y
      /\ In (z, x, stored_row scheme z y, d)
            (List.map tile_fields (tiles (db s'))).
Proof.
  intros E zoom_dir zs col_dir cs name d Hz Hcol Hin Hacc.
  destruct (for_each_ok_each
              (fun s1 s2 => incl (tiles (db s1)) (tiles (db s2)))
              (import_zoom quiet image_format scheme)
              (fun s0 => incl_refl _) incl_tiles_trans
              (fun a s1 s2 H =>
                 proj1 (import_zoom_ok quiet image_format scheme
                                       a s1 s2 H))
              _ _ _ E) as [_ Heach].
  destruct (Heach (zoom_dir, zs) Hz) as [s1 [s2 (E1 & _ & H2)]].
  destruct (import_zoom_ok _ _ _ _ _ _ E1) as [_ [z [Hzn Hcols]]].
  destruct (Hcols col_dir cs name d Hcol Hin Hacc) as [x [y (Hx & Hy & Hrow)]].
  exists z, x, y. repeat split; try assumption.
  apply in_map_iff in Hrow. destruct Hrow as [t [Et Ht]].
  apply in_map_iff. exists t. split; [exact Et | now apply H2].
Qed.


(** ** Compression inside an import *)

Lemma distinct_keys_NoDup {A K} (eqb : K -> K -> bool) (key : A -> K)
    (l : list A) :
  (forall a b, eqb a b = true -> a = b) ->
  NoDup (List.map key l) -> distinct_keys eqb key l = true.
Proof.
  intros Heqb. induction l as [|a l IH]; cbn; intros H; [reflexivity|].
  inversion H as [|? ? Ha Hl]; subst. rewrite (IH Hl), andb_true_r.
  apply negb_true_iff, not_true_is_false. intros E.
  apply existsb_exists in E. destruct E as [b [Hb E]].
  apply Heqb in E. apply Ha. rewrite E. now apply in_map.
Qed.

Lemma coords_eqb_eq (a b : Z * Z * Z) : coords_eqb a b = true -> a = b.
Proof.
  destruct a as [[z x] y], b as [[z' x'] y']. cbn. intros E.
  apply andb_true_iff in E. destruct E as [E Ey].
  apply andb_true_iff in E. destruct E as [Ez Ex].
  apply Z.eqb_eq in Ez, Ex, Ey. now subst.
Qed.

Lemma journal_extends_refl (c : conn) : journal_extends c c.
Proof.
  split; [reflexivity|]. exists []. split; [now rewrite app_nil_r|].
  constructor.
Qed.

Lemma journal_extends_trans (c1 c2 c3 : conn) :
  journal_extends c1 c2 -> journal_extends c2 c3 -> journal_extends c1 c3.
Proof.
  intros [Hm1 [ev1 [E1 H1]]] [Hm2 [ev2 [E2 H2]]]. split; [congruence|].
  exists (ev1 ++ ev2). split.
  - now rewrite E2, E1, app_assoc.
  - now apply Forall_app.
Qed.

Lemma journal_extends_event (c c' : conn) (e : event) :
  metadata c' = metadata c -> journal c' = journal c ++ [e] ->
  is_tile_insert e = false -> journal_extends c c'.
Proof.
  intros Hm Hj He. split; [assumption|]. exists [e].
  split; [assumption | now constructor].
Qed.

Lemma compression_row_frame (c0 : conn) (r : tile) (l : locals) :
  journal_extends c0 (con l) ->
  journal_extends c0 (con (snd (compression_row r l))).
Proof.
  intros H. unfold compression_row, bind, modify, gets. cbn [files].
  destruct (py_in (tile_data r) (files l)); cbn.
  - destruct (py_index (tile_data r) (files l)) as [k|]; cbn; [|assumption].
    destruct (nth_error (ids l) k) as [id|]; cbn; [|assumption].
    eapply journal_extends_trans; [exact H|].
    now apply (journal_extends_event _ _ (Insert Map)).
  - eapply journal_extends_trans; [exact H|].
    split; [reflexivity|]. exists [Insert Images; Insert Map]. split.
    + cbn. now rewrite <- app_assoc.
    + repeat constructor.
Qed.

Lemma compression_round_frame (c0 : conn) (chunk i : Z) (l : locals) :
  journal_extends c0 (con l) ->
  journal_extends c0 (con (snd (compression_round chunk i l))).
Proof.
  intros H. unfold compression_round.
  apply (bind_snd (fun l => journal_extends c0 (con l))); [exact H|].
  intros _ l1 H1.
  apply (bind_snd (fun l => journal_extends c0 (con l))); [exact H1|].
  intros rows l2 H2.
  apply (bind_snd (fun l => journal_extends c0 (con l))).
  - apply (for_each_preserves (fun l => journal_extends c0 (con l)));
      [|exact H2].
    intros r l3 _. apply compression_row_frame.
  - intros _ l3 H3. cbn. eapply journal_extends_trans; [exact H3|].
    now apply (journal_extends_event _ _ Commit).
Qed.

(** Whatever its outcome, the pass inserts no tile row and leaves the
    metadata alone. *)
Lemma compression_do_frame (chunk : Z) (l : locals) :
  journal_extends (con l) (con (snd (compression_do chunk l))).
Proof.
  unfold compression_do, bind, gets.
  destruct (chunk =? 0); cbn; [apply journal_extends_refl|].
  apply (for_each_preserves (fun l' => journal_extends (con l) (con l')));
    [|apply journal_extends_refl].
  intros i l1 _. apply compression_round_frame.
Qed.

(** After a walk the three compression steps complete. *)
Lemma run_compression_ok (loaded : dict) (s : session) :
  walk_inv loaded s ->
  exists s',
    run_compression s = (Ok tt, s')
    /\ journal_extends (db s) (db s')
    /\ warnings s' = warnings s /\ count s' = count s.
Proof.
  intros (Hmd & Hraw & Hv & Hnd & Hco & Hj & Hcnt).
  destruct (compression_do_spec 256 (db s) ltac:(lia) Hraw)
    as [l [E (Ht & Hmap & Hids & Hdata & Htot & Huni & Hlast & Hsum & Hov
              & Himg)]].
  pose proof (compression_do_frame 256 (enter_compression (db s))) as Hfr.
  rewrite E in Hfr. cbn [snd enter_compression con] in Hfr.
  unfold run_compression, bind at 1, on_db at 1, compression_prepare, ret.
  replace (mk_session (db s) (warnings s) (count s)) with s
    by now destruct s.
  unfold bind, on_db at 1. rewrite E.
  unfold on_db, compression_finalize. cbn [db].
  assert (Hcoords :
            List.map (fun m => (map_zoom_level m, map_tile_column m,
                                map_tile_row m)) (map (con l))
            = List.map coords (tiles (db s))).
  { clear - Hmap. induction Hmap as [|m t ms ts (Hz & Hx & Hy & _) H IH];
      cbn; [reflexivity|]. unfold coords at 1. now rewrite IH, Hz, Hx, Hy. }
  rewrite (distinct_keys_NoDup coords_eqb _ (map (con l)) coords_eqb_eq)
    by (rewrite Hcoords; exact Hnd).
  rewrite (distinct_keys_NoDup Z.eqb image_id (images (con l))
             (fun a b => proj1 (Z.eqb_eq a b)) Himg).
  cbn [negb]. eexists. split; [reflexivity|]. cbn [db warnings count].
  split; [|split; reflexivity].
  destruct Hfr as [Hm [ev [Ej Hev]]]. split; [exact Hm|].
  exists ev. split; assumption.
Qed.


(** ** The import as a whole *)

Lemma load_metadata_run (quiet : bool) (t : tree) (image_format : string) :
  load_metadata quiet t image_format (mk_session mbtiles_setup [] 0)
  = (Ok (dict_get_default "format" (loaded_metadata t) image_format),
     after_metadata quiet t).
Proof.
  unfold after_metadata, loaded_metadata.
  destruct (metadata_json t) as [members|] eqn:E.
  - now apply load_metadata_present.
  - unfold load_metadata. rewrite E. now destruct quiet.
Qed.

Lemma after_metadata_inv (quiet : bool) (t : tree) :
  walk_inv (loaded_metadata t) (after_metadata quiet t).
Proof.
  unfold walk_inv, after_metadata, raw_container. cbn.
  assert (H : forall n, ~ In Commit (repeat (Insert Metadata) n)
                        /\ filter is_tile_insert (repeat (Insert Metadata) n)
                           = []).
  { induction n as [|n [IH1 IH2]]; cbn; [tauto|]. split; [|assumption].
    intros [H|H]; [discriminate | contradiction]. }
  destruct (H (List.length (loaded_metadata t))) as [H1 H2].
  rewrite H2. repeat split; try constructor; assumption.
Qed.

Lemma disk_to_mbtiles_unfold (t : tree) (kw : kwargs) :
  disk_to_mbtiles t kw
  = import_tiles (silent kw) (kwargs_get (scheme kw) "xyz") (compression kw)
                 t (import_format t kw) (after_metadata (silent kw) t).
Proof.
  unfold disk_to_mbtiles, disk_to_mbtiles_from, bind.
  now rewrite load_metadata_run.
Qed.

Lemma walk_preserves (quiet : bool) (image_format scheme : string)
    (levels : list (string * list entry)) (loaded : dict) (s : session) :
  walk_inv loaded s ->
  walk_inv loaded
           (snd (for_each levels (import_zoom quiet image_format scheme) s)).
Proof.
  apply (for_each_preserves (walk_inv loaded)).
  intros d s1 _. apply import_zoom_inv.
Qed.

(** The journal of an import from the beginning of the walk: no commit as
    long as tiles are inserted, no tile insert afterwards. *)
Lemma import_tiles_journal (quiet : bool) (scheme : string) (compress : bool)
    (t : tree) (image_format : string) (loaded : dict) (s : session) :
  walk_inv loaded s ->
  let r := fst (import_tiles quiet scheme compress t image_format s) in
  let s' := snd (import_tiles quiet scheme compress t image_format s) in
  metadata (db s') = loaded
  /\ exists walk rest,
       journal (db s') = walk ++ rest
       /\ ~ In Commit walk
       /\ no_tile_inserts rest
       /\ Z.of_nat (List.length (filter is_tile_insert walk)) = count s'
       /\ (r = Ok tt -> exists rest', rest = rest' ++ [Commit])
       /\ (r <> Ok tt -> rest = []).
Proof.
  intros Hinv. unfold import_tiles, bind.
  pose proof (zoom_levels_state t s) as Hz.
  destruct (zoom_levels t s) as [[levels|e] s0]; cbn [snd] in Hz; subst s0.
  2:{ cbn. destruct Hinv as (Hmd & _ & _ & _ & Hco & Hj & Hcnt).
      split; [exact Hmd|]. exists (journal (db s)), [].
      rewrite app_nil_r. repeat split; try assumption; try constructor.
      - lia.
      - discriminate. }
  pose proof (walk_preserves quiet image_format scheme levels loaded s Hinv)
    as Hw.
  destruct (for_each levels (import_zoom quiet image_format scheme) s)
    as [[[]|e] s1]; cbn [snd] in Hw.
  2:{ cbn. destruct Hw as (Hmd & _ & _ & _ & Hco & Hj & Hcnt).
      split; [exact Hmd|]. exists (journal (db s1)), [].
      rewrite app_nil_r. repeat split; try assumption; try constructor.
      - lia.
      - discriminate. }
  assert (Hc : exists s2,
             when compress run_compression s1 = (Ok tt, s2)
             /\ journal_extends (db s1) (db s2) /\ count s2 = count s1).
  { destruct compress; cbn.
    - destruct (run_compression_ok loaded s1 Hw) as [s2 (E & Hj & _ & Hc)].
      now exists s2.
    - exists s1. split; [reflexivity|]. split; [apply journal_extends_refl|].
      reflexivity. }
  destruct Hc as [s2 (E2 & (Hm2 & ev & Ej & Hev) & Hc2)]. rewrite E2.
  unfold optimize_database, ret, on_db, commit, modify. cbn.
  destruct Hw as (Hmd & _ & _ & _ & Hco & Hj & Hcnt).
  split; [congruence|]. exists (journal (db s1)), (ev ++ [Commit]).
  rewrite Ej, app_assoc. repeat split; try assumption.
  - apply Forall_app. split; [assumption | now constructor].
  - lia.
  - intros _. now exists ev.
  - intros H. now contradiction H.
Qed.

(** An import without compression that completes: the container is the
    one the walk left, plus the final commit. *)
Lemma import_tiles_plain (quiet : bool) (scheme : string) (t : tree)
    (image_format : string) (loaded : dict) (s s' : session) :
  walk_inv loaded s ->
  import_tiles quiet scheme false t image_format s = (Ok tt, s') ->
  exists levels s1,
    Permutation levels (get_dirs (listing t))
    /\ for_each levels (import_zoom quiet image_format scheme) s = (Ok tt, s1)
    /\ walk_inv loaded s1
    /\ tiles (db s') = tiles (db s1)
    /\ metadata (db s') = loaded
    /\ is_view (db s') = false.
Proof.
  intros Hinv. unfold import_tiles, bind.
  pose proof (zoom_levels_state t s) as Hz.
  destruct (zoom_levels t s) as [[levels|e] s0] eqn:El; [|discriminate].
  cbn [snd] in Hz; subst s0.
  pose proof (walk_preserves quiet image_format scheme levels loaded s Hinv)
    as Hw.
  destruct (for_each levels (import_zoom quiet image_format scheme) s)
    as [[[]|e] s1] eqn:Ew; [|discriminate]. cbn [snd] in Hw.
  cbn. intros E. injection E as <-. exists levels, s1. cbn.
  split; [now apply (zoom_levels_ok t s s)|].
  split; [exact Ew|]. split; [exact Hw|].
  destruct Hw as (Hmd & Hraw & Hv & Hrest). auto.
Qed.


(** ** The exporter *)

Lemma export_tile_run (kw : kwargs) (image_format : string)
    (t : Z * Z * Z * bytes) (d : disk) :
  exists dirs,
    export_tile kw image_format t (Some d)
    = (Ok tt,
       Some (mk_disk dirs (tile_entry kw image_format t :: disk_files d))).
Proof.
  destruct t as [[[z x] y] data].
  unfold export_tile, tile_entry, tile_path, bind, gets, when, write_file,
    os_makedirs, modify, ret. cbn [snd].
  destruct (negb _); cbn; eexists; reflexivity.
Qed.

Lemma export_tiles_run (kw : kwargs) (image_format : string) (c : conn)
    (rows : list (Z * Z * Z * bytes)) :
  forall d,
  exists dirs,
    for_each rows (fun t => on_fs (export_tile kw image_format t))
             (mk_export c (Some d))
    = (Ok tt,
       mk_export c
         (Some (mk_disk dirs
                        (rev (List.map (tile_entry kw image_format) rows)
                         ++ disk_files d)))).
Proof.
  induction rows as [|t rows IH]; intros d; cbn [for_each].
  - exists (disk_dirs d). cbn. now destruct d.
  - destruct (export_tile_run kw image_format t d) as [dirs1 E1].
    unfold bind, on_fs at 1. cbn [target source]. rewrite E1.
    destruct (IH (mk_disk dirs1 (tile_entry kw image_format t :: disk_files d)))
      as [dirs E].
    exists dirs. rewrite E. cbn [disk_files List.map rev].
    now rewrite <- app_assoc.
Qed.

(** A run into a place where nothing exists completes; the files it leaves
    are the tile files, the last written first, over the metadata
    document and at most the formatter file. *)
Lemma mbtiles_to_disk_fresh (kw : kwargs) (c : conn) :
  exists dirs rest,
    mbtiles_to_disk kw (mk_export c None)
    = (Ok tt,
       mk_export c
         (Some (mk_disk dirs
                  (rev (List.map (tile_entry kw (export_format c))
                                 (tiles_by_zoom c))
                   ++ rest)))).
Proof.
  pose proof (export_tiles_run kw (export_format c) c (tiles_by_zoom c))
    as Hloop.
  unfold mbtiles_to_disk, export_format in *.
  unfold bind, on_fs, gets, os_mkdir, write_file, modify, when, ret.
  cbn [target source os_path_isdir disk_dirs existsb].
  replace (path_eqb [] []) with true by reflexivity. cbn [orb negb].
  destruct (dict_get "formatter" (py_dict (metadata c))) as [formatter|].
  - destruct (String.eqb formatter ""); cbn [negb target source].
    + destruct (Hloop (mk_disk [[]]
                         [(["metadata.json"], Json (py_dict (metadata c)))]))
        as [dirs E].
      eexists dirs, _. exact E.
    + destruct (Hloop (mk_disk [[]]
                         [(["layer.json"], formatter_json formatter);
                          (["metadata.json"], Json (py_dict (metadata c)))]))
        as [dirs E].
      eexists dirs, _. exact E.
  - destruct (Hloop (mk_disk [[]]
                       [(["metadata.json"], Json (py_dict (metadata c)))]))
      as [dirs E].
    eexists dirs, _. exact E.
Qed.

Lemma path_eqb_eq (p q : path) : path_eqb p q = true <-> p = q.
Proof.
  unfold path_eqb. destruct (list_eq_dec string_dec p q); split;
    intros; try assumption; try reflexivity; try discriminate.
  contradiction.
Qed.

(** Among files with pairwise distinct paths, reading finds the file
    itself. *)
Lemma find_unique (l rest : list (path * content)) (p : path) (c : content) :
  NoDup (List.map fst l) -> In (p, c) l ->
  find (fun e => path_eqb (fst e) p) (l ++ rest) = Some (p, c).
Proof.
  induction l as [|[q c'] l IH]; intros Hnd Hin; [destruct Hin|].
  cbn in *. inversion Hnd as [|? ? Hq Hnd']; subst.
  destruct (path_eqb q p) eqn:E.
  - apply path_eqb_eq in E. subst q. destruct Hin as [Hin|Hin].
    + now injection Hin as <-.
    + exfalso. apply Hq. apply in_map_iff. now exists (p, c).
  - destruct Hin as [Hin|Hin].
    + injection Hin as -> _. assert (path_eqb p p = true)
        by now apply path_eqb_eq. congruence.
    + now apply IH.
Qed.

Lemma NoDup_map_coarser {A B C} (f : A -> B) (g : A -> C) (l : list A) :
  (forall a b, g a = g b -> f a = f b) ->
  NoDup (List.map f l) -> NoDup (List.map g l).
Proof.
  intros Hfg. induction l as [|a l IH]; cbn; intros H; [constructor|].
  inversion H as [|? ? Ha Hl]; subst. constructor; [|now apply IH].
  intros Hin. apply Ha. apply in_map_iff in Hin.
  destruct Hin as [b [E Hb]]. apply in_map_iff. exists b.
  split; [now apply Hfg | assumption].
Qed.

(** ** Decimal numerals *)

Lemma py_str_injective (a b : Z) : py_str a = py_str b -> a = b.
Proof.
  unfold py_str. intros E. apply to_int_inj.
  assert (H : forall z, NilZero.int_of_string
                          (NilZero.string_of_int (Z.to_int z))
                        = Some (Z.to_int z)).
  { intros z. apply NilZero.isi; destruct z; cbn; try discriminate;
      intros H; injection H; apply DecimalPos.Unsigned.to_uint_nonnil. }
  pose proof (H a) as Ha. rewrite E, H in Ha. now injection Ha.
Qed.

Lemma list_ascii_of_string_append (s1 s2 : string) :
  list_ascii_of_string (String.append s1 s2)
  = list_ascii_of_string s1 ++ list_ascii_of_string s2.
Proof. induction s1 as [|c s1 IH]; cbn; [reflexivity | now rewrite IH]. Qed.

Lemma append_cancel_r (s1 s2 suffix : string) :
  String.append s1 suffix = String.append s2 suffix -> s1 = s2.
Proof.
  intros E. apply (f_equal list_ascii_of_string) in E.
  rewrite !list_ascii_of_string_append in E. apply app_inv_tail in E.
  rewrite <- (string_of_list_ascii_of_string s1),
          <- (string_of_list_ascii_of_string s2).
  now rewrite E.
Qed.

(** Outside the WMS layout two rows with the same file have the same
    coordinates. *)
Lemma tile_path_injective (kw : kwargs) (image_format : string)
    (t t' : Z * Z * Z * bytes) :
  scheme_is kw "wms" = false ->
  tile_path kw image_format t = tile_path kw image_format t' ->
  fst t = fst t'.
Proof.
  destruct t as [[[z x] y] d], t' as [[[z' x'] y'] d'].
  unfold tile_path, export_file, export_dir, export_row. intros ->. cbn [fst].
  assert (H : forall r r',
             [py_str z; py_str x] ++ [String.append (py_str r)
                                        (String.append "." image_format)]
             = [py_str z'; py_str x'] ++ [String.append (py_str r')
                                           (String.append "." image_format)]
             -> z = z' /\ x = x' /\ r = r').
  { cbn. intros r r' E. injection E as Ez Ex Er.
    apply py_str_injective in Ez, Ex.
    apply append_cancel_r, py_str_injective in Er. auto. }
  destruct (scheme_is kw "xyz"); intros E; apply H in E;
    destruct E as (-> & -> & E); try apply flip_y_injective in E;
    now subst.
Qed.

(** Exporting into a place where nothing exists writes every row of the
    logical tile relation to its file, provided the coordinates are
    distinct, as the unique index has them. *)
Lemma export_writes_row (kw : kwargs) (c : conn) (t : Z * Z * Z * bytes) :
  scheme_is kw "wms" = false ->
  NoDup (List.map fst (select_tiles c)) ->
  In t (select_tiles c) ->
  exists out,
    mbtiles_to_disk kw (mk_export c None) = (Ok tt, mk_export c out)
    /\ read_file (tile_path kw (export_format c) t) out
       = Some (Blob (snd t)).
Proof.
  intros Hwms Hnd Hin.
  destruct (mbtiles_to_disk_fresh kw c) as [dirs [rest E]].
  eexists. split; [exact E|].
  unfold read_file. cbn [disk_files].
  rewrite (find_unique _ rest (tile_path kw (export_format c) t)
             (Blob (snd t))); [reflexivity | |].
  - rewrite <- map_rev, map_map.
    apply (NoDup_map_coarser (fun e => fst e)
             (fun e => fst (tile_entry kw (export_format c) e))).
    + intros a b. apply (tile_path_injective kw _ a b Hwms).
    + eapply Permutation_NoDup; [|exact Hnd].
      apply Permutation_map, Permutation_sym.
      etransitivity; [apply Permutation_sym, Permutation_rev|].
      apply sorted_by_perm.
  - apply in_rev. rewrite rev_involutive.
    apply (in_map (tile_entry kw (export_format c))).
    now apply sorted_by_In.
Qed.


(** ** Files whose name begins with a dot *)

Lemma for_each_filter_skip {S A} (p : A -> bool) (body : A -> M S unit)
    (l : list A) :
  (forall a s, p a = false -> body a s = (Ok tt, s)) ->
  forall s, for_each (filter p l) body s = for_each l body s.
Proof.
  intros Hskip. induction l as [|a l IH]; intros s; cbn; [reflexivity|].
  destruct (p a) eqn:E; cbn.
  - unfold bind. destruct (body a s) as [[u|e] s1]; [apply IH | reflexivity].
  - unfold bind. rewrite (Hskip a s E). apply IH.
Qed.

Lemma for_each_map {S A B} (g : A -> B) (body : B -> M S unit) (l : list A) :
  forall s, for_each (List.map g l) body s
            = for_each l (fun a => body (g a)) s.
Proof.
  induction l as [|a l IH]; intros s; cbn; [reflexivity|].
  unfold bind. destruct (body (g a) s) as [[u|e] s1]; [apply IH | reflexivity].
Qed.

Lemma for_each_ext {S A} (body body' : A -> M S unit) (l : list A) :
  (forall a s, body a s = body' a s) ->
  forall s, for_each l body s = for_each l body' s.
Proof.
  intros H. induction l as [|a l IH]; intros s; cbn; [reflexivity|].
  unfold bind. rewrite H. destruct (body' a s) as [[u|e] s1];
    [apply IH | reflexivity].
Qed.

Lemma import_file_dot (quiet : bool) (image_format scheme : string)
    (z x : Z) (e : entry) (s : session) :
  not_dot e = false ->
  import_file quiet image_format scheme z x e s = (Ok tt, s).
Proof.
  unfold not_dot, import_file. intros H. apply negb_false_iff in H.
  now rewrite H.
Qed.

Lemma import_column_dot (quiet : bool) (image_format scheme : string)
    (z : Z) (d : string * list entry) (s : session) :
  import_column quiet image_format scheme z (fst d, filter not_dot (snd d)) s
  = import_column quiet image_format scheme z d s.
Proof.
  unfold import_column, bind. cbn [fst snd].
  destruct (lift_option ValueError (py_int (strip_non_digits (fst d))) s)
    as [[x|e] s1]; [|reflexivity].
  rewrite <- (filter_sorted_by String.leb entry_name String.leb_total
                               string_leb_trans).
  apply for_each_filter_skip. intros e s2. apply import_file_dot.
Qed.

Lemma get_dirs_in_directories (f : list entry -> list entry)
    (l : list entry) :
  get_dirs (in_directories f l)
  = List.map (fun d => (fst d, f (snd d))) (get_dirs l).
Proof.
  induction l as [|[n c|n ch] l IH]; cbn; [reflexivity | assumption|].
  now rewrite <- IH.
Qed.

Lemma import_zoom_dot (quiet : bool) (image_format scheme : string)
    (d : string * list entry) (s : session) :
  import_zoom quiet image_format scheme
              (fst d, in_directories (filter not_dot) (snd d)) s
  = import_zoom quiet image_format scheme d s.
Proof.
  unfold import_zoom, bind. cbn [fst snd].
  destruct (lift_option ValueError (py_int (strip_non_digits (fst d))) s)
    as [[z|e] s1]; [|reflexivity].
  rewrite get_dirs_in_directories, sorted_by_map, for_each_map.
  apply for_each_ext. intros c s2. apply import_column_dot.
Qed.

Lemma sort_keys_map {S A} (key : A -> option Z) (g : A -> A) (l : list A)
    (s : S) :
  (forall a, key (g a) = key a) ->
  sort_keys key (List.map g l) s
  = match sort_keys key l s with
    | (Ok keyed, s') =>
        (Ok (List.map (fun ka => (fst ka, g (snd ka))) keyed), s')
    | (Raise e, s') => (Raise e, s')
    end.
Proof.
  intros Hkey. induction l as [|a l IH]; cbn; [reflexivity|].
  unfold bind. rewrite Hkey. destruct (key a) as [k|]; cbn; [|reflexivity].
  rewrite IH. now destruct (sort_keys key l s) as [[keyed|e] s1].
Qed.

Lemma zoom_levels_dot (t : tree) (s : session) :
  zoom_levels (without_dot_files t) s
  = match zoom_levels t s with
    | (Ok levels, s') =>
        (Ok (List.map
               (fun d => (fst d, in_directories (filter not_dot) (snd d)))
               levels), s')
    | (Raise e, s') => (Raise e, s')
    end.
Proof.
  unfold zoom_levels, without_dot_files, bind. cbn [listing].
  rewrite get_dirs_in_directories, sort_keys_map by reflexivity.
  destruct (sort_keys _ (get_dirs (listing t)) s) as [[keyed|e] s1];
    [|reflexivity].
  cbn. rewrite sorted_by_map, !map_map. reflexivity.
Qed.

Lemma import_tiles_dot (quiet : bool) (scheme : string) (compress : bool)
    (t : tree) (image_format : string) (s : session) :
  import_tiles quiet scheme compress (without_dot_files t) image_format s
  = import_tiles quiet scheme compress t image_format s.
Proof.
  unfold import_tiles, bind at 1 5. rewrite zoom_levels_dot.
  destruct (zoom_levels t s) as [[levels|e] s1]; [|reflexivity].
  unfold bind at 1 5. rewrite for_each_map.
  now rewrite (for_each_ext _ _ levels
                 (import_zoom_dot quiet image_format scheme)).
Qed.

(** ** Rows of a round trip, and the exporter's connection *)

Lemma round_trip_row_spec (kw : kwargs) (z y : Z) :
  export_row kw z (stored_row (kwargs_get (scheme kw) "xyz") z y)
  = round_trip_row kw z y.
Proof.
  unfold export_row, stored_row, round_trip_row, scheme_is, kwargs_get.
  destruct (scheme kw) as [s|]; [|reflexivity].
  destruct (String.eqb_spec s "xyz") as [->|Hx]; [reflexivity|].
  destruct (String.eqb_spec s "tms") as [->|Ht]; reflexivity.
Qed.

Lemma tile_path_xyz (kw : kwargs) (image_format : string) (z x y : Z)
    (d : bytes) :
  scheme_is kw "wms" = false ->
  tile_path kw image_format (z, x, y, d)
  = xyz_file image_format z x (export_row kw z y).
Proof.
  unfold tile_path, export_file, export_dir, xyz_file. intros ->.
  now destruct (scheme_is kw "xyz").
Qed.

(** Decoration of a directory name does not count: only its digits are
    read. *)
Lemma dir_number_decoration (name : string) :
  dir_number (strip_non_digits name) = dir_number name.
Proof.
  unfold dir_number. f_equal.
  induction name as [|c name IH]; cbn; [reflexivity|].
  destruct (is_digit c) eqn:E; cbn; [rewrite E; now f_equal | assumption].
Qed.

Lemma on_fs_source {A} (m : M fs A) (e : export) :
  source (snd (on_fs m e)) = source e.
Proof. unfold on_fs. now destruct (m (target e)). Qed.

(** The exporter leaves the connection as it found it. *)
Lemma mbtiles_to_disk_source (kw : kwargs) (e : export) :
  source (snd (mbtiles_to_disk kw e)) = source e.
Proof.
  unfold mbtiles_to_disk.
  apply (bind_snd (fun e' => source e' = source e));
    [apply on_fs_source | intros _ e1 H1].
  apply (bind_snd (fun e' => source e' = source e));
    [exact H1 | intros rows e2 H2].
  apply (bind_snd (fun e' => source e' = source e));
    [now rewrite on_fs_source | intros _ e3 H3].
  apply (bind_snd (fun e' => source e' = source e));
    [exact H3 | intros isdir e4 H4].
  apply (bind_snd (fun e' => source e' = source e)).
  { destruct (negb isdir); cbn [when];
      [now rewrite on_fs_source | exact H4]. }
  intros _ e5 H5.
  apply (bind_snd (fun e' => source e' = source e)).
  { destruct (dict_get "formatter" (py_dict rows)) as [formatter|];
      [|exact H5].
    destruct (negb (String.eqb formatter "")); cbn [when];
      [now rewrite on_fs_source | exact H5]. }
  intros _ e6 H6.
  apply (bind_snd (fun e' => source e' = source e));
    [exact H6 | intros tiles e7 H7].
  apply (for_each_preserves (fun e' => source e' = source e)); [|exact H7].
  intros t e8 _ H8. now rewrite on_fs_source.
Qed.

(** ** The WMS layout *)

Lemma scheme_is_wms (kw : kwargs) :
  scheme_is kw "wms" = true ->
  scheme_is kw "xyz" = false /\ kwargs_get (scheme kw) "xyz" = "wms".
Proof.
  unfold scheme_is. destruct (scheme kw) as [name|]; [|discriminate].
  intros H. apply String.eqb_eq in H. now subst name.
Qed.

Lemma tile_path_wms (kw : kwargs) (image_format : string) (z x y : Z)
    (d : bytes) :
  scheme_is kw "wms" = true ->
  tile_path kw image_format (z, x, y, d)
  = wms_file (kwargs_get (format kw) "png") z x y.
Proof.
  intros H. destruct (scheme_is_wms kw H) as [Hx _].
  unfold tile_path, export_file, export_dir, export_row, wms_file.
  now rewrite H, Hx.
Qed.

Lemma find_app_first {A} (f : A -> bool) (l r : list A) (a : A) :
  In a l -> f a = true ->
  exists b, In b l /\ f b = true /\ find f (l ++ r) = Some b.
Proof.
  induction l as [|c l IH]; intros Hin Ha; [destruct Hin|]. cbn.
  destruct (f c) eqn:Ec.
  - exists c. repeat split; [now left | assumption].
  - destruct Hin as [->|Hin]; [congruence|].
    destruct (IH Hin Ha) as [b (Hb & Hfb & E)].
    exists b. repeat split; [now right | assumption | assumption].
Qed.

(** Whatever the layout, the file of a row of the container is written,
    and holds the payload of a row of the container with that file. *)
Lemma export_writes_some (kw : kwargs) (c : conn) (t : Z * Z * Z * bytes) :
  In t (select_tiles c) ->
  exists out t',
    mbtiles_to_disk kw (mk_export c None) = (Ok tt, mk_export c out)
    /\ In t' (select_tiles c)
    /\ tile_path kw (export_format c) t' = tile_path kw (export_format c) t
    /\ read_file (tile_path kw (export_format c) t) out
       = Some (Blob (snd t')).
Proof.
  intros Hin.
  destruct (mbtiles_to_disk_fresh kw c) as [dirs [rest E]].
  destruct (find_app_first
              (fun e => path_eqb (fst e) (tile_path kw (export_format c) t))
              (rev (List.map (tile_entry kw (export_format c))
                             (tiles_by_zoom c)))
              rest (tile_entry kw (export_format c) t))
    as [e (He & Hp & Hfind)].
  - apply -> in_rev. apply in_map. unfold tiles_by_zoom.
    now apply sorted_by_In.
  - now apply path_eqb_eq.
  - apply in_rev in He. apply in_map_iff in He.
    destruct He as [t' [<- Ht']]. unfold tiles_by_zoom in Ht'.
    apply sorted_by_In in Ht'. cbn [tile_entry fst] in Hp.
    apply path_eqb_eq in Hp.
    eexists. exists t'. split; [exact E|]. split; [exact Ht'|].
    split; [exact Hp|]. unfold read_file. cbn [disk_files].
    now rewrite Hfind.
Qed.

(** * The claims *)

(** C1 (as amended).  On a container filled with N tiles the pass with a
    positive chunk size completes; [map] gets exactly N rows, one per
    original (zoom, column, row) in table order, and joining [map] to
    [images] gives back the original table, payload for payload.  [images]
    holds, round after round, the distinct payloads of the rows fetched in
    that round: between D and N rows in all, and exactly D rows with every
    byte sequence once when the N tiles fit in one round. *)
Theorem compression_do_dedup (chunk : Z) (c : conn) :
  0 < chunk -> raw_container c ->
  exists l,
    compression_do chunk (enter_compression c) = (Ok tt, l)
    /\ List.length (map (con l)) = List.length (tiles c)
    /\ List.map (fun m => (map_zoom_level m, map_tile_column m,
                           map_tile_row m)) (map (con l))
       = List.map (fun t => (zoom_level t, tile_column t, tile_row t))
                  (tiles c)
    /\ join_map_images (con l) = List.map tile_fields (tiles c)
    /\ List.map image_data (images (con l))
       = List.concat (List.map round_payloads (rounds chunk c))
    /\ (distinct_count (List.map tile_data (tiles c))
        <= List.length (images (con l)) <= List.length (tiles c))%nat
    /\ (Z.of_nat (List.length (tiles c)) <= chunk ->
        List.length (images (con l))
        = distinct_count (List.map tile_data (tiles c))
        /\ NoDup (List.map image_data (images (con l)))).
Proof.
  intros Hc Hraw.
  destruct (compression_do_spec chunk c Hc Hraw)
    as [l [E (Ht & Hmap & Hids & Hdata & Htot & Huni & Hlast & Hsum & Hov
                 & Himg)]].
  pose proof (join_stands_for _ _ _ Hmap) as Hjoin.
  fold (join_map_images (con l)) in Hjoin.
  exists l. split; [exact E|]. split; [|split; [|split; [|split; [|split]]]].
  - exact (Forall2_length Hmap).
  - clear - Hmap. induction Hmap as [|m t ms ts (Hz & Hx & Hy & _) H IH];
      cbn; [reflexivity|]. now rewrite IH, Hz, Hx, Hy.
  - exact Hjoin.
  - exact Hdata.
  - split; [|lia].
    rewrite <- (length_map image_data (images (con l))).
    unfold distinct_count. apply NoDup_incl_length; [apply NoDup_nodup|].
    intros d Hd. apply nodup_In, in_map_iff in Hd.
    destruct Hd as [t [<- Hin]].
    assert (Hj : In (tile_fields t) (join_map_images (con l)))
      by (rewrite Hjoin; now apply in_map).
    unfold join_map_images in Hj. apply in_flat_map in Hj.
    destruct Hj as [m [_ Hj]]. apply in_map_iff in Hj.
    destruct Hj as [i [Ei Hi]]. apply filter_In in Hi.
    apply in_map_iff. exists i. unfold tile_fields in Ei.
    split; [congruence | tauto].
  - intros Hn. destruct Hraw as (Hr & _).
    rewrite (rounds_single chunk c Hc Hr Hn) in Hdata.
    rewrite <- (length_map image_data (images (con l))), Hdata.
    unfold round_payloads. split.
    + apply distinct_from_count.
    + apply distinct_from_NoDup. constructor.
Qed.

Lemma compression_do_dedup_witness :
  exists l,
    compression_do 256 (enter_compression
                          (mk_conn (same_payload_tiles 3 [Byte.x41])
                                   [] [] [] false []))
    = (Ok tt, l)
    /\ List.length (images (con l)) = 1%nat
    /\ List.length (map (con l)) = 3%nat.
Proof.
  destruct (compression_do_dedup 256
              (mk_conn (same_payload_tiles 3 [Byte.x41]) [] [] [] false []))
    as [l (E & Hm & _ & _ & _ & _ & Hone)].
  - lia.
  - unfold raw_container. cbn. repeat split; reflexivity.
  - exists l. split; [exact E|]. split.
    + destruct Hone as [Hlen _]; [cbn; lia|]. rewrite Hlen. reflexivity.
    + rewrite Hm. reflexivity.
Defined.

(** C1 (as stated) fails: 257 tiles with one and the same payload, D = 1,
    leave two rows in [images] when the chunk size is 256. *)
Lemma dedup_across_rounds_counterexample :
  raw_container container_257
  /\ distinct_count (List.map tile_data (tiles container_257)) = 1%nat
  /\ fst (compression_do 256 (enter_compression container_257)) = Ok tt
  /\ List.map image_data
       (images (con (snd (compression_do 256
                            (enter_compression container_257)))))
     = [[Byte.x41]; [Byte.x41]].
Proof.
  split; [|split; [|split]].
  - unfold raw_container. split; [|split; reflexivity].
    vm_compute. repeat split.
  - vm_compute. reflexivity.
  - vm_compute. reflexivity.
  - vm_compute. reflexivity.
Qed.

(** C2 (as amended).  When a tree with ASCII names is imported without
    compression and the container is exported into a new place with the
    same keyword arguments (a plain extension, row numbers of at most a
    hundred digits), the export completes and every tile file of the tree
    (zoom directory, column directory, file with the effective extension)
    has its payload written, byte for byte, at its zoom, its column and
    the row [row']: zoom and column are the digits of the directory
    names, and [row'] is [flip_y] of the file's row for the schemes [xyz]
    and [tms], and the file's row itself for every other scheme, [wms]
    included, and for none.  The place is [<zoom>/<column>/<row'>.<format>];
    under [wms] it is the file of the WMS layout, which two rows can share
    (rows -5 and 999995 do): the file then holds the payload of one of the
    tiles that share it. *)
Theorem import_then_export (t : tree) (kw : kwargs) (s : session) :
  compression kw = false ->
  ascii_names t = true ->
  disk_to_mbtiles t kw = (Ok tt, s) ->
  export_ready kw (db s) = true ->
  exists out,
    mbtiles_to_disk kw (mk_export (db s) None)
    = (Ok tt, mk_export (db s) out)
    /\ forall zoom_dir zs col_dir cs name d,
         In (Directory zoom_dir zs) (listing t) ->
         In (Directory col_dir cs) zs ->
         In (File name d) cs ->
         accepted (import_format t kw) name = true ->
         exists z x y,
           dir_number zoom_dir = Some z
           /\ dir_number col_dir = Some x
           /\ file_row name = Some y
           /\ if scheme_is kw "wms" then
                exists z' x' y' d',
                  In (z', x', y', d') (select_tiles (db s))
                  /\ wms_file (kwargs_get (format kw) "png") z' x' y'
                     = wms_file (kwargs_get (format kw) "png") z x y
                  /\ read_file (wms_file (kwargs_get (format kw) "png")
                                         z x y) out
                     = Some (Blob d')
              else
                read_file (xyz_file (export_format (db s)) z x
                                    (round_trip_row kw z y)) out
                = Some (Blob d).
Proof.
  intros Hc _ E _. rewrite disk_to_mbtiles_unfold, Hc in E.
  destruct (import_tiles_plain _ _ _ _ _ _ _
              (after_metadata_inv (silent kw) t) E)
    as [levels [s1 (Hperm & Ewalk & Hw & Ht & Hmd & Hv)]].
  assert (Hsel : select_tiles (db s) = List.map tile_fields (tiles (db s1))).
  { unfold select_tiles. now rewrite Hv, Ht. }
  assert (Hnd : NoDup (List.map fst (select_tiles (db s)))).
  { rewrite Hsel, map_map. destruct Hw as (_ & _ & _ & Hnd & _).
    exact Hnd. }
  destruct (mbtiles_to_disk_fresh kw (db s)) as [dirs [rest Eout]].
  eexists. split; [exact Eout|].
  intros zoom_dir zs col_dir cs name d Hz Hcol Hfile Hacc.
  destruct (walk_ok _ _ _ _ _ _ Ewalk zoom_dir zs col_dir cs name d)
    as [z [x [y (Hzn & Hxn & Hyn & Hrow)]]]; try assumption.
  { eapply Permutation_in; [apply Permutation_sym, Hperm|].
    now apply get_dirs_In. }
  exists z, x, y. repeat split; try assumption.
  rewrite <- Hsel in Hrow.
  destruct (scheme_is kw "wms") eqn:Hwms.
  - destruct (scheme_is_wms kw Hwms) as [_ Hname].
    rewrite Hname in Hrow. change (stored_row "wms" z y) with y in Hrow.
    destruct (export_writes_some kw (db s) _ Hrow)
      as [out' [[[[z' x'] y'] d'] (E' & Hin' & Hsame & Hread)]].
    rewrite Eout in E'. injection E' as <-.
    rewrite !tile_path_wms in Hsame by exact Hwms.
    rewrite tile_path_wms in Hread by exact Hwms.
    exists z', x', y', d'. repeat split; assumption.
  - destruct (export_writes_row kw (db s) _ Hwms Hnd Hrow)
      as [out' [E' Hread]].
    rewrite Eout in E'. injection E' as <-.
    rewrite (tile_path_xyz kw _ _ _ _ _ Hwms), round_trip_row_spec in Hread.
    exact Hread.
Qed.

Lemma import_then_export_witness :
  exists out,
    mbtiles_to_disk (kwargs_of (Some "xyz"))
      (mk_export (db (snd (disk_to_mbtiles tree_z1 (kwargs_of (Some "xyz")))))
                 None)
    = (Ok tt,
       mk_export (db (snd (disk_to_mbtiles tree_z1 (kwargs_of (Some "xyz")))))
                 out)
    /\ read_file ["1"; "0"; "1.pbf"] out = Some (Blob payload_A).
Proof.
  destruct (import_then_export tree_z1 (kwargs_of (Some "xyz"))
              (snd (disk_to_mbtiles tree_z1 (kwargs_of (Some "xyz")))))
    as [out [E H]]; try reflexivity.
  exists out. split; [exact E|].
  destruct (H "z1" [Directory "0" [File "0.pbf" payload_A]]
              "0" [File "0.pbf" payload_A] "0.pbf" payload_A)
    as [z [x [y (Hz & Hx & Hy & Hr)]]];
    try (now left); try reflexivity.
  vm_compute in Hz, Hx, Hy. injection Hz as <-. injection Hx as <-.
  injection Hy as <-. exact Hr.
Defined.

(** C2 (as stated) fails: the tile [z1/0/0.pbf], imported and exported
    under [xyz], or imported and exported under [tms], comes out as
    [1/0/1.pbf]; nothing is written at row 0.  Under [wms] no row is
    flipped, but the tiles [0/0/-5.pbf] and [0/0/999995.pbf] are written
    to one file of the layout, which holds the payload of the second:
    the payload of the first is nowhere to be read. *)
Lemma round_trip_counterexample :
  (let kw := kwargs_of (Some "xyz") in
   let c := db (snd (disk_to_mbtiles tree_z1 kw)) in
   let out := target (snd (mbtiles_to_disk kw (mk_export c None))) in
   fst (disk_to_mbtiles tree_z1 kw) = Ok tt
   /\ fst (mbtiles_to_disk kw (mk_export c None)) = Ok tt
   /\ read_file ["1"; "0"; "0.pbf"] out = None
   /\ read_file ["1"; "0"; "1.pbf"] out = Some (Blob payload_A))
  /\ (let kw := kwargs_of (Some "tms") in
      let c := db (snd (disk_to_mbtiles tree_z1 kw)) in
      let out := target (snd (mbtiles_to_disk kw (mk_export c None))) in
      fst (disk_to_mbtiles tree_z1 kw) = Ok tt
      /\ fst (mbtiles_to_disk kw (mk_export c None)) = Ok tt
      /\ read_file ["1"; "0"; "0.pbf"] out = None
      /\ read_file ["1"; "0"; "1.pbf"] out = Some (Blob payload_A))
  /\ (let kw := kwargs_of (Some "wms") in
      let c := db (snd (disk_to_mbtiles tree_minus5 kw)) in
      let out := target (snd (mbtiles_to_disk kw (mk_export c None))) in
      fst (disk_to_mbtiles tree_minus5 kw) = Ok tt
      /\ select_tiles c = [(0, 0, -5, payload_A); (0, 0, 999995, payload_B)]
      /\ fst (mbtiles_to_disk kw (mk_export c None)) = Ok tt
      /\ wms_file "png" 0 0 (-5)
         = ["00"; "000"; "000"; "000"; "000"; "999"; "995.png"]
      /\ wms_file "png" 0 0 999995
         = ["00"; "000"; "000"; "000"; "000"; "999"; "995.png"]
      /\ read_file ["00"; "000"; "000"; "000"; "000"; "999"; "995.png"] out
         = Some (Blob payload_B)).
Proof. vm_compute. repeat split. Qed.

(** C3.  For every zoom >= 0 and every row in [0, 2^zoom), [flip_y] is
    [(2^zoom - 1) - row]; it stays in the range and applying it twice gives
    the row back. *)
Theorem flip_y_involution (zoom row : Z) :
  0 <= zoom -> 0 <= row < 2 ^ zoom ->
  flip_y zoom row = (2 ^ zoom - 1) - row
  /\ 0 <= flip_y zoom row < 2 ^ zoom
  /\ flip_y zoom (flip_y zoom row) = row.
Proof.
  intros Hz Hr. split; [reflexivity|]. split.
  - now apply flip_y_range.
  - apply flip_y_involutive.
Qed.

Lemma flip_y_involution_witness :
  flip_y 2 1 = 2 /\ flip_y 2 (flip_y 2 1) = 1.
Proof.
  destruct (flip_y_involution 2 1) as (H1 & _ & H2).
  - lia.
  - cbn. lia.
  - split; [exact H1 | exact H2].
Defined.

(** C4 (as amended).  Exporting a container that holds a tile at (zoom 2,
    column 1, row 1): with scheme [tms] the tile is written with the row
    component 1, the stored row unchanged; it is with scheme [xyz] that it
    is written with the row component [flip_y 2 1 = 2]. *)
Theorem export_row_component (c : conn) (kw : kwargs) (data : bytes) :
  NoDup (List.map fst (select_tiles c)) ->
  In (2, 1, 1, data) (select_tiles c) ->
  exists out,
    mbtiles_to_disk kw (mk_export c None) = (Ok tt, mk_export c out)
    /\ match scheme kw with
       | Some "tms" =>
           read_file ["2"; "1"; String.append "1"
                                  (String.append "." (export_format c))] out
           = Some (Blob data)
       | Some "xyz" =>
           flip_y 2 1 = 2
           /\ read_file ["2"; "1"; String.append "2"
                                     (String.append "." (export_format c))] out
              = Some (Blob data)
       | _ => True
       end.
Proof.
  intros Hnd Hin.
  destruct (mbtiles_to_disk_fresh kw c) as [dirs [rest Eout]].
  eexists. split; [exact Eout|].
  destruct (scheme kw) as [s|] eqn:Es; [|exact I].
  assert (Hrow : scheme_is kw "wms" = false ->
                 read_file (xyz_file (export_format c) 2 1 (export_row kw 2 1))
                           (Some (mk_disk dirs
                                    (rev (List.map
                                            (tile_entry kw (export_format c))
                                            (tiles_by_zoom c)) ++ rest)))
                 = Some (Blob data)).
  { intros Hwms.
    destruct (export_writes_row kw c _ Hwms Hnd Hin) as [out' [E' Hread]].
    rewrite Eout in E'. injection E' as <-.
    now rewrite (tile_path_xyz kw _ _ _ _ _ Hwms) in Hread. }
  unfold export_row, scheme_is in Hrow. rewrite Es in Hrow.
  destruct (String.eqb_spec s "tms") as [->|Ht].
  - exact (Hrow eq_refl).
  - destruct (String.eqb_spec s "xyz") as [->|Hx].
    + split; [reflexivity | exact (Hrow eq_refl)].
    + clear Hrow.
      repeat match goal with
             | |- match ?x with _ => _ end => destruct x; try exact I
             end; congruence.
Qed.

Lemma export_row_component_witness :
  exists out,
    mbtiles_to_disk (kwargs_of (Some "tms")) (mk_export container_211 None)
    = (Ok tt, mk_export container_211 out)
    /\ read_file ["2"; "1"; "1.pbf"] out = Some (Blob payload_A).
Proof.
  destruct (export_row_component container_211 (kwargs_of (Some "tms"))
              payload_A) as [out [E H]].
  - cbn. constructor; [intros [] | constructor].
  - cbn. now left.
  - exists out. split; [exact E | exact H].
Defined.

(** C4 (as stated) fails: under [tms] the tile stored at (2, 1, 1) is
    written to [2/1/1.pbf], and no file with the row component
    [flip_y 2 1 = 2] exists. *)
Lemma export_tms_counterexample :
  let run := mbtiles_to_disk (kwargs_of (Some "tms"))
                             (mk_export container_211 None) in
  fst run = Ok tt
  /\ flip_y 2 1 = 2
  /\ read_file ["2"; "1"; "2.pbf"] (target (snd run)) = None
  /\ read_file ["2"; "1"; "1.pbf"] (target (snd run)) = Some (Blob payload_A).
Proof. vm_compute. repeat split. Qed.

(** C5, at the failing input: a row file [r5.pbf] is not imported as row 5,
    the import aborts with [ValueError] and the container has no tile;
    [5.pbf] is imported as row 5, and a directory named [z3] is read as
    3. *)
Theorem decorated_row_stem :
  fst (disk_to_mbtiles tree_r5 (kwargs_of None)) = Raise ValueError
  /\ tiles (db (snd (disk_to_mbtiles tree_r5 (kwargs_of None)))) = []
  /\ file_row "r5.pbf" = None
  /\ py_int (strip_non_digits "r5") = Some 5
  /\ List.map tile_fields
       (tiles (db (snd (disk_to_mbtiles tree_5 (kwargs_of None)))))
     = [(0, 0, 5, payload_A)]
  /\ dir_number "z3" = Some 3.
Proof. vm_compute. repeat split. Qed.

(** C6.  When the N payloads are pairwise distinct the pass stores N rows
    in [images] and N rows in [map], counts every tile as unique and none
    as overlapping. *)
Theorem compression_do_all_unique (chunk : Z) (c : conn) :
  0 < chunk -> raw_container c ->
  NoDup (List.map tile_data (tiles c)) ->
  exists l,
    compression_do chunk (enter_compression c) = (Ok tt, l)
    /\ List.length (images (con l)) = List.length (tiles c)
    /\ List.length (map (con l)) = List.length (tiles c)
    /\ overlapping l = 0
    /\ unique l = Z.of_nat (List.length (tiles c)).
Proof.
  intros Hc Hraw Hnd.
  destruct (compression_do_spec chunk c Hc Hraw)
    as [l [E (Ht & Hmap & Hids & Hdata & Htot & Huni & Hlast & Hsum & Hov
                 & Himg)]].
  rewrite (rounds_payloads_NoDup chunk c Hnd) in Hdata.
  destruct Hraw as (Hr & _). rewrite (rounds_cover chunk c Hc Hr) in Hdata.
  assert (Hlen : List.length (images (con l)) = List.length (tiles c)).
  { rewrite <- (length_map image_data), Hdata. apply length_map. }
  exists l. split; [exact E|]. split; [exact Hlen|]. split.
  - exact (Forall2_length Hmap).
  - rewrite Hlen in Huni. lia.
Qed.

Lemma compression_do_all_unique_witness :
  exists l,
    compression_do 256 (enter_compression container_abc) = (Ok tt, l)
    /\ overlapping l = 0
    /\ List.length (images (con l)) = 3%nat.
Proof.
  destruct (compression_do_all_unique 256 container_abc)
    as [l (E & Hi & _ & Ho & _)].
  - lia.
  - unfold raw_container. cbn. repeat split; reflexivity.
  - cbn. repeat constructor; cbn; intuition discriminate.
  - exists l. split; [exact E|]. split; [exact Ho | exact Hi].
Defined.

(** C7 (as amended).  An import issues no commit while it inserts tiles:
    its journal is a first part without any commit, which holds all the
    tile inserts, as many as [count], followed by a part without tile
    inserts.  When the import completes the second part ends with the
    commit of line 270 (the commits of the compression rounds, if any,
    come before it); when it fails nothing at all was committed. *)
Theorem import_single_transaction (t : tree) (kw : kwargs) :
  let r := fst (disk_to_mbtiles t kw) in
  let s := snd (disk_to_mbtiles t kw) in
  exists walk rest,
    journal (db s) = walk ++ rest
    /\ existsb (fun e => match e with Commit => true | _ => false end) walk
       = false
    /\ existsb is_tile_insert rest = false
    /\ Z.of_nat (List.length (filter is_tile_insert walk)) = count s
    /\ match r with
       | Ok _ => exists rest', rest = rest' ++ [Commit]
       | Raise _ => rest = []
       end.
Proof.
  cbn zeta. rewrite disk_to_mbtiles_unfold.
  destruct (import_tiles_journal (silent kw) (kwargs_get (scheme kw) "xyz")
              (compression kw) t (import_format t kw) _ _
              (after_metadata_inv (silent kw) t))
    as [_ [walk [rest (Ej & Hco & Hrest & Hcnt & Hok & Hfail)]]].
  exists walk, rest. split; [exact Ej|]. split; [|split; [|split]].
  - apply not_true_is_false. intros H. apply existsb_exists in H.
    destruct H as [[tb|] [Hin H]]; [discriminate | contradiction].
  - apply not_true_is_false. intros H. apply existsb_exists in H.
    destruct H as [e [Hin H]]. unfold no_tile_inserts in Hrest.
    rewrite Forall_forall in Hrest. specialize (Hrest e Hin). congruence.
  - exact Hcnt.
  - destruct (fst (import_tiles _ _ _ _ _ _)) as [[]|e].
    + now apply Hok.
    + apply Hfail. discriminate.
Qed.

Lemma import_single_transaction_witness :
  exists walk rest,
    [Insert Tiles; Commit] = walk ++ rest
    /\ existsb (fun e => match e with Commit => true | _ => false end) walk
       = false
    /\ existsb is_tile_insert rest = false
    /\ Z.of_nat (List.length (filter is_tile_insert walk)) = 1
    /\ exists rest', rest = rest' ++ [Commit].
Proof. exact (import_single_transaction tree_z1 (kwargs_of None)). Defined.

(** C7 (as stated) fails: importing 257 tiles inserts all 257 rows before
    the first and only commit; no commit follows the 256th. *)
Lemma import_batches_counterexample :
  fst (disk_to_mbtiles tree_257 (kwargs_of None)) = Ok tt
  /\ journal (db (snd (disk_to_mbtiles tree_257 (kwargs_of None))))
     = repeat (Insert Tiles) 257 ++ [Commit].
Proof. vm_compute. split; reflexivity. Qed.

(** C8.  When the destination already exists the export fails with
    [FileExistsError] at [os.mkdir]: nothing is written, what exists at
    the destination is left as it is and so is the container, which no
    export ever modifies. *)
Theorem export_into_existing_directory (kw : kwargs) (c : conn) (d : disk) :
  mbtiles_to_disk kw (mk_export c (Some d))
  = (Raise FileExistsError, mk_export c (Some d))
  /\ forall e, source (snd (mbtiles_to_disk kw e)) = source e.
Proof.
  split; [reflexivity|]. intros e. apply mbtiles_to_disk_source.
Qed.

(** C9 (as amended).  The import runs the walk with the effective image
    format from the session that loading the metadata leaves, and the
    metadata rows stay to the end.  With a document, every one of its keys
    has a metadata row (the rows are the document itself when its keys are
    distinct), no warning is given, and the document's [format], when
    present, is the effective format whatever was configured.  Without a
    document nothing is inserted, the effective format is the configured
    one or [pbf], and a warning is given unless the run is silent. *)
Theorem import_metadata (t : tree) (kw : kwargs) :
  disk_to_mbtiles t kw
  = import_tiles (silent kw) (kwargs_get (scheme kw) "xyz") (compression kw)
                 t (import_format t kw) (after_metadata (silent kw) t)
  /\ metadata (db (snd (disk_to_mbtiles t kw)))
     = metadata (db (after_metadata (silent kw) t))
  /\ match metadata_json t with
     | Some members =>
         metadata (db (after_metadata (silent kw) t)) = py_dict members
         /\ incl (List.map fst members) (List.map fst (py_dict members))
         /\ (if distinct_keys String.eqb fst members
             then py_dict members = members else True)
         /\ warnings (after_metadata (silent kw) t) = []
         /\ import_format t kw
            = match dict_get "format" (py_dict members) with
              | Some f => f
              | None => kwargs_get (format kw) "pbf"
              end
     | None =>
         metadata (db (after_metadata (silent kw) t)) = []
         /\ journal (db (after_metadata (silent kw) t)) = []
         /\ warnings (after_metadata (silent kw) t)
            = (if silent kw then [] else [MetadataNotFound])
         /\ import_format t kw = kwargs_get (format kw) "pbf"
     end.
Proof.
  split; [apply disk_to_mbtiles_unfold|]. split.
  - rewrite disk_to_mbtiles_unfold.
    destruct (import_tiles_journal (silent kw) (kwargs_get (scheme kw) "xyz")
                (compression kw) t (import_format t kw) _ _
                (after_metadata_inv (silent kw) t)) as [Hmd _].
    exact Hmd.
  - unfold import_format, after_metadata, loaded_metadata.
    destruct (metadata_json t) as [members|]; cbn.
    + repeat split.
      * intros k. apply py_dict_keys.
      * destruct (distinct_keys String.eqb fst members) eqn:E; [|exact I].
        now apply py_dict_distinct.
    + repeat split.
Qed.

Lemma import_metadata_witness :
  metadata (db (snd (disk_to_mbtiles tree_png (kwargs_of None))))
  = [("name", "demo"); ("format", "png")]
  /\ import_format tree_png (kwargs_of None) = "png".
Proof.
  destruct (import_metadata tree_png (kwargs_of None)) as (_ & H & _ & _).
  split; [exact H | reflexivity].
Defined.

(** C9 (as stated) fails on the warning: a silent import of a tree without
    metadata document completes and gives no warning. *)
Lemma silent_import_counterexample :
  disk_to_mbtiles (mk_tree None []) (mk_kwargs true None None false)
  = (Ok tt, mk_session (mk_conn [] [] [] [] false [Commit]) [] 0).
Proof. reflexivity. Qed.

(** C10.  An entry of a column directory whose name begins with a dot is
    passed over without a warning and without a row, whatever its
    extension, the image format and the other arguments; and an import
    gives the same outcome and the same session with such entries as
    without them. *)
Theorem dot_files_skipped (t : tree) (kw : kwargs) :
  (forall quiet image_format scheme z x stem content s,
      import_file quiet image_format scheme z x
                  (File (String "." stem) content) s
      = (Ok tt, s))
  /\ (forall quiet image_format scheme z x stem children s,
         import_file quiet image_format scheme z x
                     (Directory (String "." stem) children) s
         = (Ok tt, s))
  /\ disk_to_mbtiles (without_dot_files t) kw = disk_to_mbtiles t kw.
Proof.
  split; [reflexivity|]. split; [reflexivity|].
  rewrite !disk_to_mbtiles_unfold.
  unfold import_format, after_metadata, loaded_metadata.
  cbn [without_dot_files metadata_json].
  apply import_tiles_dot.
Qed.

Lemma dot_files_skipped_witness :
  List.map tile_fields
           (tiles (db (snd (disk_to_mbtiles tree_png (kwargs_of None)))))
  = [(3, 1, 2, payload_A)]
  /\ warnings (snd (disk_to_mbtiles tree_png (kwargs_of None)))
     = [Skipping "2.pbf" "png"].
Proof.
  destruct (dot_files_skipped tree_png (kwargs_of None)) as (_ & _ & <-).
  split; reflexivity.
Defined.

(** * Further properties *)

(** ** Surrogate identifiers *)

Lemma ids_upto_succ (n : Z) :
  0 <= n -> ids_upto (n + 1) = ids_upto n ++ [n + 1].
Proof.
  intros Hn. unfold ids_upto.
  replace (Z.to_nat (n + 1)) with (S (Z.to_nat n)) by lia.
  rewrite seq_S, map_app. cbn. f_equal. f_equal. lia.
Qed.

(** Whatever a row does, the identifiers in [images] stay the counter's
    values so far. *)
Lemma compression_row_ids (r : tile) (l : locals) :
  0 <= last_id l /\ List.map image_id (images (con l)) = ids_upto (last_id l) ->
  let l' := snd (compression_row r l) in
  0 <= last_id l'
  /\ List.map image_id (images (con l')) = ids_upto (last_id l').
Proof.
  intros [Hn Hids]. unfold compression_row, bind, modify, gets. cbn [files].
  destruct (py_in (tile_data r) (files l)); cbn.
  - destruct (py_index (tile_data r) (files l)) as [k|]; cbn; [|now split].
    destruct (nth_error (ids l) k) as [id|]; cbn; now split.
  - split; [lia|]. rewrite map_app, Hids, ids_upto_succ by assumption.
    reflexivity.
Qed.

Lemma compression_do_ids (chunk : Z) (c : conn) :
  images c = [] ->
  let l := snd (compression_do chunk (enter_compression c)) in
  0 <= last_id l /\ List.map image_id (images (con l)) = ids_upto (last_id l).
Proof.
  intros Hi.
  set (P := fun l : locals =>
              0 <= last_id l
              /\ List.map image_id (images (con l)) = ids_upto (last_id l)).
  assert (P0 : P (enter_compression c)).
  { unfold P, enter_compression; cbn. rewrite Hi. split; [lia | reflexivity]. }
  unfold compression_do, bind, gets.
  destruct (chunk =? 0); cbn [snd]; [exact P0|].
  apply (for_each_preserves P); [|exact P0].
  intros i l1 _ H1. unfold compression_round.
  apply (bind_snd P); [exact H1 | intros _ l2 H2].
  apply (bind_snd P); [exact H2 | intros rows l3 H3].
  apply (bind_snd P).
  - apply (for_each_preserves P); [|exact H3].
    intros r l4 _. apply compression_row_ids.
  - intros _ l4 H4. exact H4.
Qed.

Lemma map_coords_stands_for (c : conn) (ms : list mapping) (ts : list tile) :
  Forall2 (stands_for c) ms ts ->
  List.map (fun m => (map_zoom_level m, map_tile_column m, map_tile_row m)) ms
  = List.map coords ts.
Proof.
  induction 1 as [|m t ms ts (Hz & Hx & Hy & _) H IH]; cbn; [reflexivity|].
  unfold coords at 1. now rewrite IH, Hz, Hx, Hy.
Qed.

(** The three compression steps on a flat container. *)
Lemma compress_run (chunk : Z) (c : conn) :
  0 < chunk -> flat_container c ->
  exists l,
    compression_do chunk (enter_compression c) = (Ok tt, l)
    /\ compress chunk c
       = (Ok tt, mk_conn [] (metadata (con l)) (images (con l)) (map (con l))
                         true (journal (con l)))
    /\ round_inv c (tiles c)
                 (List.concat (List.map round_payloads (rounds chunk c))) l.
Proof.
  intros Hc (Hraw & Hv & Hnd).
  destruct (compression_do_spec chunk c Hc Hraw) as [l [E Hinv]].
  exists l. split; [exact E|]. split; [|exact Hinv].
  destruct Hinv as (Ht & Hmap & Hids & Hdata & Htot & Huni & Hlast & Hsum
                    & Hov & Himg).
  unfold compress, bind, compression_prepare, ret. rewrite E.
  unfold compression_finalize.
  rewrite (distinct_keys_NoDup coords_eqb _ (map (con l)) coords_eqb_eq)
    by (rewrite (map_coords_stands_for _ _ _ Hmap); exact Hnd).
  rewrite (distinct_keys_NoDup Z.eqb image_id (images (con l))
             (fun a b => proj1 (Z.eqb_eq a b)) Himg).
  reflexivity.
Qed.

(** X1.  Compression does not change what the container holds: on a flat
    container the three steps complete, the table [tiles] is gone, and the
    view that replaces it returns the rows the table had, each once, in
    whatever order the engine lists them; the metadata is as it was. *)
Theorem compress_keeps_tiles (chunk : Z) (c : conn) :
  0 < chunk -> flat_container c ->
  exists c',
    compress chunk c = (Ok tt, c')
    /\ Permutation (select_tiles c') (select_tiles c)
    /\ metadata c' = metadata c
    /\ tiles c' = [] /\ is_view c' = true.
Proof.
  intros Hc Hflat.
  destruct (compress_run chunk c Hc Hflat) as [l (E & Ec & Hinv)].
  eexists. split; [exact Ec|].
  destruct Hinv as (Ht & Hmap & _). destruct Hflat as (_ & Hv & _).
  pose proof (compression_do_frame chunk (enter_compression c)) as [Hm _].
  rewrite E in Hm. cbn in Hm.
  unfold select_tiles. rewrite Hv. cbn [is_view metadata tiles].
  repeat split; try assumption.
  unfold join_map_images. cbn [images map].
  now rewrite (join_stands_for (con l) _ _ Hmap).
Qed.

Lemma compress_keeps_tiles_witness :
  exists c',
    compress 256 container_abc = (Ok tt, c')
    /\ Permutation
         (select_tiles c')
         [(0, 0, 0, [Byte.x41]); (1, 0, 0, [Byte.x42]); (1, 0, 1, [Byte.x43])].
Proof.
  destruct (compress_keeps_tiles 256 container_abc) as [c' (E & Hs & _)].
  - lia.
  - unfold flat_container, raw_container. cbn.
    repeat split; try reflexivity.
    repeat constructor; cbn; intuition discriminate.
  - exists c'. split; [exact E | exact Hs].
Defined.

(** X2.  After the pass on a raw container the identifiers in [images]
    are 1, 2, ..., in the order of insertion, none reused, and the
    identifier of every map row selects exactly one images row. *)
Theorem compression_do_identifiers (chunk : Z) (c : conn) :
  0 < chunk -> raw_container c ->
  exists l,
    compression_do chunk (enter_compression c) = (Ok tt, l)
    /\ List.map image_id (images (con l))
       = ids_upto (Z.of_nat (List.length (images (con l))))
    /\ last_id l = Z.of_nat (List.length (images (con l)))
    /\ Forall (fun m => exists d,
                   lookup_image (map_tile_id m) (con l)
                   = [mk_image d (map_tile_id m)])
              (map (con l)).
Proof.
  intros Hc Hraw.
  destruct (compression_do_spec chunk c Hc Hraw)
    as [l [E (Ht & Hmap & Hids & Hdata & Htot & Huni & Hlast & Hsum & Hov
              & Himg)]].
  pose proof (compression_do_ids chunk c (proj1 (proj2 Hraw))) as [_ Hseq].
  rewrite E in Hseq. cbn [snd] in Hseq.
  exists l. split; [exact E|]. split; [|split].
  - rewrite Hseq. f_equal. lia.
  - lia.
  - clear - Hmap. induction Hmap as [|m t ms ts (_ & _ & _ & Hl) H IH];
      constructor; [now exists (tile_data t) | assumption].
Qed.

Lemma compression_do_identifiers_witness :
  exists l,
    compression_do 256 (enter_compression container_257) = (Ok tt, l)
    /\ List.map image_id (images (con l))
       = ids_upto (Z.of_nat (List.length (images (con l)))).
Proof.
  destruct (compression_do_identifiers 256 container_257)
    as [l (E & Hids & _)].
  - lia.
  - unfold raw_container. split; [|split; reflexivity].
    vm_compute. repeat split.
  - exists l. split; [exact E | exact Hids].
Defined.

(** ** Compression inside an import, seen from outside *)

Lemma run_compression_compress (s : session) :
  run_compression s
  = (fst (compress 256 (db s)),
     mk_session (snd (compress 256 (db s))) (warnings s) (count s)).
Proof.
  unfold run_compression, compress, bind, on_db, compression_prepare, ret.
  cbn [db warnings count].
  destruct (compression_do 256 (enter_compression (db s))) as [[[]|e] l];
    cbn [db warnings count]; [|reflexivity].
  now destruct (compression_finalize (con l)) as [r c'].
Qed.

Lemma walk_inv_flat (loaded : dict) (s : session) :
  walk_inv loaded s -> flat_container (db s).
Proof.
  intros (_ & Hraw & Hv & Hnd & _). split; [exact Hraw|]. now split.
Qed.

(** ** The exporter and what it reads *)

Lemma for_each_on_fs {A} (body : A -> M fs unit) (l : list A) (c : conn) :
  forall f,
    for_each l (fun a => on_fs (body a)) (mk_export c f)
    = (fst (for_each l body f), mk_export c (snd (for_each l body f))).
Proof.
  induction l as [|a l IH]; intros f; cbn [for_each]; [reflexivity|].
  unfold bind, on_fs at 1. cbn [target source].
  destruct (body a f) as [[u|e] f1]; [apply IH | reflexivity].
Qed.

(** The exporter runs [export_program] on what it finds below the
    destination and hands the connection back untouched. *)
Lemma mbtiles_to_disk_program (kw : kwargs) (c : conn) (f : fs) :
  mbtiles_to_disk kw (mk_export c f)
  = (fst (export_program kw (metadata c) (tiles_by_zoom c) f),
     mk_export c (snd (export_program kw (metadata c) (tiles_by_zoom c) f))).
Proof.
  pose proof (for_each_on_fs
                (export_tile kw (dict_get_default "format"
                                   (py_dict (metadata c)) "pbf"))
                (tiles_by_zoom c) c) as Hloop.
  unfold mbtiles_to_disk, export_program.
  unfold bind, on_fs, gets, os_mkdir, write_file, modify, when, ret in *.
  cbn [target source].
  destruct f as [d|]; [reflexivity|].
  cbn [os_path_isdir disk_dirs disk_files existsb target source].
  replace (path_eqb [] []) with true by reflexivity.
  cbn [orb negb target source].
  destruct (dict_get "formatter" (py_dict (metadata c))) as [formatter|].
  - destruct (String.eqb formatter ""); cbn [negb target source];
      match goal with
      | |- for_each _ _ (mk_export c ?f) = _ => exact (Hloop f)
      end.
  - cbn [target source].
    match goal with
    | |- for_each _ _ (mk_export c ?f) = _ => exact (Hloop f)
    end.
Qed.

(** ** The tree an export leaves *)

Lemma prefixes_self (p : path) : In p (prefixes p).
Proof.
  induction p as [|a p IH]; cbn; [now left|]. right. now apply in_map.
Qed.

Lemma prefixes_nil (p : path) : In [] (prefixes p).
Proof. destruct p; cbn; now left. Qed.

Lemma prefixes_trans (p q r : path) :
  In q (prefixes p) -> In r (prefixes q) -> In r (prefixes p).
Proof.
  revert q r. induction p as [|a p IH]; intros q r Hq Hr; cbn in *.
  - destruct Hq as [<-|[]]. exact Hr.
  - destruct Hq as [<-|Hq]; [destruct Hr as [<-|[]]; now left|].
    apply in_map_iff in Hq. destruct Hq as [q' [<- Hq']]. cbn in Hr.
    destruct Hr as [<-|Hr]; [now left|]. right.
    apply in_map_iff in Hr. destruct Hr as [r' [<- Hr']].
    apply in_map. now apply (IH q').
Qed.

Lemma os_path_isdir_In (p : path) (d : disk) :
  os_path_isdir p (Some d) = true <-> In p (disk_dirs d).
Proof.
  cbn. rewrite existsb_exists. split.
  - intros [q [Hq E]]. apply path_eqb_eq in E. now subst.
  - intros H. exists p. split; [assumption | now apply path_eqb_eq].
Qed.

(** One tile: its file is written, its directory exists afterwards with
    all its ancestors, and nothing else is created. *)
Lemma export_tile_dirs (kw : kwargs) (image_format : string)
    (t : Z * Z * Z * bytes) (d : disk) :
  dirs_closed (disk_dirs d) ->
  exists dirs,
    export_tile kw image_format t (Some d)
    = (Ok tt,
       Some (mk_disk dirs (tile_entry kw image_format t :: disk_files d)))
    /\ dirs_closed dirs
    /\ incl (disk_dirs d) dirs
    /\ In (removelast (tile_path kw image_format t)) dirs.
Proof.
  intros Hcl. destruct t as [[[z x] y] data].
  unfold export_tile, tile_entry, tile_path, bind, gets, when, write_file,
    os_makedirs, modify, ret. cbn [snd].
  set (dir := export_dir kw z x (export_row kw z y)).
  assert (Hparent : removelast (export_file kw image_format dir
                                            (export_row kw z y)) = dir).
  { unfold export_file. destruct (scheme_is kw "wms");
      apply removelast_last. }
  rewrite Hparent.
  destruct (os_path_isdir dir (Some d)) eqn:Hdir; cbn [negb].
  - exists (disk_dirs d). split; [reflexivity|].
    split; [exact Hcl|]. split; [apply incl_refl|].
    now apply os_path_isdir_In.
  - eexists. split; [reflexivity|]. split; [|split].
    + intros q r Hq Hr. apply in_app_iff in Hq. apply in_app_iff.
      destruct Hq as [Hq|Hq]; [left; now apply (Hcl q)|].
      apply filter_In in Hq. destruct Hq as [Hq _].
      pose proof (prefixes_trans _ _ _ Hq Hr) as Hr'.
      destruct (existsb (path_eqb r) (disk_dirs d)) eqn:E.
      * left. apply existsb_exists in E. destruct E as [r' [Hin E]].
        apply path_eqb_eq in E. now subst.
      * right. apply filter_In. split; [assumption | now rewrite E].
    + apply incl_appl, incl_refl.
    + apply in_app_iff. right. apply filter_In.
      split; [apply prefixes_self|]. cbn in Hdir. now rewrite Hdir.
Qed.

Lemma export_tiles_dirs (kw : kwargs) (image_format : string)
    (rows : list (Z * Z * Z * bytes)) :
  forall d,
    dirs_closed (disk_dirs d) ->
    (forall p c, In (p, c) (disk_files d) -> In (removelast p) (disk_dirs d)) ->
    exists dirs,
      for_each rows (export_tile kw image_format) (Some d)
      = (Ok tt,
         Some (mk_disk dirs
                       (rev (List.map (tile_entry kw image_format) rows)
                        ++ disk_files d)))
      /\ dirs_closed dirs
      /\ incl (disk_dirs d) dirs
      /\ forall p c,
           In (p, c) (rev (List.map (tile_entry kw image_format) rows)
                      ++ disk_files d) ->
           In (removelast p) dirs.
Proof.
  induction rows as [|t rows IH]; intros d Hcl Hfiles; cbn [for_each].
  - exists (disk_dirs d). cbn. split; [now destruct d|].
    split; [exact Hcl|]. split; [apply incl_refl | exact Hfiles].
  - destruct (export_tile_dirs kw image_format t d Hcl)
      as [dirs1 (E1 & Hcl1 & Hincl1 & Hdir1)].
    unfold bind. rewrite E1.
    destruct (IH (mk_disk dirs1 (tile_entry kw image_format t :: disk_files d))
                 Hcl1) as [dirs (E & Hcl2 & Hincl2 & Hfiles2)].
    { cbn. intros p c [Hpc|Hin].
      - unfold tile_entry in Hpc. injection Hpc as <- _. exact Hdir1.
      - apply Hincl1. now apply (Hfiles p c). }
    exists dirs. cbn [disk_files disk_dirs] in *. rewrite E.
    cbn [List.map rev]. rewrite <- app_assoc. cbn [app].
    split; [reflexivity|]. split; [exact Hcl2|].
    split; [now apply (incl_tran Hincl1) | exact Hfiles2].
Qed.

(** A run into a place where nothing exists, with the files it leaves
    spelled out. *)
Lemma export_program_fresh (kw : kwargs) (rows : list (string * string))
    (fetched : list (Z * Z * Z * bytes)) :
  let md := py_dict rows in
  let image_format := dict_get_default "format" md "pbf" in
  exists dirs,
    export_program kw rows fetched None
    = (Ok tt,
       Some (mk_disk dirs
                     (rev (List.map (tile_entry kw image_format) fetched)
                      ++ document_files md)))
    /\ dirs_closed dirs
    /\ In [] dirs
    /\ forall p c,
         In (p, c) (rev (List.map (tile_entry kw image_format) fetched)
                    ++ document_files md) ->
         In (removelast p) dirs.
Proof.
  cbn zeta. set (fmt := dict_get_default "format" (py_dict rows) "pbf").
  assert (Hstart : forall files,
             (forall p c, In (p, c) files -> removelast p = []) ->
             exists dirs,
               for_each fetched (export_tile kw fmt)
                        (Some (mk_disk [[]] files))
               = (Ok tt,
                  Some (mk_disk dirs
                          (rev (List.map (tile_entry kw fmt) fetched)
                           ++ files)))
               /\ dirs_closed dirs /\ In [] dirs
               /\ forall p c,
                    In (p, c) (rev (List.map (tile_entry kw fmt) fetched)
                               ++ files) ->
                    In (removelast p) dirs).
  { intros files Hfiles.
    destruct (export_tiles_dirs kw fmt fetched (mk_disk [[]] files))
      as [dirs (E & Hcl & Hincl & Hf)].
    - intros q r [<-|[]] [<-|[]]. now left.
    - cbn. intros p c Hin. left. symmetry. now apply (Hfiles p c).
    - exists dirs. repeat split; try assumption. apply Hincl. now left. }
  unfold export_program, document_files.
  unfold bind, gets, os_mkdir, write_file, modify, when, ret.
  cbn [os_path_isdir disk_dirs disk_files existsb].
  replace (path_eqb [] []) with true by reflexivity. cbn [orb negb].
  destruct (dict_get "formatter" (py_dict rows)) as [formatter|].
  - destruct (String.eqb formatter ""); cbn [negb disk_dirs disk_files];
      apply Hstart; cbn; intros p c H;
      repeat (destruct H as [H|H]; [now injection H as <- _|]); destruct H.
  - apply Hstart; cbn; intros p c H;
      repeat (destruct H as [H|H]; [now injection H as <- _|]); destruct H.
Qed.

Lemma find_skip {A} (f : A -> bool) (l r : list A) :
  (forall a, In a l -> f a = false) -> find f (l ++ r) = find f r.
Proof.
  induction l as [|a l IH]; intros H; cbn; [reflexivity|].
  rewrite (H a (or_introl eq_refl)). apply IH. intros b Hb. apply H.
  now right.
Qed.

(** A tile file lies at least two directories deep. *)
Lemma tile_path_deep (kw : kwargs) (image_format : string)
    (t : Z * Z * Z * bytes) :
  (3 <= List.length (tile_path kw image_format t))%nat.
Proof.
  destruct t as [[[z x] y] d]. unfold tile_path, export_file, export_dir.
  destruct (scheme_is kw "xyz"), (scheme_is kw "wms");
    rewrite length_app; cbn; lia.
Qed.

Lemma tile_entries_not_document (kw : kwargs) (image_format : string)
    (rows : list (Z * Z * Z * bytes)) (name : string) :
  forall e, In e (rev (List.map (tile_entry kw image_format) rows)) ->
            path_eqb (fst e) [name] = false.
Proof.
  intros e He. apply in_rev in He. apply in_map_iff in He.
  destruct He as [t [<- _]]. cbn [tile_entry fst].
  apply not_true_is_false. intros E. apply path_eqb_eq in E.
  pose proof (tile_path_deep kw image_format t) as H. rewrite E in H.
  cbn in H. lia.
Qed.

(** X5.  The exporter creates every directory before it writes into it.
    When the container of a completed import (a tree with ASCII names) is
    exported into a new place, in any layout, with a plain extension and
    row numbers of at most a hundred digits, the export completes and the
    tree it leaves is well formed: the destination exists as a directory,
    every directory has its parent, and every file written lies in a
    directory that exists. *)
Theorem export_tree_well_formed (t : tree) (kw_i kw_e : kwargs)
    (s : session) :
  ascii_names t = true ->
  disk_to_mbtiles t kw_i = (Ok tt, s) ->
  export_ready kw_e (db s) = true ->
  exists d,
    mbtiles_to_disk kw_e (mk_export (db s) None)
    = (Ok tt, mk_export (db s) (Some d))
    /\ os_path_isdir [] (Some d) = true
    /\ (forall q r, os_path_isdir q (Some d) = true -> In r (prefixes q) ->
                    os_path_isdir r (Some d) = true)
    /\ (forall p content,
          In (p, content) (disk_files d) ->
          os_path_isdir (removelast p) (Some d) = true).
Proof.
  intros _ _ _. rewrite mbtiles_to_disk_program.
  destruct (export_program_fresh kw_e (metadata (db s))
                                 (tiles_by_zoom (db s)))
    as [dirs (E & Hcl & Hroot & Hfiles)].
  rewrite E. cbn [fst snd]. eexists. split; [reflexivity|].
  split; [now apply os_path_isdir_In|]. split.
  - intros q r Hq Hr. apply os_path_isdir_In.
    apply os_path_isdir_In in Hq. now apply (Hcl q).
  - intros p content Hin. apply os_path_isdir_In. now apply (Hfiles p content).
Qed.

Lemma export_tree_well_formed_witness :
  exists d,
    mbtiles_to_disk (kwargs_of (Some "tms"))
      (mk_export (db (snd (disk_to_mbtiles tree_z1 (kwargs_of None)))) None)
    = (Ok tt,
       mk_export (db (snd (disk_to_mbtiles tree_z1 (kwargs_of None))))
                 (Some d))
    /\ os_path_isdir ["1"; "0"] (Some d) = true.
Proof.
  destruct (export_tree_well_formed tree_z1 (kwargs_of None)
              (kwargs_of (Some "tms"))
              (snd (disk_to_mbtiles tree_z1 (kwargs_of None))))
    as [d (E & _ & _ & Hfiles)]; try reflexivity.
  exists d. split; [exact E|].
  apply (Hfiles ["1"; "0"; "0.pbf"] (Blob payload_A)).
  injection E as <-. now left.
Defined.

(** The files of an export have pairwise distinct paths when the rows
    have pairwise distinct coordinates. *)
Lemma export_files_NoDup (kw : kwargs) (image_format : string)
    (rows : list (Z * Z * Z * bytes)) (md : dict) :
  scheme_is kw "wms" = false ->
  NoDup (List.map fst rows) ->
  NoDup (List.map fst (rev (List.map (tile_entry kw image_format) rows)
                       ++ document_files md)).
Proof.
  intros Hwms Hnd. rewrite map_app. apply NoDup_app.
  - rewrite <- map_rev, map_map.
    apply (NoDup_map_coarser (fun e => fst e)
             (fun e => fst (tile_entry kw image_format e))).
    + intros a b. apply (tile_path_injective kw _ a b Hwms).
    + eapply Permutation_NoDup; [|exact Hnd].
      apply Permutation_map, Permutation_rev.
  - unfold document_files.
    destruct (dict_get "formatter" md) as [formatter|];
      [destruct (String.eqb formatter "")|]; cbn;
      repeat constructor; cbn; intuition discriminate.
  - intros p Hp Hdoc. apply in_map_iff in Hp.
    destruct Hp as [e [<- He]].
    assert (Hone : exists name, fst e = [name]).
    { unfold document_files in Hdoc.
      destruct (dict_get "formatter" md) as [formatter|];
        [destruct (String.eqb formatter "")|];
        cbn in Hdoc; intuition eauto. }
    destruct Hone as [name Hname].
    pose proof (tile_entries_not_document kw _ _ name e He) as H.
    rewrite Hname in H.
    assert (path_eqb [name] [name] = true) by now apply path_eqb_eq.
    congruence.
Qed.

Lemma tiles_by_zoom_NoDup (c : conn) :
  NoDup (List.map fst (select_tiles c)) ->
  NoDup (List.map fst (tiles_by_zoom c)).
Proof.
  intros Hnd. eapply Permutation_NoDup; [|exact Hnd].
  apply Permutation_map, Permutation_sym, sorted_by_perm.
Qed.

(** What an export leaves where nothing existed. *)
Lemma mbtiles_to_disk_files (kw : kwargs) (c : conn) :
  exists dirs,
    mbtiles_to_disk kw (mk_export c None)
    = (Ok tt,
       mk_export c
         (Some (mk_disk dirs
                  (rev (List.map (tile_entry kw (export_format c))
                                 (tiles_by_zoom c))
                   ++ document_files (py_dict (metadata c)))))).
Proof.
  rewrite mbtiles_to_disk_program.
  destruct (export_program_fresh kw (metadata c) (tiles_by_zoom c))
    as [dirs (E & _)].
  rewrite E. now exists dirs.
Qed.

(** ** The rows an import stores *)

Lemma import_tiles_walk (quiet : bool) (scheme : string) (compress : bool)
    (t : tree) (image_format : string) (s : session) :
  import_tiles quiet scheme compress t image_format s
  = (walk quiet scheme t image_format ;;; after_walk compress) s.
Proof.
  unfold import_tiles, walk, after_walk, bind.
  destruct (zoom_levels t s) as [[levels|e] s0]; [|reflexivity].
  now destruct (for_each levels _ s0) as [[[]|e] s1].
Qed.

Lemma walk_keeps_inv (quiet : bool) (scheme : string) (t : tree)
    (image_format : string) (loaded : dict) (s : session) :
  walk_inv loaded s ->
  walk_inv loaded (snd (walk quiet scheme t image_format s)).
Proof.
  intros H. unfold walk. apply bind_snd.
  - now rewrite zoom_levels_state.
  - intros levels s1 H1. now apply walk_preserves.
Qed.

(** After the walk, with or without compression, the run completes; a
    reader of [tiles] gets the rows of the table the walk left. *)
Lemma after_walk_run (compress : bool) (loaded : dict) (s1 : session) :
  walk_inv loaded s1 ->
  exists s2,
    after_walk compress s1 = (Ok tt, s2)
    /\ select_tiles (db s2) = List.map tile_fields (tiles (db s1))
    /\ metadata (db s2) = loaded
    /\ warnings s2 = warnings s1
    /\ count s2 = count s1.
Proof.
  intros Hw. pose proof Hw as (Hmd & _ & Hv & _).
  unfold after_walk, bind. destruct compress; cbn [when].
  - rewrite run_compression_compress.
    destruct (compress_run 256 (db s1) ltac:(lia) (walk_inv_flat _ _ Hw))
      as [l (E & Ec & (Ht & Hmap & _))].
    pose proof (compression_do_frame 256 (enter_compression (db s1)))
      as [Hm _].
    rewrite E in Hm. cbn in Hm.
    rewrite Ec. unfold optimize_database, ret, on_db, commit, modify.
    cbn [fst snd db warnings count]. eexists. split; [reflexivity|].
    cbn [db warnings count log_event metadata].
    unfold select_tiles, join_map_images. cbn [is_view images map].
    split; [exact (join_stands_for (con l) _ _ Hmap)|].
    split; [congruence|]. split; reflexivity.
  - unfold optimize_database, ret, on_db, commit, modify.
    eexists. split; [reflexivity|]. cbn [db warnings count].
    unfold select_tiles. cbn [log_event is_view tiles metadata].
    rewrite Hv. auto.
Qed.

(** Every import is a walk from the session the metadata left, followed,
    when the walk completes, by steps that complete. *)
Lemma import_result (t : tree) (kw : kwargs) :
  let run := walk (silent kw) (kwargs_get (scheme kw) "xyz") t
                  (import_format t kw) (after_metadata (silent kw) t) in
  walk_inv (loaded_metadata t) (snd run)
  /\ fst (disk_to_mbtiles t kw) = fst run
  /\ select_tiles (db (snd (disk_to_mbtiles t kw)))
     = List.map tile_fields (tiles (db (snd run)))
  /\ metadata (db (snd (disk_to_mbtiles t kw))) = loaded_metadata t
  /\ warnings (snd (disk_to_mbtiles t kw)) = warnings (snd run)
  /\ count (snd (disk_to_mbtiles t kw)) = count (snd run).
Proof.
  cbn zeta. rewrite disk_to_mbtiles_unfold, import_tiles_walk.
  pose proof (walk_keeps_inv (silent kw) (kwargs_get (scheme kw) "xyz") t
                (import_format t kw) _ _ (after_metadata_inv (silent kw) t))
    as Hw.
  unfold bind.
  destruct (walk _ _ t _ _) as [[[]|e] s1]; cbn [fst snd] in *.
  - destruct (after_walk_run (compression kw) _ s1 Hw)
      as [s2 (E & Hsel & Hmd & Hwarn & Hcnt)].
    rewrite E. cbn [fst snd]. tauto.
  - split; [exact Hw|]. destruct Hw as (Hmd & _ & Hv & _).
    unfold select_tiles. rewrite Hv. tauto.
Qed.

(** What a completed import leaves, in terms of the walk. *)
Lemma import_completed (t : tree) (kw : kwargs) (s : session) :
  disk_to_mbtiles t kw = (Ok tt, s) ->
  exists s1,
    walk (silent kw) (kwargs_get (scheme kw) "xyz") t (import_format t kw)
         (after_metadata (silent kw) t) = (Ok tt, s1)
    /\ walk_inv (loaded_metadata t) s1
    /\ select_tiles (db s) = List.map tile_fields (tiles (db s1))
    /\ metadata (db s) = loaded_metadata t
    /\ warnings s = warnings s1
    /\ count s = count s1.
Proof.
  intros E.
  destruct (import_result t kw) as (Hw & Hr & Hsel & Hmd & Hwarn & Hcnt).
  rewrite E in *. cbn [fst snd] in *.
  destruct (walk _ _ t _ _) as [r1 s1]. cbn [fst snd] in *. subst r1.
  exists s1. tauto.
Qed.

(** X7.  Whether an import compresses or not makes no difference to its
    outcome, to the rows a reader of [tiles] gets (each once, in whatever
    order the engine lists them), to the metadata, the warnings and the
    count. *)
Theorem import_compression_transparent (t : tree) (kw : kwargs) :
  let plain := disk_to_mbtiles t (with_compression false kw) in
  let packed := disk_to_mbtiles t (with_compression true kw) in
  fst packed = fst plain
  /\ Permutation (select_tiles (db (snd packed)))
                 (select_tiles (db (snd plain)))
  /\ metadata (db (snd packed)) = metadata (db (snd plain))
  /\ warnings (snd packed) = warnings (snd plain)
  /\ count (snd packed) = count (snd plain).
Proof.
  cbn zeta.
  destruct (import_result t (with_compression true kw))
    as (_ & Hr1 & Hs1 & Hm1 & Hw1 & Hc1).
  destruct (import_result t (with_compression false kw))
    as (_ & Hr2 & Hs2 & Hm2 & Hw2 & Hc2).
  rewrite Hr1, Hr2, Hs1, Hs2, Hm1, Hm2, Hw1, Hw2, Hc1, Hc2.
  repeat split; reflexivity.
Qed.

(** In a loop that completes, what every iteration appends adds up. *)
Lemma for_each_ok_accum {S A B} (f : S -> list B) (g : A -> list B)
    (body : A -> M S unit) :
  (forall a s s', body a s = (Ok tt, s') -> f s' = f s ++ g a) ->
  forall l s s',
    for_each l body s = (Ok tt, s') -> f s' = f s ++ flat_map g l.
Proof.
  intros Hbody. induction l as [|a l IH]; intros s s' E; cbn in E.
  - injection E as <-. cbn. now rewrite app_nil_r.
  - unfold bind in E.
    destruct (body a s) as [[[]|e] s1] eqn:Ea; [|discriminate].
    rewrite (IH _ _ E), (Hbody _ _ _ Ea). cbn. now rewrite app_assoc.
Qed.

Lemma flat_map_map {A B C} (g : B -> list C) (h : A -> B) (l : list A) :
  flat_map g (List.map h l) = flat_map (fun a => g (h a)) l.
Proof. induction l as [|a l IH]; cbn; [reflexivity | now rewrite IH]. Qed.


Lemma flat_map_flat_map {A B C} (g : B -> list C) (h : A -> list B)
    (l : list A) :
  flat_map g (flat_map h l) = flat_map (fun a => flat_map g (h a)) l.
Proof.
  induction l as [|a l IH]; cbn; [reflexivity|].
  now rewrite flat_map_app, IH.
Qed.

(** The zoom levels come in ascending order of their numbers. *)
Lemma zoom_levels_sorted (t : tree) (s s' : session)
    (levels : list (string * list entry)) :
  zoom_levels t s = (Ok levels, s') ->
  levels = sorted_by Z.leb zoom_key (get_dirs (listing t)).
Proof.
  unfold zoom_levels, bind.
  destruct (sort_keys _ _ s) as [[keyed|e] s1] eqn:E; [|discriminate].
  intros H. injection H as <- <-.
  apply sort_keys_ok in E. destruct E as [<- Hkeys].
  assert (Ek : keyed = List.map (fun d => (zoom_key d, d))
                                (List.map snd keyed)).
  { clear - Hkeys. induction Hkeys as [|[k d] keyed Hk _ IH]; cbn;
      [reflexivity|]. rewrite <- IH. cbn in Hk. unfold zoom_key, dir_number.
    now rewrite Hk. }
  rewrite Ek at 1. rewrite sorted_by_map, map_map. cbn [snd fst].
  now rewrite map_id.
Qed.

Section Accumulation.

(** Something the session holds as a list, to which a completed
    [import_file] appends [g] of the entry it visited. *)
Context {B : Type} (quiet : bool) (image_format scheme : string).
Variable f : session -> list B.
Variable g : Z * Z * entry -> list B.
Hypothesis import_file_appends :
  forall z x e s s',
    import_file quiet image_format scheme z x e s = (Ok tt, s') ->
    f s' = f s ++ g (z, x, e).

Lemma import_column_appends (z : Z) (row_dir : string * list entry)
    (s s' : session) :
  import_column quiet image_format scheme z row_dir s = (Ok tt, s') ->
  f s' = f s ++ flat_map g (column_entries z row_dir).
Proof.
  unfold import_column, column_entries, dir_number, bind.
  destruct (py_int (strip_non_digits (fst row_dir))) as [x|]; cbn;
    [|discriminate].
  rewrite flat_map_map. apply for_each_ok_accum.
  intros e s1 s2. apply import_file_appends.
Qed.

Lemma import_zoom_appends (zoom_dir : string * list entry)
    (s s' : session) :
  import_zoom quiet image_format scheme zoom_dir s = (Ok tt, s') ->
  f s' = f s ++ flat_map g (zoom_entries zoom_dir).
Proof.
  unfold import_zoom, zoom_entries, dir_number, bind.
  destruct (py_int (strip_non_digits (fst zoom_dir))) as [z|]; cbn;
    [|discriminate].
  rewrite flat_map_flat_map. apply for_each_ok_accum.
  intros d s1 s2. apply import_column_appends.
Qed.

Lemma walk_appends (t : tree) (s s' : session) :
  walk quiet scheme t image_format s = (Ok tt, s') ->
  f s' = f s ++ flat_map g (visited t).
Proof.
  unfold walk, visited, bind.
  pose proof (zoom_levels_state t s) as Hz.
  destruct (zoom_levels t s) as [[levels|e] s0] eqn:El; [|discriminate].
  cbn [snd] in Hz. subst s0. rewrite <- (zoom_levels_sorted _ _ _ _ El).
  rewrite flat_map_flat_map. apply for_each_ok_accum.
  intros d s1 s2. apply import_zoom_appends.
Qed.

End Accumulation.

Lemma import_file_rows (quiet : bool) (image_format scheme : string)
    (z x : Z) (e : entry) (s s' : session) :
  import_file quiet image_format scheme z x e s = (Ok tt, s') ->
  stored_rows s' = stored_rows s ++ file_rows image_format scheme (z, x, e).
Proof.
  intros E.
  pose proof (import_file_cases quiet image_format scheme z x e s) as H.
  rewrite E in H. unfold file_rows, accepted, file_row, stored_rows.
  destruct H as [(_ & Hdb & _ & Hskip)
                | [(y & d & _ & Hdot & Hext & Hy & He & Hins & _)
                  | (err & Herr & _)]].
  - rewrite Hdb.
    destruct Hskip as [-> | ->]; cbn; rewrite ?andb_false_r;
      now rewrite app_nil_r.
  - rewrite Hdot, Hext, He. cbn [negb andb entry_name]. rewrite Hy.
    apply insert_tiles_ok in Hins. destruct Hins as [-> _]. cbn.
    now rewrite map_app.
  - discriminate.
Qed.


(** The table a completed import leaves, the view in the order in which
    [join_map_images] lists it. *)
Lemma import_completed_rows (t : tree) (kw : kwargs) (s : session) :
  disk_to_mbtiles t kw = (Ok tt, s) ->
  select_tiles (db s)
  = tree_rows (import_format t kw) (kwargs_get (scheme kw) "xyz") t
  /\ NoDup (List.map fst (select_tiles (db s)))
  /\ count s = Z.of_nat (List.length (select_tiles (db s))).
Proof.
  intros E.
  destruct (import_completed t kw s E) as [s1 (Ew & Hw & Hsel & _ & _ & Hcnt)].
  pose proof (walk_appends _ _ _ stored_rows _
                (import_file_rows (silent kw) (import_format t kw)
                                  (kwargs_get (scheme kw) "xyz"))
                _ _ _ Ew) as Hrows.
  destruct Hw as (_ & _ & _ & Hnd & _ & _ & Hc).
  rewrite Hsel. split; [exact Hrows|]. split.
  - now rewrite map_map.
  - now rewrite Hcnt, Hc, length_map.
Qed.

(** X8.  A completed import of a tree with ASCII names has stored exactly
    one row per accepted file and nothing else: zoom and column are the
    numbers of the directory names, the row is the number of the file's
    stem, flipped under [tms].  A reader of [tiles] gets these rows, each
    once; without compression in the order of the walk (zoom levels in
    ascending order of their numbers, within a level the columns and
    within a column the files in the order of their names), with
    compression in whatever order the engine lists the view.  [count] is
    the number of these rows, and no two of them have the same
    coordinates: a tree in which two files stand for the same tile cannot
    be imported. *)
Theorem import_stores_tree_rows (t : tree) (kw : kwargs) (s : session) :
  ascii_names t = true ->
  disk_to_mbtiles t kw = (Ok tt, s) ->
  let rows := tree_rows (import_format t kw) (kwargs_get (scheme kw) "xyz") t
  in
  Permutation (select_tiles (db s)) rows
  /\ (compression kw = false -> select_tiles (db s) = rows)
  /\ count s = Z.of_nat (List.length rows)
  /\ NoDup (List.map fst rows).
Proof.
  intros _ E. cbn zeta.
  destruct (import_completed_rows t kw s E) as (Hsel & Hnd & Hcnt).
  rewrite <- Hsel. repeat split; auto.
Qed.

Lemma import_stores_tree_rows_witness :
  select_tiles (db (snd (disk_to_mbtiles tree_png (kwargs_of (Some "tms")))))
  = [(3, 1, 5, payload_A)].
Proof.
  destruct (import_stores_tree_rows tree_png (kwargs_of (Some "tms"))
              (snd (disk_to_mbtiles tree_png (kwargs_of (Some "tms")))))
    as (_ & H & _); [reflexivity | reflexivity |].
  cbn zeta in H. rewrite H; reflexivity.
Defined.

(** X9.  Whatever the outcome of an import, completed or aborted, the
    rows of [tiles] have pairwise distinct coordinates and [count] is
    their number. *)
Theorem import_coordinates_distinct (t : tree) (kw : kwargs) :
  let s := snd (disk_to_mbtiles t kw) in
  NoDup (List.map fst (select_tiles (db s)))
  /\ count s = Z.of_nat (List.length (select_tiles (db s))).
Proof.
  cbn zeta.
  destruct (import_result t kw) as (Hw & _ & Hsel & _ & _ & Hcnt).
  rewrite Hsel, Hcnt, map_map, length_map.
  destruct Hw as (_ & _ & _ & Hnd & _ & _ & Hc). split; assumption.
Qed.



(** ** Round trips *)

Lemma read_file_In (dirs : list path) (files : list (path * content))
    (p : path) (k : content) :
  NoDup (List.map fst files) ->
  read_file p (Some (mk_disk dirs files)) = Some k <-> In (p, k) files.
Proof.
  intros Hnd. unfold read_file. cbn [disk_files]. split.
  - destruct (find _ files) as [[q k']|] eqn:E; [|discriminate].
    cbn. intros H. injection H as <-.
    apply find_some in E. destruct E as [Hin Hq]. cbn in Hq.
    apply path_eqb_eq in Hq. now subst q.
  - intros Hin. rewrite <- (app_nil_r files).
    now rewrite (find_unique files [] p k Hnd Hin).
Qed.

Lemma py_dict_idempotent (pairs : list (string * string)) :
  py_dict (py_dict pairs) = py_dict pairs.
Proof.
  apply py_dict_distinct. apply distinct_keys_NoDup.
  - intros a b. apply String.eqb_eq.
  - apply py_dict_NoDup.
Qed.

Lemma loaded_metadata_dict (t : tree) :
  py_dict (loaded_metadata t) = loaded_metadata t.
Proof.
  unfold loaded_metadata. destruct (metadata_json t) as [members|].
  - apply py_dict_idempotent.
  - reflexivity.
Qed.

(** A completed walk went through a permutation of the directories at
    the top of the tree. *)
Lemma walk_levels (quiet : bool) (scheme : string) (t : tree)
    (image_format : string) (s s' : session) :
  walk quiet scheme t image_format s = (Ok tt, s') ->
  exists levels,
    Permutation levels (get_dirs (listing t))
    /\ for_each levels (import_zoom quiet image_format scheme) s
       = (Ok tt, s').
Proof.
  unfold walk, bind. pose proof (zoom_levels_state t s) as Hz.
  destruct (zoom_levels t s) as [[levels|e] s0] eqn:El; [|discriminate].
  cbn [snd] in Hz. subst s0. intros E. exists levels.
  split; [exact (zoom_levels_ok _ _ _ _ El) | exact E].
Qed.

(** X11.  Importing a tree with ASCII names and exporting the container
    into a new place, under any two sets of keyword arguments (the export
    not in the WMS layout, with a plain extension and row numbers of at
    most a hundred digits; with or without compression): the export
    completes, and the files below the destination are exactly one file
    per row the import stored, holding the payload of that row, and the
    documents [metadata.json] and [layer.json]; nothing else is
    written. *)
Theorem round_trip_files (t : tree) (kw_i kw_e : kwargs) (s : session) :
  ascii_names t = true ->
  scheme_is kw_e "wms" = false ->
  disk_to_mbtiles t kw_i = (Ok tt, s) ->
  export_ready kw_e (db s) = true ->
  exists out,
    mbtiles_to_disk kw_e (mk_export (db s) None)
    = (Ok tt, mk_export (db s) out)
    /\ forall p k,
         read_file p out = Some k
         <-> (exists row,
                 In row (tree_rows (import_format t kw_i)
                                   (kwargs_get (scheme kw_i) "xyz") t)
                 /\ p = tile_path kw_e (export_format (db s)) row
                 /\ k = Blob (snd row))
             \/ In (p, k) (document_files (loaded_metadata t)).
Proof.
  intros _ Hwms E _.
  destruct (import_completed_rows t kw_i s E) as (Hrows & Hnd & _).
  destruct (import_completed t kw_i s E) as [s1 (_ & _ & _ & Hmd & _)].
  destruct (mbtiles_to_disk_files kw_e (db s)) as [dirs Eout].
  eexists. split; [exact Eout|]. intros p k.
  rewrite read_file_In
    by (apply export_files_NoDup;
        [exact Hwms | now apply tiles_by_zoom_NoDup]).
  rewrite in_app_iff, <- in_rev, in_map_iff, Hmd, loaded_metadata_dict.
  apply or_iff_compat_r. unfold tile_entry, tiles_by_zoom.
  split; intros [row [H1 H2]]; exists row.
  - apply sorted_by_In in H2. rewrite Hrows in H2.
    injection H1 as <- <-. auto.
  - destruct H2 as (-> & ->). split; [reflexivity|].
    apply sorted_by_In. now rewrite Hrows.
Qed.

Lemma round_trip_files_witness :
  exists out,
    mbtiles_to_disk (kwargs_of (Some "tms"))
      (mk_export (db (snd (disk_to_mbtiles tree_z1 (kwargs_of (Some "xyz")))))
                 None)
    = (Ok tt,
       mk_export (db (snd (disk_to_mbtiles tree_z1 (kwargs_of (Some "xyz")))))
                 out)
    /\ read_file ["1"; "0"; "0.pbf"] out = Some (Blob payload_A).
Proof.
  destruct (round_trip_files tree_z1 (kwargs_of (Some "xyz"))
              (kwargs_of (Some "tms"))
              (snd (disk_to_mbtiles tree_z1 (kwargs_of (Some "xyz")))))
    as [out [E H]]; try reflexivity.
  exists out. split; [exact E|]. apply H. left.
  exists (1, 0, 0, payload_A). split; [now left|]. split; reflexivity.
Defined.

(** X12.  A tree comes back with the row numbers it had when the export
    undoes what the import did to them: imported under [tms] and exported
    under [xyz], or imported under any other scheme and exported under
    any scheme but [xyz] and [wms].  For a tree with ASCII names, a plain
    extension and row numbers of at most a hundred digits, the export
    completes and every tile file of the tree is written, byte for byte,
    at [<zoom>/<column>/<row>.<format>], with the numbers read off its
    names; compression makes no difference. *)
Theorem round_trip_restores_rows (t : tree) (kw_i kw_e : kwargs)
    (s : session) :
  ascii_names t = true ->
  export_ready kw_e (db s) = true ->
  scheme_is kw_e "wms" = false ->
  String.eqb (kwargs_get (scheme kw_i) "xyz") "tms" = scheme_is kw_e "xyz" ->
  disk_to_mbtiles t kw_i = (Ok tt, s) ->
  exists out,
    mbtiles_to_disk kw_e (mk_export (db s) None)
    = (Ok tt, mk_export (db s) out)
    /\ forall zoom_dir zs col_dir cs name d,
         In (Directory zoom_dir zs) (listing t) ->
         In (Directory col_dir cs) zs ->
         In (File name d) cs ->
         accepted (import_format t kw_i) name = true ->
         exists z x y,
           dir_number zoom_dir = Some z
           /\ dir_number col_dir = Some x
           /\ file_row name = Some y
           /\ read_file (xyz_file (export_format (db s)) z x y) out
              = Some (Blob d).
Proof.
  intros _ _ Hwms Hflip E.
  destruct (import_completed_rows t kw_i s E) as (_ & Hnd & _).
  destruct (import_completed t kw_i s E) as [s1 (Ew & _ & Hsel & _)].
  destruct (walk_levels _ _ _ _ _ _ Ew) as [levels [Hperm Eloop]].
  destruct (mbtiles_to_disk_fresh kw_e (db s)) as [dirs [rest Eout]].
  eexists. split; [exact Eout|].
  intros zoom_dir zs col_dir cs name d Hz Hcol Hfile Hacc.
  destruct (walk_ok _ _ _ _ _ _ Eloop zoom_dir zs col_dir cs name d)
    as [z [x [y (Hzn & Hxn & Hyn & Hrow)]]]; try assumption.
  { eapply Permutation_in; [apply Permutation_sym, Hperm|].
    now apply get_dirs_In. }
  exists z, x, y. repeat split; try assumption.
  rewrite <- Hsel in Hrow.
  destruct (export_writes_row kw_e (db s) _ Hwms Hnd Hrow)
    as [out' [E' Hread]].
  rewrite Eout in E'. injection E' as <-.
  rewrite (tile_path_xyz kw_e _ _ _ _ _ Hwms) in Hread.
  replace (export_row kw_e z (stored_row (kwargs_get (scheme kw_i) "xyz") z y))
    with y in Hread; [exact Hread|].
  unfold export_row, stored_row. rewrite Hflip.
  destruct (scheme_is kw_e "xyz"); [|reflexivity].
  symmetry. apply flip_y_involutive.
Qed.

Lemma round_trip_restores_rows_witness :
  exists out,
    mbtiles_to_disk (kwargs_of (Some "xyz"))
      (mk_export (db (snd (disk_to_mbtiles tree_z1 (kwargs_of (Some "tms")))))
                 None)
    = (Ok tt,
       mk_export (db (snd (disk_to_mbtiles tree_z1 (kwargs_of (Some "tms")))))
                 out)
    /\ read_file ["1"; "0"; "0.pbf"] out = Some (Blob payload_A).
Proof.
  destruct (round_trip_restores_rows tree_z1 (kwargs_of (Some "tms"))
              (kwargs_of (Some "xyz"))
              (snd (disk_to_mbtiles tree_z1 (kwargs_of (Some "tms")))))
    as [out [E H]]; try reflexivity.
  exists out. split; [exact E|].
  destruct (H "z1" [Directory "0" [File "0.pbf" payload_A]]
              "0" [File "0.pbf" payload_A] "0.pbf" payload_A)
    as [z [x [y (Hz & Hx & Hy & Hr)]]];
    try (now left); try reflexivity.
  vm_compute in Hz, Hx, Hy. injection Hz as <-. injection Hx as <-.
  injection Hy as <-. exact Hr.
Defined.

(** X13.  The metadata survives the round trip: after a completed import
    the container's metadata, read back as a dictionary, is the
    dictionary of the tree's [metadata.json]; an export writes it to
    [metadata.json] again; and the extension of the exported tiles is its
    [format] or [pbf], which is the format of the import when the
    document names one or the import was not given another. *)
Theorem metadata_round_trip (t : tree) (kw_i kw_e : kwargs) (s : session) :
  disk_to_mbtiles t kw_i = (Ok tt, s) ->
  mbtiles_metadata_to_disk (db s) = loaded_metadata t
  /\ read_file ["metadata.json"]
               (target (snd (mbtiles_to_disk kw_e (mk_export (db s) None))))
     = Some (Json (loaded_metadata t))
  /\ export_format (db s) = dict_get_default "format" (loaded_metadata t) "pbf"
  /\ (dict_get "format" (loaded_metadata t) <> None
      \/ kwargs_get (format kw_i) "pbf" = "pbf" ->
      export_format (db s) = import_format t kw_i).
Proof.
  intros E.
  destruct (import_completed t kw_i s E) as [s1 (_ & _ & _ & Hmd & _)].
  assert (Hd : py_dict (metadata (db s)) = loaded_metadata t)
    by (rewrite Hmd; apply loaded_metadata_dict).
  split; [exact Hd|]. split; [|split].
  - destruct (mbtiles_to_disk_files kw_e (db s)) as [dirs Eout].
    rewrite Eout. cbn [snd target]. unfold read_file. cbn [disk_files].
    rewrite find_skip by apply tile_entries_not_document.
    rewrite Hd. unfold document_files.
    destruct (dict_get "formatter" (loaded_metadata t)) as [formatter|];
      [destruct (String.eqb formatter "")|]; reflexivity.
  - unfold export_format. now rewrite Hd.
  - unfold export_format, import_format, dict_get_default. rewrite Hd.
    destruct (dict_get "format" (loaded_metadata t)) as [f|];
      [reflexivity|]. intros [H|H]; [congruence | now rewrite H].
Qed.

Lemma metadata_round_trip_witness :
  read_file ["metadata.json"]
    (target (snd (mbtiles_to_disk (kwargs_of None)
                    (mk_export
                       (db (snd (disk_to_mbtiles tree_png (kwargs_of None))))
                       None))))
  = Some (Json [("name", "demo"); ("format", "png")]).
Proof.
  destruct (metadata_round_trip tree_png (kwargs_of None) (kwargs_of None)
              (snd (disk_to_mbtiles tree_png (kwargs_of None))))
    as (_ & H & _); [reflexivity|].
  exact H.
Defined.

(** ** Directory names *)

Lemma digit_not_space (c : ascii) : is_digit c = true -> is_space c = false.
Proof.
  unfold is_digit, is_space. intros H. apply andb_true_iff in H.
  destruct H as [H1 H2]. apply Nat.leb_le in H1. apply Nat.leb_le in H2.
  apply orb_false_iff. split.
  - apply andb_false_iff. right. apply Nat.leb_gt. lia.
  - apply Nat.eqb_neq. lia.
Qed.

Lemma digit_val_nonneg (c : ascii) : is_digit c = true -> 0 <= digit_val c.
Proof.
  unfold is_digit, digit_val. intros H. apply andb_true_iff in H.
  destruct H as [H1 _]. apply Nat.leb_le in H1. lia.
Qed.

Lemma drop_spaces_digits (l : list ascii) :
  Forall (fun c => is_digit c = true) l -> drop_spaces l = l.
Proof.
  intros H. destruct H as [|c l Hc _]; cbn; [reflexivity|].
  now rewrite (digit_not_space c Hc).
Qed.

Lemma strip_spaces_digits (l : list ascii) :
  Forall (fun c => is_digit c = true) l -> strip_spaces l = l.
Proof.
  intros H. unfold strip_spaces. rewrite (drop_spaces_digits l H).
  rewrite drop_spaces_digits by now apply Forall_rev.
  apply rev_involutive.
Qed.

Lemma int_digits_digits (l : list ascii) :
  Forall (fun c => is_digit c = true) l ->
  forall acc, 0 <= acc -> exists v, int_digits acc l = Some v /\ 0 <= v.
Proof.
  induction 1 as [|c l Hc _ IH]; intros acc Hacc; cbn [int_digits].
  - now exists acc.
  - rewrite Hc. apply IH. pose proof (digit_val_nonneg c Hc). lia.
Qed.

Lemma strip_non_digits_digits (s : string) :
  Forall (fun c => is_digit c = true)
         (list_ascii_of_string (strip_non_digits s)).
Proof.
  induction s as [|c s IH]; cbn; [constructor|].
  destruct (is_digit c) eqn:E; [|exact IH]. cbn. now constructor.
Qed.

Lemma strip_non_digits_empty (s : string) :
  strip_non_digits s = EmptyString <-> has_digit s = false.
Proof.
  unfold has_digit. induction s as [|c s IH]; cbn; [tauto|].
  destruct (is_digit c); cbn; [|exact IH]. split; discriminate.
Qed.

(** The number of a directory is that of the digits in its name: none
    without a digit, and never negative. *)
Lemma dir_number_spec (name : string) :
  if has_digit name then exists z, dir_number name = Some z /\ 0 <= z
  else dir_number name = None.
Proof.
  unfold dir_number, py_int.
  pose proof (strip_non_digits_digits name) as Hd.
  pose proof (strip_non_digits_empty name) as He.
  rewrite (strip_spaces_digits _ Hd).
  destruct (strip_non_digits name) as [|c s]; cbn in *.
  - now rewrite (proj1 He eq_refl).
  - destruct (has_digit name); [|discriminate (proj2 He eq_refl)].
    inversion Hd as [|? ? Hc Hs]; subst.
    assert (Hm : Ascii.eqb c "-" = false).
    { apply Ascii.eqb_neq. intros ->. discriminate. }
    assert (Hp : Ascii.eqb c "+" = false).
    { apply Ascii.eqb_neq. intros ->. discriminate. }
    rewrite Hm, Hp. unfold int_unsigned. rewrite Hc.
    apply int_digits_digits; [exact Hs | now apply digit_val_nonneg].
Qed.




Lemma visited_nonneg (t : tree) (z x : Z) (e : entry) :
  In (z, x, e) (visited t) -> 0 <= z /\ 0 <= x.
Proof.
  unfold visited. intros H. apply in_flat_map in H.
  destruct H as [zoom_dir [_ H]]. unfold zoom_entries in H.
  pose proof (dir_number_spec (fst zoom_dir)) as Hz.
  destruct (dir_number (fst zoom_dir)) as [z'|] eqn:Ez; [|destruct H].
  apply in_flat_map in H. destruct H as [row_dir [_ H]].
  unfold column_entries in H.
  pose proof (dir_number_spec (fst row_dir)) as Hx.
  destruct (dir_number (fst row_dir)) as [x'|] eqn:Ex; [|destruct H].
  apply in_map_iff in H. destruct H as [e' [H _]]. injection H as -> -> ->.
  destruct (has_digit (fst zoom_dir)); [|discriminate].
  destruct (has_digit (fst row_dir)); [|discriminate].
  destruct Hz as [z0 [Hz0 Hz]]. destruct Hx as [x0 [Hx0 Hx]].
  injection Hz0 as <-. injection Hx0 as <-. now split.
Qed.

(** X15.  The zoom and the column of every row an import stores are
    non-negative: only the digits of a directory name count, a sign is
    dropped with everything else. *)
Theorem import_rows_nonnegative (t : tree) (kw : kwargs) (s : session) :
  disk_to_mbtiles t kw = (Ok tt, s) ->
  forall z x y d, In (z, x, y, d) (select_tiles (db s)) -> 0 <= z /\ 0 <= x.
Proof.
  intros E z x y d Hin.
  destruct (import_completed_rows t kw s E) as (Hsel & _).
  rewrite Hsel in Hin. unfold tree_rows in Hin. apply in_flat_map in Hin.
  destruct Hin as [[[z' x'] e] [Hv Hrow]].
  apply visited_nonneg in Hv. unfold file_rows in Hrow.
  destruct (accepted _ _); [|destruct Hrow].
  destruct e as [n c|n ch]; [|destruct Hrow].
  destruct (file_row _); [|destruct Hrow].
  destruct Hrow as [Hrow|[]]. injection Hrow as -> -> _ _. exact Hv.
Qed.

Lemma import_rows_nonnegative_witness :
  select_tiles
    (db (snd (disk_to_mbtiles
                (mk_tree None
                   [Directory "-1" [Directory "-0" [File "0.pbf" payload_A]]])
                (kwargs_of None))))
  = [(1, 0, 0, payload_A)]
  /\ 0 <= 1 /\ 0 <= 0.
Proof.
  split; [reflexivity|].
  apply (import_rows_nonnegative
           (mk_tree None
              [Directory "-1" [Directory "-0" [File "0.pbf" payload_A]]])
           (kwargs_of None) _ eq_refl 1 0 0 payload_A).
  now left.
Defined.

(** ** Files beside the directories *)

Lemma get_dirs_filter (l : list entry) :
  get_dirs (filter is_directory l) = get_dirs l.
Proof.
  induction l as [|[n c|n ch] l IH]; cbn; [reflexivity | assumption|].
  now rewrite IH.
Qed.

Lemma import_zoom_stray (quiet : bool) (image_format scheme : string)
    (d : string * list entry) (s : session) :
  import_zoom quiet image_format scheme
              (fst d, filter is_directory (snd d)) s
  = import_zoom quiet image_format scheme d s.
Proof.
  unfold import_zoom. cbn [fst snd]. now rewrite get_dirs_filter.
Qed.

Lemma zoom_levels_stray (t : tree) (s : session) :
  zoom_levels (without_stray_files t) s
  = match zoom_levels t s with
    | (Ok levels, s') =>
        (Ok (List.map (fun d => (fst d, filter is_directory (snd d)))
                      levels), s')
    | (Raise e, s') => (Raise e, s')
    end.
Proof.
  unfold zoom_levels, without_stray_files, bind. cbn [listing].
  rewrite get_dirs_in_directories, get_dirs_filter,
    sort_keys_map by reflexivity.
  destruct (sort_keys _ (get_dirs (listing t)) s) as [[keyed|e] s1];
    [|reflexivity].
  cbn. rewrite sorted_by_map, !map_map. reflexivity.
Qed.

(** X16.  The importer reads nothing but directories at the top of the
    tree and inside a zoom directory: files lying there (other than the
    [metadata.json] at the top) change neither the outcome nor the
    session. *)
Theorem stray_files_ignored (t : tree) (kw : kwargs) :
  disk_to_mbtiles (without_stray_files t) kw = disk_to_mbtiles t kw.
Proof.
  rewrite !disk_to_mbtiles_unfold.
  unfold import_format, after_metadata, loaded_metadata.
  cbn [without_stray_files metadata_json].
  unfold import_tiles, bind at 1 5. rewrite zoom_levels_stray.
  destruct (zoom_levels t _) as [[levels|e] s1]; [|reflexivity].
  unfold bind at 1 5. rewrite for_each_map.
  now rewrite (for_each_ext _ _ levels
                 (import_zoom_stray (silent kw) _ _)).
Qed.

(** ** The silent flag *)

Lemma bind_sim {S A B} (R : S -> S -> Prop) (m1 m2 : M S A)
    (k1 k2 : A -> M S B) (s1 s2 : S) :
  fst (m1 s1) = fst (m2 s2) /\ R (snd (m1 s1)) (snd (m2 s2)) ->
  (forall a s1' s2', R s1' s2' ->
     fst (k1 a s1') = fst (k2 a s2') /\ R (snd (k1 a s1')) (snd (k2 a s2'))) ->
  fst (bind m1 k1 s1) = fst (bind m2 k2 s2)
  /\ R (snd (bind m1 k1 s1)) (snd (bind m2 k2 s2)).
Proof.
  unfold bind. intros [Hr Hs] Hk.
  destruct (m1 s1) as [[a1|e1] s1'], (m2 s2) as [[a2|e2] s2'];
    cbn in *; try discriminate.
  - injection Hr as <-. now apply Hk.
  - injection Hr as <-. now split.
Qed.

Lemma for_each_sim {S A} (R : S -> S -> Prop) (b1 b2 : A -> M S unit) :
  (forall a s1 s2, R s1 s2 ->
     fst (b1 a s1) = fst (b2 a s2) /\ R (snd (b1 a s1)) (snd (b2 a s2))) ->
  forall l s1 s2, R s1 s2 ->
    fst (for_each l b1 s1) = fst (for_each l b2 s2)
    /\ R (snd (for_each l b1 s1)) (snd (for_each l b2 s2)).
Proof.
  intros Hb. induction l as [|a l IH]; intros s1 s2 HR; cbn [for_each].
  - now split.
  - apply bind_sim; [now apply Hb|]. intros _ s1' s2'. apply IH.
Qed.

Lemma on_db_silenced {A} (m : M conn A) (s1 s2 : session) :
  silenced s1 s2 ->
  fst (on_db m s1) = fst (on_db m s2)
  /\ silenced (snd (on_db m s1)) (snd (on_db m s2)).
Proof.
  intros (Hdb & Hc & Hw). unfold on_db. rewrite Hdb.
  destruct (m (db s2)) as [r c]. cbn. now repeat split.
Qed.

Lemma lift_option_silenced {A} (e : exn) (o : option A) (s1 s2 : session) :
  silenced s1 s2 ->
  fst (lift_option e o s1) = fst (lift_option e o s2)
  /\ silenced (snd (lift_option e o s1)) (snd (lift_option e o s2)).
Proof. intros H. now destruct o. Qed.

Lemma import_file_silenced (image_format scheme : string) (z x : Z)
    (e : entry) (s1 s2 : session) :
  silenced s1 s2 ->
  fst (import_file true image_format scheme z x e s1)
  = fst (import_file false image_format scheme z x e s2)
  /\ silenced (snd (import_file true image_format scheme z x e s1))
              (snd (import_file false image_format scheme z x e s2)).
Proof.
  intros H. unfold import_file.
  destruct (startswith_dot (entry_name e)); [now split|].
  destruct (splitext (entry_name e)) as [file_name ext].
  destruct (negb _).
  { destruct H as (Hdb & Hc & Hw). cbn. now repeat split. }
  apply bind_sim; [now apply lift_option_silenced|]. intros y s1' s2' H'.
  apply bind_sim.
  { destruct e; cbn; now split. }
  intros d s1'' s2'' H''.
  apply bind_sim; [now apply on_db_silenced|].
  intros _ t1 t2 (Hdb & Hc & Hw). unfold modify, silenced.
  cbn [fst snd db count warnings]. rewrite Hc. now repeat split.
Qed.

Lemma import_zoom_silenced (image_format scheme : string)
    (zoom_dir : string * list entry) (s1 s2 : session) :
  silenced s1 s2 ->
  fst (import_zoom true image_format scheme zoom_dir s1)
  = fst (import_zoom false image_format scheme zoom_dir s2)
  /\ silenced (snd (import_zoom true image_format scheme zoom_dir s1))
              (snd (import_zoom false image_format scheme zoom_dir s2)).
Proof.
  intros H. unfold import_zoom.
  apply bind_sim; [now apply lift_option_silenced|]. intros z s1' s2' H'.
  apply for_each_sim; [|exact H']. intros row_dir t1 t2 Ht.
  unfold import_column.
  apply bind_sim; [now apply lift_option_silenced|]. intros x t1' t2' Ht'.
  apply for_each_sim; [|exact Ht']. intros e u1 u2.
  apply import_file_silenced.
Qed.

Lemma sort_keys_result {S A} (key : A -> option Z) (l : list A) (s s' : S) :
  fst (sort_keys key l s) = fst (sort_keys key l s').
Proof.
  induction l as [|a l IH]; cbn; [reflexivity|]. unfold bind.
  destruct (key a); cbn; [|reflexivity].
  destruct (sort_keys key l s) as [[k1|e1] u1],
           (sort_keys key l s') as [[k2|e2] u2]; cbn in *;
    try discriminate; now inversion IH.
Qed.

Lemma zoom_levels_silenced (t : tree) (s1 s2 : session) :
  silenced s1 s2 ->
  fst (zoom_levels t s1) = fst (zoom_levels t s2)
  /\ silenced (snd (zoom_levels t s1)) (snd (zoom_levels t s2)).
Proof.
  intros H. rewrite !zoom_levels_state. split; [|exact H].
  unfold zoom_levels, bind.
  pose proof (sort_keys_result (fun d => py_int (strip_non_digits (fst d)))
                (get_dirs (listing t)) s1 s2) as Hf.
  destruct (sort_keys _ _ s1) as [[k1|e1] u1],
           (sort_keys _ _ s2) as [[k2|e2] u2]; cbn in *;
    try discriminate; now inversion Hf.
Qed.

(** X17.  The [silent] argument silences and does nothing else: a silent
    import and a verbose one of the same tree have the same outcome, leave
    the same container and the same count; the silent one gives no
    warning. *)
Theorem silent_only_silences (t : tree) (kw : kwargs) :
  let quiet := disk_to_mbtiles t (with_silent true kw) in
  let verbose := disk_to_mbtiles t (with_silent false kw) in
  fst quiet = fst verbose
  /\ db (snd quiet) = db (snd verbose)
  /\ count (snd quiet) = count (snd verbose)
  /\ warnings (snd quiet) = [].
Proof.
  cbn zeta. rewrite !disk_to_mbtiles_unfold.
  cbn [with_silent silent scheme compression].
  set (fmt := import_format t kw).
  assert (Hf : forall b, import_format t (with_silent b kw) = fmt)
    by reflexivity.
  rewrite !Hf.
  assert (H0 : silenced (after_metadata true t) (after_metadata false t)).
  { unfold silenced, after_metadata. cbn. repeat split.
    now destruct (metadata_json t). }
  enough (H : fst (import_tiles true (kwargs_get (scheme kw) "xyz")
                     (compression kw) t fmt (after_metadata true t))
              = fst (import_tiles false (kwargs_get (scheme kw) "xyz")
                       (compression kw) t fmt (after_metadata false t))
              /\ silenced
                   (snd (import_tiles true (kwargs_get (scheme kw) "xyz")
                           (compression kw) t fmt (after_metadata true t)))
                   (snd (import_tiles false (kwargs_get (scheme kw) "xyz")
                           (compression kw) t fmt (after_metadata false t))))
    by (destruct H as (Hr & Hdb & Hc & Hw); tauto).
  unfold import_tiles.
  apply bind_sim; [now apply zoom_levels_silenced|]. intros levels s1 s2 H1.
  apply bind_sim.
  { apply for_each_sim; [|exact H1]. intros d u1 u2.
    apply import_zoom_silenced. }
  intros _ s1' s2' H2. apply bind_sim.
  { destruct (compression kw); cbn [when]; [|now split].
    unfold run_compression.
    apply bind_sim; [now apply on_db_silenced|]. intros _ u1 u2 Hu.
    apply bind_sim; [now apply on_db_silenced|]. intros _ v1 v2 Hv.
    now apply on_db_silenced. }
  intros _ u1 u2 Hu. apply bind_sim; [now split|]. intros _ v1 v2 Hv.
  now apply on_db_silenced.
Qed.

(** ** What the keyword arguments are read for *)

Lemma export_tile_keywords (kw1 kw2 : kwargs) (image_format : string)
    (t : Z * Z * Z * bytes) (f : fs) :
  scheme_is kw1 "wms" = false -> scheme_is kw2 "wms" = false ->
  scheme_is kw1 "xyz" = scheme_is kw2 "xyz" ->
  export_tile kw1 image_format t f = export_tile kw2 image_format t f.
Proof.
  intros H1 H2 Hx. destruct t as [[[z x] y] d].
  unfold export_tile, export_row, export_dir, export_file.
  now rewrite H1, H2, Hx.
Qed.

Lemma bind_ext {S A B} (m : M S A) (k1 k2 : A -> M S B) (s : S) :
  (forall a s', k1 a s' = k2 a s') -> bind m k1 s = bind m k2 s.
Proof.
  intros H. unfold bind. destruct (m s) as [[a|e] s']; [apply H|reflexivity].
Qed.

(** X18.  Outside the WMS layout the export of an imported container
    takes one thing from its keyword arguments: whether the scheme is
    [xyz].  The [format] given is not used (the extension comes from the
    metadata), and every other scheme name, [tms] included, exports like
    no scheme at all: two exports that agree on [xyz] have the same
    outcome and leave the same tree. *)
Theorem export_keywords (t : tree) (kw_i kw1 kw2 : kwargs) (s : session)
    (f : fs) :
  ascii_names t = true ->
  disk_to_mbtiles t kw_i = (Ok tt, s) ->
  scheme_is kw1 "wms" = false -> scheme_is kw2 "wms" = false ->
  scheme_is kw1 "xyz" = scheme_is kw2 "xyz" ->
  export_ready kw1 (db s) = true ->
  mbtiles_to_disk kw1 (mk_export (db s) f)
  = mbtiles_to_disk kw2 (mk_export (db s) f).
Proof.
  intros _ _ H1 H2 Hx _. rewrite !mbtiles_to_disk_program.
  assert (E : export_program kw1 (metadata (db s)) (tiles_by_zoom (db s)) f
              = export_program kw2 (metadata (db s)) (tiles_by_zoom (db s))
                               f).
  { unfold export_program. cbn zeta.
    repeat (apply bind_ext; intros).
    apply for_each_ext. intros r f'. now apply export_tile_keywords. }
  now rewrite E.
Qed.

Lemma export_keywords_witness :
  mbtiles_to_disk (mk_kwargs false (Some "png") (Some "tms") false)
    (mk_export (db (snd (disk_to_mbtiles tree_z1 (kwargs_of None)))) None)
  = mbtiles_to_disk (kwargs_of None)
      (mk_export (db (snd (disk_to_mbtiles tree_z1 (kwargs_of None)))) None).
Proof.
  apply (export_keywords tree_z1 (kwargs_of None)); reflexivity.
Defined.

Lemma import_file_scheme (quiet : bool) (image_format scheme1 scheme2 : string)
    (z x : Z) (e : entry) (s : session) :
  String.eqb scheme1 "tms" = String.eqb scheme2 "tms" ->
  import_file quiet image_format scheme1 z x e s
  = import_file quiet image_format scheme2 z x e s.
Proof. intros H. unfold import_file. now rewrite H. Qed.

Lemma import_zoom_scheme (quiet : bool) (image_format scheme1 scheme2 : string)
    (d : string * list entry) (s : session) :
  String.eqb scheme1 "tms" = String.eqb scheme2 "tms" ->
  import_zoom quiet image_format scheme1 d s
  = import_zoom quiet image_format scheme2 d s.
Proof.
  intros H. unfold import_zoom, bind.
  destruct (lift_option _ _ s) as [[z|err] s1]; [|reflexivity].
  apply for_each_ext. intros row_dir s2. unfold import_column, bind.
  destruct (lift_option _ _ s2) as [[x|err] s3]; [|reflexivity].
  apply for_each_ext. intros e s4. now apply import_file_scheme.
Qed.

(** X19.  The importer tells one scheme apart: [tms], whose rows it
    flips.  Under any other scheme name ([wms] included) a tree is
    imported exactly as when no scheme is given. *)
Theorem import_other_schemes (t : tree) (kw : kwargs) :
  scheme kw <> Some "tms" ->
  disk_to_mbtiles t kw = disk_to_mbtiles t (with_scheme None kw).
Proof.
  intros Hs. rewrite !disk_to_mbtiles_unfold.
  cbn [with_scheme silent scheme compression kwargs_get].
  assert (Hf : import_format t (with_scheme None kw) = import_format t kw)
    by reflexivity.
  rewrite Hf.
  assert (Ht : String.eqb (kwargs_get (scheme kw) "xyz") "tms"
               = String.eqb "xyz" "tms").
  { destruct (scheme kw) as [name|]; [|reflexivity]. cbn [kwargs_get].
    apply not_true_is_false. intros E. apply String.eqb_eq in E.
    now subst name. }
  unfold import_tiles, bind.
  destruct (zoom_levels t _) as [[levels|err] s1]; [|reflexivity].
  now rewrite (for_each_ext _ _ levels
                 (fun d s => import_zoom_scheme (silent kw) _ _ _ d s Ht)).
Qed.

Lemma import_other_schemes_witness :
  disk_to_mbtiles tree_z1 (kwargs_of (Some "wms"))
  = disk_to_mbtiles tree_z1 (kwargs_of None).
Proof.
  apply (import_other_schemes tree_z1 (kwargs_of (Some "wms"))).
  discriminate.
Defined.
